(** * BAVA live captions: the speaker-diarization engine

    A shallow embedding of the speaker tracking code of the caption app
    (the variant with voice fingerprints and the two-step "current speaker
    first, then the others" decision), together with the plain silence-gap
    variant of [src/app.js].

    Conventions of the embedding:
    - a JavaScript number that holds a measurement (pitch, centroid,
      similarity, threshold, learning rate) is an exact rational [Q]; the
      arithmetic of the code is kept operation by operation, rounding of
      IEEE doubles is not modelled, and results over [Q] are stated up to
      [==];
    - speaker ids and timestamps are [Z] (the code uses [-1] as "no match");
      counters that only count up ([sampleCount], [nextColorIndex]) are [nat];
    - a JavaScript object used as a dictionary keyed by speaker id is a
      [gmap Z _]; [Object.entries] lists integer keys in ascending order;
    - [null] / [undefined] is [None];
    - a string is the sequence of its UTF-8 bytes;
    - the global [state] object is a record that every function takes and
      returns; the [localStorage] entry of the saved speakers is carried in
      the same record. *)

From Stdlib Require Import QArith Qabs Qminmax Qround Lqa ZArith Lia.
From stdpp Require Import gmap strings list sorting pretty.

(** ** Numbers *)

(** [x >= y] and [x > y] on JavaScript numbers. *)
Definition Qgeb (x y : Q) : bool := Qle_bool y x.
Definition Qgtb (x y : Q) : bool := negb (Qle_bool x y).

(** [Array.prototype.reduce] with an initial value. *)
Definition reduce {A B : Type} (f : B → A → B) (init : B) (l : list A) : B :=
  fold_left f l init.

(** The length of an array as a number. *)
Definition Qlength {A : Type} (l : list A) : Q := inject_Z (Z.of_nat (length l)).

(** ** Constants *)

Definition SPEAKER_ANALYSIS_THRESHOLD : Z := 2000.
Definition VOICE_PROFILE_MIN_SAMPLES : nat := 5.

Record Color := { name : string; hex : string; border : string }.

Definition SPEAKER_COLORS : list Color :=
  [ {| name := "Blauw";  hex := "#4a9eff"; border := "#2b7de9" |};
    {| name := "Oranje"; hex := "#e69f00"; border := "#c98a00" |};
    {| name := "Groen";  hex := "#009e73"; border := "#007a59" |};
    {| name := "Roze";   hex := "#cc79a7"; border := "#b05e8c" |};
    {| name := "Geel";   hex := "#f0e442"; border := "#d4c830" |};
    {| name := "Cyaan";  hex := "#56b4e9"; border := "#3a9ad4" |};
    {| name := "Rood";   hex := "#d55e00"; border := "#b34d00" |};
    {| name := "Paars";  hex := "#a855f7"; border := "#8b3de0" |} ].

(** ** Data *)

(** One entry of [state.voiceSampleBuffer]. *)
Record VoiceSample := { pitch : Q; centroid : Q }.

Record Fingerprint := {
  pitchAvg : Q;
  pitchVar : Q;
  centroidAvg : Q;
  centroidVar : Q
}.

(** A stored profile is a fingerprint object with a [sampleCount] added
    ([{ ...fingerprint, sampleCount: 1 }]). *)
Record SpeakerProfile := {
  print : Fingerprint;
  sampleCount : nat
}.

(** [state.settings]; only the field the engine reads. *)
Record Settings := { speakerSensitivity : Q }.

(** ** Fingerprints *)

(** [buildFingerprint], with the minimum number of samples as a parameter. *)
Definition buildFingerprintN (minSamples : nat) (samples : list VoiceSample)
  : option Fingerprint :=
  if (length samples <? minSamples)%nat then None
  else
    let pitches := map pitch samples in
    let centroids := map centroid samples in
    let pitchAvg := (reduce (λ a b, a + b) 0 pitches / Qlength pitches)%Q in
    let centroidAvg := (reduce (λ a b, a + b) 0 centroids / Qlength centroids)%Q in
    let pitchVar :=
      (reduce (λ sum p, sum + (p - pitchAvg) ^ 2) 0 pitches / Qlength pitches)%Q in
    let centroidVar :=
      (reduce (λ sum c, sum + (c - centroidAvg) ^ 2) 0 centroids / Qlength centroids)%Q in
    Some {| pitchAvg := pitchAvg; pitchVar := pitchVar;
            centroidAvg := centroidAvg; centroidVar := centroidVar |}.

Definition buildFingerprint : list VoiceSample → option Fingerprint :=
  buildFingerprintN VOICE_PROFILE_MIN_SAMPLES.

Definition compareFingerprints (fp1 fp2 : option Fingerprint) : Q :=
  match fp1, fp2 with
  | Some fp1, Some fp2 =>
      let pitchRange := 440%Q in
      let pitchDiff := (Qabs (pitchAvg fp1 - pitchAvg fp2) / pitchRange)%Q in
      let centroidRange := 3800%Q in
      let centroidDiff := (Qabs (centroidAvg fp1 - centroidAvg fp2) / centroidRange)%Q in
      let distance := ((pitchDiff * 0.6) + (centroidDiff * 0.4))%Q in
      Qmax 0 (1 - distance * 3)
  | _, _ => 0%Q
  end.

(** [getSpeakerDifferThreshold]; the settings it reads are its argument. *)
Definition getSpeakerDifferThreshold (settings : Settings) : Q :=
  let s := (speakerSensitivity settings / 100)%Q in
  (0.05 + s * 0.45)%Q.

(** *** The words of the specification, for comparison *)

Fixpoint Qsum (l : list Q) : Q :=
  match l with
  | [] => 0%Q
  | x :: l' => (x + Qsum l')%Q
  end.

Definition arithmetic_mean (l : list Q) : Q := (Qsum l / Qlength l)%Q.

Definition population_variance (l : list Q) : Q :=
  (Qsum (map (λ x, (x - arithmetic_mean l) * (x - arithmetic_mean l)) l) / Qlength l)%Q.

Definition weighted_distance (a b : Fingerprint) : Q :=
  (0.6 * (Qabs (pitchAvg a - pitchAvg b) / 440)
   + 0.4 * (Qabs (centroidAvg a - centroidAvg b) / 3800))%Q.

(** ** The state *)

(** What [saveSpeakerProfiles] writes under [SPEAKERS_KEY] (the [savedAt]
    stamp is never read back and is left out). *)
Record SavedSpeakers := {
  profiles : gmap Z SpeakerProfile;
  names : gmap Z string;
  colorMap : gmap Z nat;
  savedNextColorIndex : nat;
  savedSpeakerCount : Z
}.

(** The speaker-tracking fields of the global [state] object.
    [recognition] and [voiceSampleTimer] record whether the recognition
    object and the sampling interval exist; [localStorage] is the saved
    speakers entry. *)
Record State := {
  recognition : bool;
  currentSpeakerId : Z;
  speakerColorMap : gmap Z nat;
  nextColorIndex : nat;
  lastSpeechTime : option Z;
  speakerCount : Z;
  speakerProfiles : gmap Z SpeakerProfile;
  voiceSampleBuffer : list VoiceSample;
  voiceSampleTimer : bool;
  speakerNames : gmap Z string;
  pendingAnalysis : bool;
  settings : Settings;
  localStorage : option SavedSpeakers
}.

Definition set_recognition (v : bool) (st : State) : State :=
  {| recognition := v; currentSpeakerId := currentSpeakerId st;
     speakerColorMap := speakerColorMap st; nextColorIndex := nextColorIndex st;
     lastSpeechTime := lastSpeechTime st; speakerCount := speakerCount st;
     speakerProfiles := speakerProfiles st; voiceSampleBuffer := voiceSampleBuffer st;
     voiceSampleTimer := voiceSampleTimer st; speakerNames := speakerNames st;
     pendingAnalysis := pendingAnalysis st; settings := settings st;
     localStorage := localStorage st |}.

Definition set_currentSpeakerId (v : Z) (st : State) : State :=
  {| recognition := recognition st; currentSpeakerId := v;
     speakerColorMap := speakerColorMap st; nextColorIndex := nextColorIndex st;
     lastSpeechTime := lastSpeechTime st; speakerCount := speakerCount st;
     speakerProfiles := speakerProfiles st; voiceSampleBuffer := voiceSampleBuffer st;
     voiceSampleTimer := voiceSampleTimer st; speakerNames := speakerNames st;
     pendingAnalysis := pendingAnalysis st; settings := settings st;
     localStorage := localStorage st |}.

Definition set_speakerColorMap (v : gmap Z nat) (st : State) : State :=
  {| recognition := recognition st; currentSpeakerId := currentSpeakerId st;
     speakerColorMap := v; nextColorIndex := nextColorIndex st;
     lastSpeechTime := lastSpeechTime st; speakerCount := speakerCount st;
     speakerProfiles := speakerProfiles st; voiceSampleBuffer := voiceSampleBuffer st;
     voiceSampleTimer := voiceSampleTimer st; speakerNames := speakerNames st;
     pendingAnalysis := pendingAnalysis st; settings := settings st;
     localStorage := localStorage st |}.

Definition set_nextColorIndex (v : nat) (st : State) : State :=
  {| recognition := recognition st; currentSpeakerId := currentSpeakerId st;
     speakerColorMap := speakerColorMap st; nextColorIndex := v;
     lastSpeechTime := lastSpeechTime st; speakerCount := speakerCount st;
     speakerProfiles := speakerProfiles st; voiceSampleBuffer := voiceSampleBuffer st;
     voiceSampleTimer := voiceSampleTimer st; speakerNames := speakerNames st;
     pendingAnalysis := pendingAnalysis st; settings := settings st;
     localStorage := localStorage st |}.

Definition set_lastSpeechTime (v : option Z) (st : State) : State :=
  {| recognition := recognition st; currentSpeakerId := currentSpeakerId st;
     speakerColorMap := speakerColorMap st; nextColorIndex := nextColorIndex st;
     lastSpeechTime := v; speakerCount := speakerCount st;
     speakerProfiles := speakerProfiles st; voiceSampleBuffer := voiceSampleBuffer st;
     voiceSampleTimer := voiceSampleTimer st; speakerNames := speakerNames st;
     pendingAnalysis := pendingAnalysis st; settings := settings st;
     localStorage := localStorage st |}.

Definition set_speakerCount (v : Z) (st : State) : State :=
  {| recognition := recognition st; currentSpeakerId := currentSpeakerId st;
     speakerColorMap := speakerColorMap st; nextColorIndex := nextColorIndex st;
     lastSpeechTime := lastSpeechTime st; speakerCount := v;
     speakerProfiles := speakerProfiles st; voiceSampleBuffer := voiceSampleBuffer st;
     voiceSampleTimer := voiceSampleTimer st; speakerNames := speakerNames st;
     pendingAnalysis := pendingAnalysis st; settings := settings st;
     localStorage := localStorage st |}.

Definition set_speakerProfiles (v : gmap Z SpeakerProfile) (st : State) : State :=
  {| recognition := recognition st; currentSpeakerId := currentSpeakerId st;
     speakerColorMap := speakerColorMap st; nextColorIndex := nextColorIndex st;
     lastSpeechTime := lastSpeechTime st; speakerCount := speakerCount st;
     speakerProfiles := v; voiceSampleBuffer := voiceSampleBuffer st;
     voiceSampleTimer := voiceSampleTimer st; speakerNames := speakerNames st;
     pendingAnalysis := pendingAnalysis st; settings := settings st;
     localStorage := localStorage st |}.

Definition set_voiceSampleBuffer (v : list VoiceSample) (st : State) : State :=
  {| recognition := recognition st; currentSpeakerId := currentSpeakerId st;
     speakerColorMap := speakerColorMap st; nextColorIndex := nextColorIndex st;
     lastSpeechTime := lastSpeechTime st; speakerCount := speakerCount st;
     speakerProfiles := speakerProfiles st; voiceSampleBuffer := v;
     voiceSampleTimer := voiceSampleTimer st; speakerNames := speakerNames st;
     pendingAnalysis := pendingAnalysis st; settings := settings st;
     localStorage := localStorage st |}.

Definition set_voiceSampleTimer (v : bool) (st : State) : State :=
  {| recognition := recognition st; currentSpeakerId := currentSpeakerId st;
     speakerColorMap := speakerColorMap st; nextColorIndex := nextColorIndex st;
     lastSpeechTime := lastSpeechTime st; speakerCount := speakerCount st;
     speakerProfiles := speakerProfiles st; voiceSampleBuffer := voiceSampleBuffer st;
     voiceSampleTimer := v; speakerNames := speakerNames st;
     pendingAnalysis := pendingAnalysis st; settings := settings st;
     localStorage := localStorage st |}.

Definition set_speakerNames (v : gmap Z string) (st : State) : State :=
  {| recognition := recognition st; currentSpeakerId := currentSpeakerId st;
     speakerColorMap := speakerColorMap st; nextColorIndex := nextColorIndex st;
     lastSpeechTime := lastSpeechTime st; speakerCount := speakerCount st;
     speakerProfiles := speakerProfiles st; voiceSampleBuffer := voiceSampleBuffer st;
     voiceSampleTimer := voiceSampleTimer st; speakerNames := v;
     pendingAnalysis := pendingAnalysis st; settings := settings st;
     localStorage := localStorage st |}.

Definition set_pendingAnalysis (v : bool) (st : State) : State :=
  {| recognition := recognition st; currentSpeakerId := currentSpeakerId st;
     speakerColorMap := speakerColorMap st; nextColorIndex := nextColorIndex st;
     lastSpeechTime := lastSpeechTime st; speakerCount := speakerCount st;
     speakerProfiles := speakerProfiles st; voiceSampleBuffer := voiceSampleBuffer st;
     voiceSampleTimer := voiceSampleTimer st; speakerNames := speakerNames st;
     pendingAnalysis := v; settings := settings st;
     localStorage := localStorage st |}.

Definition set_settings (v : Settings) (st : State) : State :=
  {| recognition := recognition st; currentSpeakerId := currentSpeakerId st;
     speakerColorMap := speakerColorMap st; nextColorIndex := nextColorIndex st;
     lastSpeechTime := lastSpeechTime st; speakerCount := speakerCount st;
     speakerProfiles := speakerProfiles st; voiceSampleBuffer := voiceSampleBuffer st;
     voiceSampleTimer := voiceSampleTimer st; speakerNames := speakerNames st;
     pendingAnalysis := pendingAnalysis st; settings := v;
     localStorage := localStorage st |}.

Definition set_localStorage (v : option SavedSpeakers) (st : State) : State :=
  {| recognition := recognition st; currentSpeakerId := currentSpeakerId st;
     speakerColorMap := speakerColorMap st; nextColorIndex := nextColorIndex st;
     lastSpeechTime := lastSpeechTime st; speakerCount := speakerCount st;
     speakerProfiles := speakerProfiles st; voiceSampleBuffer := voiceSampleBuffer st;
     voiceSampleTimer := voiceSampleTimer st; speakerNames := speakerNames st;
     pendingAnalysis := pendingAnalysis st; settings := settings st;
     localStorage := v |}.

(** The [state] literal at page load, with the settings and the storage
    found there. *)
Definition initialState (cfg : Settings) (stored : option SavedSpeakers) : State :=
  {| recognition := false; currentSpeakerId := 0;
     speakerColorMap := ∅; nextColorIndex := 0;
     lastSpeechTime := None; speakerCount := 0;
     speakerProfiles := ∅; voiceSampleBuffer := [];
     voiceSampleTimer := false; speakerNames := ∅;
     pendingAnalysis := false; settings := cfg;
     localStorage := stored |}.

(** [Object.entries] of a dictionary keyed by speaker id: ascending keys. *)
Definition Object_entries {V : Type} (m : gmap Z V) : list (Z * V) :=
  merge_sort (λ x y : Z * V, (x.1 <=? y.1)%Z) (map_to_list m).

(** ** Sampling *)

Definition stopVoiceSampling (st : State) : State :=
  if voiceSampleTimer st then set_voiceSampleTimer false st else st.

Definition startVoiceSampling (st : State) : State :=
  set_voiceSampleTimer true (set_voiceSampleBuffer [] (stopVoiceSampling st)).

(** [collectVoiceSample]; the two measurements read from the audio
    analysers are its arguments. *)
Definition collectVoiceSample (pitch centroid : Q) (st : State) : State :=
  if Qgtb pitch 0 && Qgtb centroid 0
  then set_voiceSampleBuffer
         (voiceSampleBuffer st ++ [ {| pitch := pitch; centroid := centroid |} ]) st
  else st.

(** ** Persistence *)

Definition saveSpeakerProfiles (st : State) : State :=
  set_localStorage
    (Some {| profiles := speakerProfiles st;
             names := speakerNames st;
             colorMap := speakerColorMap st;
             savedNextColorIndex := nextColorIndex st;
             savedSpeakerCount := speakerCount st |}) st.

Definition loadSpeakerProfiles (st : State) : option SavedSpeakers :=
  localStorage st.

(** ** The profile store *)

Definition updateSpeakerProfile (speakerId : Z) (fingerprint : option Fingerprint)
    (st : State) : State :=
  match fingerprint with
  | None => st
  | Some fingerprint =>
      match speakerProfiles st !! speakerId with
      | None =>
          set_speakerProfiles
            (<[speakerId := {| print := fingerprint; sampleCount := 1 |}]>
               (speakerProfiles st)) st
      | Some existing =>
          let alpha := Qmin 0.3 (1 / (inject_Z (Z.of_nat (sampleCount existing)) + 1))%Q in
          let old := print existing in
          let updated :=
            {| print :=
                 {| pitchAvg := (pitchAvg old * (1 - alpha) + pitchAvg fingerprint * alpha)%Q;
                    pitchVar := (pitchVar old * (1 - alpha) + pitchVar fingerprint * alpha)%Q;
                    centroidAvg :=
                      (centroidAvg old * (1 - alpha) + centroidAvg fingerprint * alpha)%Q;
                    centroidVar :=
                      (centroidVar old * (1 - alpha) + centroidVar fingerprint * alpha)%Q |};
               sampleCount := S (sampleCount existing) |} in
          let st' := set_speakerProfiles (<[speakerId := updated]> (speakerProfiles st)) st in
          if (sampleCount updated mod 10 =? 0)%nat then saveSpeakerProfiles st' else st'
      end
  end.

(** ** The diarization policy *)

(** [state.lastSpeechTime ? (now - state.lastSpeechTime) : 0]; a stored
    time of [0] is falsy like [null]. *)
Definition silenceGap (now : Z) (st : State) : Z :=
  match lastSpeechTime st with
  | Some t => if (t =? 0)%Z then 0 else now - t
  | None => 0
  end.

(** First block of [detectSpeakerChange]: on a silence gap, the outgoing
    segment is folded into the current speaker's profile, sampling restarts
    and the analysis is marked pending. *)
Definition onSilenceGap (now : Z) (st : State) : State :=
  if (silenceGap now st >? SPEAKER_ANALYSIS_THRESHOLD)%Z
  then
    let currentFingerprint := buildFingerprint (voiceSampleBuffer st) in
    let st1 := updateSpeakerProfile (currentSpeakerId st) currentFingerprint st in
    set_pendingAnalysis true (startVoiceSampling st1)
  else st.

(** Body of the [for ... of Object.entries(state.speakerProfiles)] loop;
    the pair is [(bestMatch, bestScore)]. *)
Definition matchStep (newFingerprint : Fingerprint) (current : Z)
    (best : Z * Q) (entry : Z * SpeakerProfile) : Z * Q :=
  let speakerId := entry.1 in
  if (speakerId =? current)%Z then best
  else
    let score := compareFingerprints (Some newFingerprint) (Some (print entry.2)) in
    if Qgtb score best.2 then (speakerId, score) else best.

Definition findBestMatch (newFingerprint : Fingerprint) (st : State) : Z * Q :=
  fold_left (matchStep newFingerprint (currentSpeakerId st))
            (Object_entries (speakerProfiles st)) ((-1)%Z, 0%Q).

(** Second block of [detectSpeakerChange]: the pending analysis. *)
Definition analyseVoice (st : State) : State :=
  if pendingAnalysis st
     && (VOICE_PROFILE_MIN_SAMPLES <=? length (voiceSampleBuffer st))%nat
  then
    match buildFingerprint (voiceSampleBuffer st) with
    | Some newFingerprint =>
        let currentProfile := speakerProfiles st !! currentSpeakerId st in
        let currentSimilarity :=
          match currentProfile with
          | Some p => compareFingerprints (Some newFingerprint) (Some (print p))
          | None => 1%Q
          end in
        let differThreshold := getSpeakerDifferThreshold (settings st) in
        if Qgeb currentSimilarity differThreshold
        then set_pendingAnalysis false st
        else
          let best := findBestMatch newFingerprint st in
          let bestMatch := best.1 in
          let bestScore := best.2 in
          let st1 :=
            if (0 <=? bestMatch)%Z
               && Qgeb bestScore (getSpeakerDifferThreshold (settings st))
            then set_currentSpeakerId bestMatch st
            else set_speakerCount (speakerCount st + 1)
                   (set_currentSpeakerId (speakerCount st) st) in
          set_pendingAnalysis false st1
    | None => st
    end
  else st.

(** [detectSpeakerChange]; [now] is the value of [Date.now()].  Returns the
    speaker id and the new state. *)
Definition detectSpeakerChange (now : Z) (st : State) : Z * State :=
  let st1 := onSilenceGap now st in
  let st2 := analyseVoice st1 in
  let st3 := set_lastSpeechTime (Some now) st2 in
  (currentSpeakerId st3, st3).

(** ** Colours and names *)

Definition getSpeakerColor (speakerId : Z) (st : State) : option Color * State :=
  let st1 :=
    match speakerColorMap st !! speakerId with
    | None =>
        set_nextColorIndex (S (nextColorIndex st))
          (set_speakerColorMap
             (<[speakerId := (nextColorIndex st mod length SPEAKER_COLORS)%nat]>
                (speakerColorMap st)) st)
    | Some _ => st
    end in
  (match speakerColorMap st1 !! speakerId with
   | Some colorIdx => SPEAKER_COLORS !! colorIdx
   | None => None
   end, st1).

(** [String.prototype.trim].  It strips the white space and the line
    terminators of ECMAScript from both ends: the ASCII characters 9 to 13
    and 32, and the code points U+00A0, U+1680, U+2000 to U+200A, U+2028,
    U+2029, U+202F, U+205F, U+3000 and U+FEFF, which take two or three
    bytes in UTF-8. *)
Definition whiteSpace2 (a b : Ascii.ascii) : bool :=
  let a := Ascii.nat_of_ascii a in
  let b := Ascii.nat_of_ascii b in
  ((a =? 194) && (b =? 160))%nat.

Definition whiteSpace3 (a b c : Ascii.ascii) : bool :=
  let a := Ascii.nat_of_ascii a in
  let b := Ascii.nat_of_ascii b in
  let c := Ascii.nat_of_ascii c in
  (((a =? 225) && (b =? 154) && (c =? 128))
   || ((a =? 226) && (b =? 128) && (128 <=? c) && (c <=? 138))
   || ((a =? 226) && (b =? 128) && ((c =? 168) || (c =? 169) || (c =? 175)))
   || ((a =? 226) && (b =? 129) && (c =? 159))
   || ((a =? 227) && (b =? 128) && (c =? 128))
   || ((a =? 239) && (b =? 187) && (c =? 191)))%nat.

Fixpoint trimStart (s : string) : string :=
  match s with
  | String a s1 =>
      if Ascii.is_space a then trimStart s1
      else
        match s1 with
        | String b s2 =>
            if whiteSpace2 a b then trimStart s2
            else
              match s2 with
              | String c s3 => if whiteSpace3 a b c then trimStart s3 else s
              | EmptyString => s
              end
        | EmptyString => s
        end
  | EmptyString => EmptyString
  end.

(** The same on a reversed string, where the bytes of a character come in
    reverse order. *)
Fixpoint trimStartReversed (s : string) : string :=
  match s with
  | String a s1 =>
      if Ascii.is_space a then trimStartReversed s1
      else
        match s1 with
        | String b s2 =>
            if whiteSpace2 b a then trimStartReversed s2
            else
              match s2 with
              | String c s3 =>
                  if whiteSpace3 c b a then trimStartReversed s3 else s
              | EmptyString => s
              end
        | EmptyString => s
        end
  | EmptyString => EmptyString
  end.

Definition trim (s : string) : string :=
  String.rev (trimStartReversed (String.rev (trimStart s))).

(** A no-break space, U+00A0. *)
Definition noBreakSpace : string :=
  String (Ascii.ascii_of_nat 194) (String (Ascii.ascii_of_nat 160) EmptyString).

(** [renameSpeaker]; [answer] is what the prompt returned. *)
Definition renameSpeaker (speakerId : Z) (answer : option string) (st : State) : State :=
  match answer with
  | Some newName =>
      if bool_decide (newName ≠ EmptyString) && bool_decide (trim newName ≠ EmptyString)
      then saveSpeakerProfiles
             (set_speakerNames (<[speakerId := trim newName]> (speakerNames st)) st)
      else st
  | None => st
  end.

(** ** Sessions and the saved speakers *)

Definition resetSpeakerState (st : State) : State :=
  let saved := loadSpeakerProfiles st in
  let st1 :=
    match saved with
    | Some saved =>
        if (0 <? size (profiles saved))%nat
        then
          set_currentSpeakerId 0
            (set_speakerCount
               (if (savedSpeakerCount saved =? 0)%Z
                then Z.of_nat (size (profiles saved))
                else savedSpeakerCount saved)
               (set_nextColorIndex
                  (if (savedNextColorIndex saved =? 0)%nat
                   then size (colorMap saved)
                   else savedNextColorIndex saved)
                  (set_speakerColorMap (colorMap saved)
                     (set_speakerNames (names saved)
                        (set_speakerProfiles (profiles saved) st)))))
        else
          set_currentSpeakerId 0
            (set_speakerCount 1
               (set_nextColorIndex 0
                  (set_speakerColorMap ∅
                     (set_speakerNames ∅ (set_speakerProfiles ∅ st)))))
    | None =>
        set_currentSpeakerId 0
          (set_speakerCount 1
             (set_nextColorIndex 0
                (set_speakerColorMap ∅
                   (set_speakerNames ∅ (set_speakerProfiles ∅ st)))))
    end in
  stopVoiceSampling
    (set_pendingAnalysis false
       (set_voiceSampleBuffer [] (set_lastSpeechTime None st1))).

(** The speaker part of [startListening], on the path where the microphone
    and the recognition engine are available: the audio set-up starts the
    sampling, the recognition object is created, the speaker state is reset. *)
Definition startListening (st : State) : State :=
  resetSpeakerState (set_recognition true (startVoiceSampling st)).

(** The speaker part of [stopListening]. *)
Definition stopListening (st : State) : State :=
  let st1 := stopVoiceSampling st in
  let currentFingerprint := buildFingerprint (voiceSampleBuffer st1) in
  saveSpeakerProfiles (updateSpeakerProfile (currentSpeakerId st1) currentFingerprint st1).

(** The click handler of "clear all saved speakers", once confirmed. *)
Definition clearSpeakers (st : State) : State :=
  set_currentSpeakerId 0
    (set_speakerCount 1
       (set_nextColorIndex 0
          (set_speakerColorMap ∅
             (set_speakerNames ∅
                (set_speakerProfiles ∅ (set_localStorage None st)))))).

(** The click handler that deletes one saved speaker. *)
Definition deleteSpeaker (speakerId : Z) (st : State) : State :=
  saveSpeakerProfiles
    (set_speakerColorMap (delete speakerId (speakerColorMap st))
       (set_speakerNames (delete speakerId (speakerNames st))
          (set_speakerProfiles (delete speakerId (speakerProfiles st)) st))).

(** The speaker part of [handleResults]. *)
Definition handleResults (now : Z) (st : State) : Z * option Color * State :=
  let '(speakerId, st1) := detectSpeakerChange now st in
  let '(speakerColor, st2) := getSpeakerColor speakerId st1 in
  (speakerId, speakerColor, st2).

(** ** Events

    The callbacks that touch the speaker state, as the browser delivers
    them: the sampling interval fires only while its timer exists, results
    and the stop button only once a recognition object exists.  A page
    reload builds the [state] literal again and keeps the settings and the
    storage. *)
Inductive Event :=
| EvStart
| EvSample (pitch centroid : Q)
| EvSpeech (now : Z)
| EvStop
| EvRename (speakerId : Z) (answer : option string)
| EvDelete (speakerId : Z)
| EvClear
| EvSensitivity (value : Z)
| EvReload.

Definition step (e : Event) (st : State) : State :=
  match e with
  | EvStart => startListening st
  | EvSample p c => if voiceSampleTimer st then collectVoiceSample p c st else st
  | EvSpeech now => if recognition st then (handleResults now st).2 else st
  | EvStop => if recognition st then stopListening st else st
  | EvRename speakerId answer => renameSpeaker speakerId answer st
  | EvDelete speakerId => deleteSpeaker speakerId st
  | EvClear => clearSpeakers st
  | EvSensitivity value => set_settings {| speakerSensitivity := inject_Z value |} st
  | EvReload => initialState (settings st) (localStorage st)
  end.

Definition run (events : list Event) (st : State) : State :=
  fold_left (λ st e, step e st) events st.

(** The states of the application: from the first page load with an empty
    storage, any sequence of events. *)
Inductive reachable : State → Prop :=
| reachable_init cfg : reachable (initialState cfg None)
| reachable_step e st : reachable st → reachable (step e st).

(** The ids that speech events return along a run. *)
Fixpoint returnedIds (events : list Event) (st : State) : list Z :=
  match events with
  | [] => []
  | e :: events' =>
      match e with
      | EvSpeech now =>
          if recognition st
          then (handleResults now st).1.1 :: returnedIds events' (step e st)
          else returnedIds events' (step e st)
      | _ => returnedIds events' (step e st)
      end
  end.

Definition isSample (e : Event) : bool :=
  match e with EvSample _ _ => true | _ => false end.

Definition isSampleOrSpeech (e : Event) : bool :=
  match e with EvSample _ _ | EvSpeech _ => true | _ => false end.



(** The [sampleCount] that the saved snapshot holds for a speaker. *)
Definition savedSampleCount (speakerId : Z) (st : State) : option nat :=
  match localStorage st with
  | Some saved => sampleCount <$> profiles saved !! speakerId
  | None => None
  end.

(** A run of calls of [getSpeakerColor]. *)
Definition colorCalls (ids : list Z) (st : State) : State :=
  fold_left (λ st id, (getSpeakerColor id st).2) ids st.

(** The ids of a list of calls in the order of their first appearance,
    continuing the list [seen]. *)
Definition firstSeenFrom (seen ids : list Z) : list Z :=
  fold_left (λ acc id, if bool_decide (id ∈ acc) then acc else acc ++ [id]) ids seen.

Definition firstSeen (ids : list Z) : list Z := firstSeenFrom [] ids.

(** Every id the state knows of. *)
Definition speakerIds (st : State) : gset Z :=
  dom (speakerProfiles st) ∪ dom (speakerColorMap st) ∪ dom (speakerNames st)
  ∪ {[ currentSpeakerId st ]}.

(** A set of ids is dense from 0 when it has no hole below any member. *)
Definition dense (ids : gset Z) : Prop :=
  ∀ i j : Z, i ∈ ids → (0 ≤ j ≤ i)%Z → j ∈ ids.

(** The similarity of a new fingerprint to a stored profile. *)
Definition similarityTo (newFingerprint : Fingerprint) (p : SpeakerProfile) : Q :=
  compareFingerprints (Some newFingerprint) (Some (print p)).

(** The learning rate of [updateSpeakerProfile] for a stored profile. *)
Definition learningRate (existing : SpeakerProfile) : Q :=
  Qmin 0.3 (1 / (inject_Z (Z.of_nat (sampleCount existing)) + 1))%Q.

(** ** The plain silence-gap variant ([src/app.js]) *)

Module AppJs.

Definition SPEAKER_CHANGE_THRESHOLD : Z := 2000.

Record State := {
  currentSpeakerId : Z;
  speakerColorMap : gmap Z nat;
  nextColorIndex : nat;
  lastSpeechTime : option Z;
  speakerCount : Z
}.

Definition detectSpeakerChange (now : Z) (st : State) : Z * State :=
  let gap :=
    match lastSpeechTime st with
    | Some t => negb (t =? 0)%Z && (now - t >? SPEAKER_CHANGE_THRESHOLD)%Z
    | None => false
    end in
  let st1 :=
    if gap
    then {| currentSpeakerId := speakerCount st;
            speakerColorMap := speakerColorMap st;
            nextColorIndex := nextColorIndex st;
            lastSpeechTime := lastSpeechTime st;
            speakerCount := speakerCount st + 1 |}
    else st in
  let st2 :=
    {| currentSpeakerId := currentSpeakerId st1;
       speakerColorMap := speakerColorMap st1;
       nextColorIndex := nextColorIndex st1;
       lastSpeechTime := Some now;
       speakerCount := speakerCount st1 |} in
  (currentSpeakerId st2, st2).

Definition resetSpeakerState (st : State) : State :=
  {| currentSpeakerId := 0;
     speakerColorMap := ∅;
     nextColorIndex := 0;
     lastSpeechTime := None;
     speakerCount := 1 |}.

End AppJs.

(** The number of sampling events in a list of events. *)
Definition samplesIn (events : list Event) : nat :=
  length (List.filter isSample events).

(** What the amended invariant says of a saved snapshot and of a state:
    every id of a profile or of a colour is at least 0 and below the
    speaker count. *)
Definition savedBounded (saved : option SavedSpeakers) : Prop :=
  match saved with
  | Some s =>
      ∀ id : Z, id ∈ dom (profiles s) ∪ dom (colorMap s) →
                (0 ≤ id < savedSpeakerCount s)%Z
  | None => True
  end.

Definition idsBounded (st : State) : Prop :=
  (0 ≤ speakerCount st)%Z
  ∧ (∀ id : Z, id ∈ dom (speakerProfiles st) ∪ dom (speakerColorMap st) →
               (0 ≤ id < speakerCount st)%Z)
  ∧ (recognition st = true → (0 ≤ currentSpeakerId st < speakerCount st)%Z)
  ∧ savedBounded (localStorage st).

(** The similarity that the analysis computes for the current speaker. *)
Definition currentSimilarityOf (newFingerprint : Fingerprint) (st : State) : Q :=
  match speakerProfiles st !! currentSpeakerId st with
  | Some p => similarityTo newFingerprint p
  | None => 1%Q
  end.

(** ** Example sessions *)

Definition defaultSettings : Settings := {| speakerSensitivity := 15 |}.

(** The first page load: nothing saved yet. *)
Definition pageLoad : State := initialState defaultSettings None.

(** Five samples of one voice. *)
Definition segment (pitch centroid : Q) : list Event :=
  replicate 5 (EvSample pitch centroid).

(** A session in which the first voice is heard and, after a pause, stored
    as the profile of speaker 0. *)
Definition firstVoice : list Event :=
  [EvStart; EvSpeech 1000; EvSpeech 4000] ++ segment 120 800
  ++ [EvSpeech 4500; EvSpeech 7000].

(** ... then five samples of a second, different voice arrive ... *)
Definition secondVoice : list Event := firstVoice ++ segment 220 2500.

(** ... and the session goes on to a third voice. *)
Definition threeVoices : list Event :=
  secondVoice ++ [EvSpeech 7500; EvSpeech 10000] ++ segment 400 3600
  ++ [EvSpeech 10500; EvSpeech 13000].


(** Three voices, "clear all" in the middle of the session, a new name for
    the label of speaker 2 on an earlier caption, and the three voices
    again. *)
Definition clearedMidSession : list Event :=
  threeVoices ++ [EvClear; EvRename 2 (Some "Anna")] ++ segment 120 800
  ++ [EvSpeech 13500; EvSpeech 16000] ++ segment 220 2500
  ++ [EvSpeech 16500; EvSpeech 19000] ++ segment 400 3600.

(** A fingerprint of the second voice of the example sessions. *)
Definition secondVoicePrint : Fingerprint :=
  {| pitchAvg := 220; pitchVar := 0; centroidAvg := 2500; centroidVar := 0 |}.

(** The colour map follows the list of ids seen so far. *)
Definition colorsFollow (seen : list Z) (st : State) : Prop :=
  nextColorIndex st = length seen
  ∧ (∀ id, id ∈ seen ↔ is_Some (speakerColorMap st !! id))
  ∧ (∀ k id, seen !! k = Some id → speakerColorMap st !! id = Some (k mod 8)%nat).

(** What the example sessions compute: the stored profile of the first
    voice and the fingerprint built from the samples of the second. *)
Definition firstVoiceProfile : SpeakerProfile :=
  {| print := {| pitchAvg := 600 # 5; pitchVar := 0 # 48828125;
                 centroidAvg := 4000 # 5; centroidVar := 0 # 48828125 |};
     sampleCount := 1 |}.

Definition secondVoiceBuilt : Fingerprint :=
  {| pitchAvg := 1100 # 5; pitchVar := 0 # 48828125;
     centroidAvg := 12500 # 5; centroidVar := 0 # 48828125 |}.

(** ** Soundness of the stored voices and colours

    What the engine keeps true of its data: buffered samples have a
    positive pitch and centroid, stored profiles have positive averages,
    non-negative variances and at least one sample, colour indices point
    into the palette, and a colour map is empty as long as no colour index
    has been handed out. *)
Definition sampleSound (s : VoiceSample) : Prop :=
  (0 < pitch s)%Q ∧ (0 < centroid s)%Q.

Definition printSound (f : Fingerprint) : Prop :=
  (0 < pitchAvg f)%Q ∧ (0 <= pitchVar f)%Q
  ∧ (0 < centroidAvg f)%Q ∧ (0 <= centroidVar f)%Q.

Definition profileSound (p : SpeakerProfile) : Prop :=
  printSound (print p) ∧ (1 ≤ sampleCount p)%nat.

Definition savedSound (saved : option SavedSpeakers) : Prop :=
  match saved with
  | Some s =>
      map_Forall (λ _ p, profileSound p) (profiles s)
      ∧ map_Forall (λ _ c, (c < 8)%nat) (colorMap s)
  | None => True
  end.

Definition stateSound (st : State) : Prop :=
  Forall sampleSound (voiceSampleBuffer st)
  ∧ map_Forall (λ _ p, profileSound p) (speakerProfiles st)
  ∧ map_Forall (λ _ c, (c < 8)%nat) (speakerColorMap st)
  ∧ (nextColorIndex st = 0%nat → speakerColorMap st = ∅)
  ∧ savedSound (localStorage st).

(** Along a run, no speech event finds a silence gap. *)
Fixpoint noGaps (events : list Event) (st : State) : bool :=
  match events with
  | [] => true
  | e :: events' =>
      match e with
      | EvSpeech now =>
          (silenceGap now st <=? SPEAKER_ANALYSIS_THRESHOLD)%Z
          && noGaps events' (step e st)
      | _ => noGaps events' (step e st)
      end
  end.

(** ** Runs of the plain silence-gap variant ([src/app.js]) *)

(** The state after a series of results at the given times. *)
Definition appJsRun (nows : list Z) (st : AppJs.State) : AppJs.State :=
  fold_left (λ st now, (AppJs.detectSpeakerChange now st).2) nows st.

(** The ids returned for a series of results. *)
Fixpoint appJsReturned (nows : list Z) (st : AppJs.State) : list Z :=
  match nows with
  | [] => []
  | now :: nows' =>
      (AppJs.detectSpeakerChange now st).1
      :: appJsReturned nows' (AppJs.detectSpeakerChange now st).2
  end.

(** The number of results that come more than the threshold after the
    result before them; [last] is the time of the last result so far. *)
Fixpoint pausesIn (last : option Z) (nows : list Z) : Z :=
  match nows with
  | [] => 0
  | now :: nows' =>
      (match last with
       | Some t =>
           if negb (t =? 0)%Z && (now - t >? AppJs.SPEAKER_CHANGE_THRESHOLD)%Z
           then 1 else 0
       | None => 0
       end + pausesIn (Some now) nows')%Z
  end.

(** ** Labels *)

(** [getSpeakerLabel]: the stored name, or "Spreker" with the id plus one
    when no name is stored (an empty name is falsy). *)
Definition getSpeakerLabel (speakerId : Z) (st : State) : string :=
  let fallback := "Spreker " +:+ pretty (speakerId + 1)%Z in
  match speakerNames st !! speakerId with
  | Some custom => if bool_decide (custom = EmptyString) then fallback else custom
  | None => fallback
  end.

(** ** The spectral centroid *)

(** A magnitude of the byte frequency data as a number. *)
Definition magnitudeOf (b : Byte.byte) : Q := inject_Z (Z.of_N (Byte.to_N b)).

(** The [for] loop of [calculateSpectralCentroid], from index [i] on. *)
Fixpoint centroidLoop (binWidth : Q) (i : nat) (freqData : list Byte.byte)
    (weightedSum totalWeight : Q) : Q * Q :=
  match freqData with
  | [] => (weightedSum, totalWeight)
  | b :: rest =>
      let magnitude := magnitudeOf b in
      let frequency := (inject_Z (Z.of_nat i) * binWidth)%Q in
      centroidLoop binWidth (S i) rest
        (weightedSum + magnitude * frequency)%Q (totalWeight + magnitude)%Q
  end.

(** [calculateSpectralCentroid]; [analyser] is the byte frequency data that
    the analyser delivers and [audioContext] the sample rate, each absent
    when the object is. *)
Definition calculateSpectralCentroid (analyser : option (list Byte.byte))
    (audioContext : option Q) : Q :=
  match analyser, audioContext with
  | Some freqData, Some sampleRate =>
      let nyquist := (sampleRate / 2)%Q in
      let binWidth := (nyquist / Qlength freqData)%Q in
      let sums := centroidLoop binWidth 0 freqData 0 0 in
      let weightedSum := sums.1 in
      let totalWeight := sums.2 in
      if Qgtb totalWeight 0 then (weightedSum / totalWeight)%Q else 0%Q
  | _, _ => 0%Q
  end.

(** ** The transcript history *)

Definition MAX_HISTORY : nat := 50.

(** An entry of the history; [date] is the instant whose ISO string the
    code stores. *)
Record Transcript := {
  transcriptId : Z;
  date : Z;
  mode : string;
  text : string;
  paragraphs : nat;
  duration : Z
}.

(** [getTranscripts]; the argument is the item stored under [STORAGE_KEY]. *)
Definition getTranscripts (stored : option (list Transcript)) : list Transcript :=
  match stored with
  | Some transcripts => transcripts
  | None => []
  end.

(** [saveTranscript]: the entry goes to the front, then the last entry is
    popped for as long as there are more than [MAX_HISTORY]. *)
Definition saveTranscript (entry : Transcript) (stored : option (list Transcript))
  : option (list Transcript) :=
  let transcripts := entry :: getTranscripts stored in
  Some (Nat.iter (length transcripts - MAX_HISTORY) (@removelast Transcript) transcripts).

Definition deleteTranscript (id : Z) (stored : option (list Transcript))
  : option (list Transcript) :=
  Some (List.filter (λ t, negb (transcriptId t =? id)%Z) (getTranscripts stored)).

(** [clearHistory], once confirmed. *)
Definition clearHistory (stored : option (list Transcript)) : option (list Transcript) :=
  None.

(** One entry of [state.sessionParagraphs]. *)
Record Paragraph := {
  paragraphText : string;
  confidence : Q;
  time : Z;
  paragraphSpeaker : Z
}.

(** The fields of [state] that [finalizeSession] reads and writes, with the
    stored history. *)
Record Session := {
  sessionParagraphs : list Paragraph;
  sessionStartTime : option Z;
  autoSave : bool;
  currentMode : string;
  history : option (list Transcript)
}.

(** [Math.round] of a number of milliseconds divided by 1000. *)
Definition roundSeconds (ms : Z) : Z := ((ms + 500) / 1000)%Z.

(** [finalizeSession]; [now] is the value of [Date.now()], the clock being
    read as one instant during the call. *)
Definition finalizeSession (now : Z) (s : Session) : Session :=
  if (length (sessionParagraphs s) =? 0)%nat then s
  else if negb (autoSave s) then s
  else
    let fullText :=
      String.concat (String (Ascii.ascii_of_nat 10) EmptyString) (map paragraphText (sessionParagraphs s)) in
    let entry :=
      {| transcriptId := now;
         date := match sessionStartTime s with Some t => t | None => now end;
         mode := currentMode s;
         text := fullText;
         paragraphs := length (sessionParagraphs s);
         duration := match sessionStartTime s with
                     | Some t => roundSeconds (now - t)
                     | None => 0%Z
                     end |} in
    {| sessionParagraphs := [];
       sessionStartTime := None;
       autoSave := autoSave s;
       currentMode := currentMode s;
       history := saveTranscript entry (history s) |}.

(** ** Pitch estimation *)

(** [x < y] on JavaScript numbers. *)
Definition Qltb (x y : Q) : bool := negb (Qle_bool y x).

Section EstimatePitch.

(** [Math.sqrt].  The square root of a rational is not rational in general,
    so the function is a parameter of the model; what is proved below holds
    for every function in its place. *)
Variable sqrt : Q → Q.

(** [buffer[i]].  A sample rate is positive, so the periods are not negative
    and every read of [estimatePitch] is inside the buffer. *)
Definition bufferAt (buffer : list Q) (i : Z) : Q := nth (Z.to_nat i) buffer 0%Q.

(** The inner [for] loop: the three sums over [i = 0 .. len - 1]. *)
Definition correlationSums (buffer : list Q) (period len : Z) : Q * Q * Q :=
  fold_left
    (λ '(correlation, norm1, norm2) i,
       ((correlation + bufferAt buffer i * bufferAt buffer (i + period))%Q,
        (norm1 + bufferAt buffer i * bufferAt buffer i)%Q,
        (norm2 + bufferAt buffer (i + period) * bufferAt buffer (i + period))%Q))
    (map Z.of_nat (seq 0 (Z.to_nat len))) (0%Q, 0%Q, 0%Q).

(** The body of the outer loop for one period; [best] is
    [(bestCorrelation, bestPeriod)]. *)
Definition periodStep (buffer : list Q) (bufferLength period : Z) (best : Q * Z)
  : Q * Z :=
  let len := (bufferLength - period)%Z in
  let '(correlation, norm1, norm2) := correlationSums buffer period len in
  let normFactor := sqrt (norm1 * norm2) in
  let correlation :=
    if Qgtb normFactor 0 then (correlation / normFactor)%Q else correlation in
  if Qgtb correlation best.1 && Qgtb correlation 0.5 then (correlation, period)
  else best.

(** The outer [for] loop from [period] on; [None] when the fuel runs out
    before the loop condition fails. *)
Fixpoint periodLoop (fuel : nat) (buffer : list Q) (bufferLength maxPeriod period : Z)
    (best : Q * Z) : option (Q * Z) :=
  let continue := ((period <=? maxPeriod) && (2 * period <? bufferLength))%Z in
  match fuel with
  | O => if continue then None else Some best
  | S fuel' =>
      if continue then
        periodLoop fuel' buffer bufferLength maxPeriod (period + 1)%Z
          (periodStep buffer bufferLength period best)
      else Some best
  end.

(** [estimatePitch]; [pitchAnalyser] is the time-domain data that the
    analyser delivers ([fftSize] samples) and [audioContext] the sample
    rate, each absent when the object is.  The loop gets one unit of fuel
    for every period from [minPeriod] to [maxPeriod]. *)
Definition estimatePitch (pitchAnalyser : option (list Q)) (audioContext : option Q)
  : option Q :=
  match pitchAnalyser, audioContext with
  | Some buffer, Some sampleRate =>
      let bufferLength := Z.of_nat (length buffer) in
      let rms := fold_left (λ rms x, (rms + x * x)%Q) buffer 0%Q in
      let rms := sqrt (rms / inject_Z bufferLength) in
      if Qltb rms 0.01 then Some 0%Q
      else
        let minPeriod := Qfloor (sampleRate / 500) in
        let maxPeriod := Qfloor (sampleRate / 60) in
        match periodLoop (Z.to_nat (maxPeriod - minPeriod + 1)) buffer bufferLength
                maxPeriod minPeriod (0%Q, 0%Z) with
        | Some best =>
            let bestPeriod := best.2 in
            Some (if (0 <? bestPeriod)%Z then (sampleRate / inject_Z bestPeriod)%Q
                  else 0%Q)
        | None => None
        end
  | _, _ => Some 0%Q
  end.

End EstimatePitch.

(** [collectVoiceSample] together with its two measurements:
    [estimatePitch] on the data of the pitch analyser and
    [calculateSpectralCentroid] on the data of the analyser. *)
Definition collectVoiceSampleFrom (sqrt : Q → Q) (pitchAnalyser : option (list Q))
    (analyser : option (list Byte.byte)) (audioContext : option Q) (st : State)
  : option State :=
  match estimatePitch sqrt pitchAnalyser audioContext with
  | Some pitch =>
      let centroid := calculateSpectralCentroid analyser audioContext in
      Some (collectVoiceSample pitch centroid st)
  | None => None
  end.

(** ** The volume meter *)

(** The width of the volume bar in [updateVolumeMeter], in percent;
    [Math.round x] is the floor of [x + 1/2]. *)
Definition volumeOf (dataArray : list Byte.byte) : Z :=
  let avg :=
    (reduce (λ sum val, sum + magnitudeOf val) 0 dataArray / Qlength dataArray)%Q in
  Z.min 100 (Qfloor (avg / 128 * 100 + (1 # 2))%Q).

(** ** Signals for the examples *)

(** A square root that is exact on the squares of rationals: the integer
    square roots of the reduced numerator and denominator. *)
Definition sqrtOnSquares (x : Q) : Q :=
  let r := Qred x in
  (inject_Z (Z.sqrt (Qnum r)) / inject_Z (Z.sqrt (Zpos (Qden r))))%Q.

(** Eight samples of a square wave with a period of two samples. *)
Definition squareWave : list Q := [1; -1; 1; -1; 1; -1; 1; -1]%Q.

(** * Properties *)

(** ** Comparisons and arithmetic of numbers *)

Lemma Qgeb_true (x y : Q) : Qgeb x y = true ↔ (y <= x)%Q.
Proof. unfold Qgeb. apply Qle_bool_iff. Qed.

Lemma Qgeb_false (x y : Q) : Qgeb x y = false ↔ (x < y)%Q.
Proof.
  unfold Qgeb. split.
  - intros H. apply Qnot_le_lt. intros Hle. apply Qle_bool_iff in Hle. congruence.
  - intros H. destruct (Qle_bool y x) eqn:E; [|done].
    apply Qle_bool_iff in E. exfalso. apply (Qlt_not_le _ _ H E).
Qed.

Lemma Qgtb_true (x y : Q) : Qgtb x y = true ↔ (y < x)%Q.
Proof.
  unfold Qgtb. rewrite negb_true_iff. apply (Qgeb_false y x).
Qed.

Lemma Qgtb_false (x y : Q) : Qgtb x y = false ↔ (x <= y)%Q.
Proof.
  unfold Qgtb. rewrite negb_false_iff. apply Qle_bool_iff.
Qed.

(** Replaces the inverse of a numeral by its value, so that [lra] sees a
    product with a constant. *)
Ltac qconsts :=
  unfold Qdiv;
  repeat match goal with
  | |- context [Qinv (Qmake ?n ?d)] =>
      let v := eval vm_compute in (Qinv (Qmake n d)) in
      change (Qinv (Qmake n d)) with v
  end.

Section Threshold.
Local Open Scope Q_scope.

Lemma threshold_affine (cfg : Settings) :
  getSpeakerDifferThreshold cfg == 0.05 + (0.50 - 0.05) * (speakerSensitivity cfg / 100).
Proof. unfold getSpeakerDifferThreshold. field. Qed.

Lemma threshold_lt (c1 c2 : Settings) :
  speakerSensitivity c1 < speakerSensitivity c2 →
  getSpeakerDifferThreshold c1 < getSpeakerDifferThreshold c2.
Proof.
  intros H. unfold getSpeakerDifferThreshold. qconsts. lra.
Qed.
End Threshold.

Section Compare.
Local Open Scope Q_scope.

Lemma compare_formula (a b : Fingerprint) :
  compareFingerprints (Some a) (Some b) == Qmax 0 (1 - 3 * weighted_distance a b).
Proof.
  unfold compareFingerprints, weighted_distance.
  apply Q.max_compat; [reflexivity|]. field.
Qed.

Lemma weighted_distance_nonneg (a b : Fingerprint) : 0 <= weighted_distance a b.
Proof.
  unfold weighted_distance. qconsts.
  pose proof (Qabs_nonneg (pitchAvg a - pitchAvg b)).
  pose proof (Qabs_nonneg (centroidAvg a - centroidAvg b)).
  lra.
Qed.

Lemma weighted_distance_self (f : Fingerprint) : weighted_distance f f == 0.
Proof.
  unfold weighted_distance.
  assert (E : ∀ x : Q, Qabs (x - x) == 0).
  { intros x. setoid_replace (x - x) with 0 using relation Qeq by ring. reflexivity. }
  rewrite !E. field.
Qed.

Lemma compare_self (f : Fingerprint) : compareFingerprints (Some f) (Some f) == 1.
Proof.
  rewrite compare_formula, weighted_distance_self.
  reflexivity.
Qed.

Lemma compare_zero_iff (a b : Fingerprint) :
  compareFingerprints (Some a) (Some b) == 0 ↔ 1 / 3 <= weighted_distance a b.
Proof.
  rewrite compare_formula.
  set (d := weighted_distance a b).
  change (1 / 3) with (1 # 3).
  split.
  - intros H. destruct (Q.max_spec 0 (1 - 3 * d)) as [[H1 H2]|[H1 H2]]; lra.
  - intros H. rewrite Q.max_l by lra. reflexivity.
Qed.

Lemma compare_range (a b : option Fingerprint) :
  0 <= compareFingerprints a b <= 1.
Proof.
  destruct a as [a|], b as [b|]; try (simpl; lra).
  pose proof (compare_formula a b) as E.
  pose proof (weighted_distance_nonneg a b).
  destruct (Q.max_spec 0 (1 - 3 * weighted_distance a b)) as [[H1 H2]|[H1 H2]]; lra.
Qed.
End Compare.

Section Build.
Local Open Scope Q_scope.

Lemma reduce_add_Qsum (l : list Q) (acc : Q) :
  reduce (λ a b, a + b) acc l == acc + Qsum l.
Proof.
  unfold reduce. revert acc.
  induction l as [|x l IH]; intros acc; simpl; [ring|].
  rewrite IH. ring.
Qed.

Lemma reduce_squares_Qsum (m : Q) (l : list Q) (acc : Q) :
  reduce (λ sum p, sum + (p - m) ^ 2) acc l
  == acc + Qsum (map (λ x, (x - m) * (x - m)) l).
Proof.
  unfold reduce. revert acc.
  induction l as [|x l IH]; intros acc; simpl fold_left; simpl map; simpl Qsum; [ring|].
  rewrite IH. simpl. ring.
Qed.

Lemma Qsum_squares_proper (m m' : Q) (l : list Q) :
  m == m' →
  Qsum (map (λ x, (x - m) * (x - m)) l) == Qsum (map (λ x, (x - m') * (x - m')) l).
Proof.
  intros E. induction l as [|x l IH]; simpl; [reflexivity|].
  rewrite IH, E. reflexivity.
Qed.

Lemma mean_correct (l : list Q) :
  reduce (λ a b, a + b) 0 l / Qlength l == arithmetic_mean l.
Proof.
  unfold arithmetic_mean. rewrite reduce_add_Qsum.
  setoid_replace (0 + Qsum l) with (Qsum l) using relation Qeq by ring.
  reflexivity.
Qed.

Lemma variance_correct (l : list Q) :
  let avg := reduce (λ a b, a + b) 0 l / Qlength l in
  reduce (λ sum p, sum + (p - avg) ^ 2) 0 l / Qlength l == population_variance l.
Proof.
  intros avg. unfold population_variance.
  rewrite reduce_squares_Qsum.
  rewrite (Qsum_squares_proper avg (arithmetic_mean l)) by apply mean_correct.
  setoid_replace (0 + Qsum (map (λ x, (x - arithmetic_mean l) * (x - arithmetic_mean l)) l))
    with (Qsum (map (λ x, (x - arithmetic_mean l) * (x - arithmetic_mean l)) l))
    using relation Qeq by ring.
  reflexivity.
Qed.
End Build.

Section Ewma.
Local Open Scope Q_scope.

Lemma learningRate_range (existing : SpeakerProfile) :
  0 < learningRate existing ∧ learningRate existing <= 0.3.
Proof.
  unfold learningRate.
  set (x := inject_Z (Z.of_nat (sampleCount existing)) + 1).
  assert (Hx : 0 < x).
  { assert (0 <= inject_Z (Z.of_nat (sampleCount existing))).
    { unfold Qle. simpl. lia. }
    unfold x. lra. }
  assert (Hinv : 0 < 1 / x).
  { unfold Qdiv. rewrite Qmult_1_l. by apply Qinv_lt_0_compat. }
  destruct (Q.min_spec 0.3 (1 / x)) as [[H1 H2]|[H1 H2]]; split; lra.
Qed.

Lemma convex_between (alpha old new : Q) :
  0 < alpha → alpha < 1 →
  Qmin old new <= old * (1 - alpha) + new * alpha
  ∧ old * (1 - alpha) + new * alpha <= Qmax old new.
Proof.
  intros H0 H1.
  destruct (Q.min_spec old new) as [[Hm1 Hm2]|[Hm1 Hm2]];
  destruct (Q.max_spec old new) as [[HM1 HM2]|[HM1 HM2]];
  rewrite Hm2, HM2; split; nra.
Qed.

Lemma convex_nonneg (alpha old new : Q) :
  0 < alpha → alpha < 1 → 0 <= old → 0 <= new →
  0 <= old * (1 - alpha) + new * alpha.
Proof. intros. nra. Qed.
End Ewma.

Lemma updateSpeakerProfile_profiles_existing (speakerId : Z) (fp : Fingerprint)
    (existing : SpeakerProfile) (st : State) :
  speakerProfiles st !! speakerId = Some existing →
  speakerProfiles (updateSpeakerProfile speakerId (Some fp) st)
  = <[speakerId :=
        {| print :=
             {| pitchAvg := (pitchAvg (print existing) * (1 - learningRate existing)
                             + pitchAvg fp * learningRate existing)%Q;
                pitchVar := (pitchVar (print existing) * (1 - learningRate existing)
                             + pitchVar fp * learningRate existing)%Q;
                centroidAvg := (centroidAvg (print existing) * (1 - learningRate existing)
                                + centroidAvg fp * learningRate existing)%Q;
                centroidVar := (centroidVar (print existing) * (1 - learningRate existing)
                                + centroidVar fp * learningRate existing)%Q |};
           sampleCount := S (sampleCount existing) |}]> (speakerProfiles st).
Proof.
  intros H. unfold updateSpeakerProfile. rewrite H. cbv zeta.
  match goal with |- context [if ?b then _ else _] => destruct b end; reflexivity.
Qed.

Lemma updateSpeakerProfile_profiles_new (speakerId : Z) (fp : Fingerprint) (st : State) :
  speakerProfiles st !! speakerId = None →
  speakerProfiles (updateSpeakerProfile speakerId (Some fp) st)
  = <[speakerId := {| print := fp; sampleCount := 1 |}]> (speakerProfiles st).
Proof. intros H. unfold updateSpeakerProfile. rewrite H. reflexivity. Qed.

Lemma updateSpeakerProfile_other (speakerId other : Z) (fp : option Fingerprint)
    (st : State) :
  other ≠ speakerId →
  speakerProfiles (updateSpeakerProfile speakerId fp st) !! other
  = speakerProfiles st !! other.
Proof.
  intros Hne. destruct fp as [fp|]; [|done].
  destruct (speakerProfiles st !! speakerId) as [existing|] eqn:E.
  - rewrite (updateSpeakerProfile_profiles_existing _ _ _ _ E).
    by apply lookup_insert_ne.
  - rewrite (updateSpeakerProfile_profiles_new _ _ _ E).
    by apply lookup_insert_ne.
Qed.

(** ** What each function leaves unchanged *)

Lemma Object_entries_elem {V : Type} (m : gmap Z V) (k : Z) (v : V) :
  (k, v) ∈ Object_entries m ↔ m !! k = Some v.
Proof.
  unfold Object_entries. rewrite merge_sort_Permutation.
  apply elem_of_map_to_list.
Qed.

Lemma updateSpeakerProfile_frame (id : Z) (fp : option Fingerprint) (st : State) :
  let st' := updateSpeakerProfile id fp st in
  recognition st' = recognition st
  ∧ currentSpeakerId st' = currentSpeakerId st
  ∧ speakerColorMap st' = speakerColorMap st
  ∧ nextColorIndex st' = nextColorIndex st
  ∧ lastSpeechTime st' = lastSpeechTime st
  ∧ speakerCount st' = speakerCount st
  ∧ voiceSampleBuffer st' = voiceSampleBuffer st
  ∧ voiceSampleTimer st' = voiceSampleTimer st
  ∧ speakerNames st' = speakerNames st
  ∧ pendingAnalysis st' = pendingAnalysis st
  ∧ settings st' = settings st.
Proof.
  unfold updateSpeakerProfile.
  destruct fp as [fp|]; [|done].
  destruct (speakerProfiles st !! id) as [existing|]; [|done].
  cbv zeta. case_match; done.
Qed.

Lemma onSilenceGap_gap (now : Z) (st : State) :
  (silenceGap now st > SPEAKER_ANALYSIS_THRESHOLD)%Z →
  onSilenceGap now st
  = set_pendingAnalysis true
      (startVoiceSampling
         (updateSpeakerProfile (currentSpeakerId st)
            (buildFingerprint (voiceSampleBuffer st)) st)).
Proof.
  intros H. unfold onSilenceGap.
  destruct (Z.gtb_spec (silenceGap now st) SPEAKER_ANALYSIS_THRESHOLD); [done|lia].
Qed.

Lemma onSilenceGap_no_gap (now : Z) (st : State) :
  (silenceGap now st ≤ SPEAKER_ANALYSIS_THRESHOLD)%Z →
  onSilenceGap now st = st.
Proof.
  intros H. unfold onSilenceGap.
  destruct (Z.gtb_spec (silenceGap now st) SPEAKER_ANALYSIS_THRESHOLD); [lia|done].
Qed.

Lemma startVoiceSampling_frame (st : State) :
  let st' := startVoiceSampling st in
  recognition st' = recognition st
  ∧ currentSpeakerId st' = currentSpeakerId st
  ∧ speakerColorMap st' = speakerColorMap st
  ∧ nextColorIndex st' = nextColorIndex st
  ∧ lastSpeechTime st' = lastSpeechTime st
  ∧ speakerCount st' = speakerCount st
  ∧ speakerProfiles st' = speakerProfiles st
  ∧ voiceSampleBuffer st' = []
  ∧ voiceSampleTimer st' = true
  ∧ speakerNames st' = speakerNames st
  ∧ pendingAnalysis st' = pendingAnalysis st
  ∧ settings st' = settings st
  ∧ localStorage st' = localStorage st.
Proof. unfold startVoiceSampling, stopVoiceSampling. by destruct (voiceSampleTimer st). Qed.

Lemma onSilenceGap_frame (now : Z) (st : State) :
  let st' := onSilenceGap now st in
  recognition st' = recognition st
  ∧ currentSpeakerId st' = currentSpeakerId st
  ∧ speakerColorMap st' = speakerColorMap st
  ∧ nextColorIndex st' = nextColorIndex st
  ∧ lastSpeechTime st' = lastSpeechTime st
  ∧ speakerCount st' = speakerCount st
  ∧ speakerNames st' = speakerNames st
  ∧ settings st' = settings st.
Proof.
  cbv zeta.
  destruct (Z.le_gt_cases (silenceGap now st) SPEAKER_ANALYSIS_THRESHOLD) as [H|H].
  - by rewrite onSilenceGap_no_gap.
  - rewrite onSilenceGap_gap by lia.
    pose proof (updateSpeakerProfile_frame (currentSpeakerId st)
                  (buildFingerprint (voiceSampleBuffer st)) st) as F.
    pose proof (startVoiceSampling_frame
                  (updateSpeakerProfile (currentSpeakerId st)
                     (buildFingerprint (voiceSampleBuffer st)) st)) as G.
    cbv zeta in F, G. destruct_and!. unfold set_pendingAnalysis.
    cbn [recognition currentSpeakerId speakerColorMap nextColorIndex lastSpeechTime
         speakerCount speakerNames settings].
    repeat split; congruence.
Qed.

Lemma onSilenceGap_gap_buffer (now : Z) (st : State) :
  (silenceGap now st > SPEAKER_ANALYSIS_THRESHOLD)%Z →
  voiceSampleBuffer (onSilenceGap now st) = []
  ∧ pendingAnalysis (onSilenceGap now st) = true.
Proof.
  intros H. rewrite onSilenceGap_gap by done. by simpl.
Qed.

Lemma onSilenceGap_enough_samples (now : Z) (st : State) :
  (VOICE_PROFILE_MIN_SAMPLES ≤ length (voiceSampleBuffer (onSilenceGap now st)))%nat →
  onSilenceGap now st = st.
Proof.
  intros H.
  destruct (Z.le_gt_cases (silenceGap now st) SPEAKER_ANALYSIS_THRESHOLD) as [Hg|Hg].
  - by apply onSilenceGap_no_gap.
  - destruct (onSilenceGap_gap_buffer now st) as [Hb _]; [lia|].
    rewrite Hb in H. unfold VOICE_PROFILE_MIN_SAMPLES in H. simpl in H. lia.
Qed.

Lemma analyseVoice_frame (st : State) :
  let st' := analyseVoice st in
  recognition st' = recognition st
  ∧ speakerColorMap st' = speakerColorMap st
  ∧ nextColorIndex st' = nextColorIndex st
  ∧ lastSpeechTime st' = lastSpeechTime st
  ∧ speakerProfiles st' = speakerProfiles st
  ∧ voiceSampleBuffer st' = voiceSampleBuffer st
  ∧ voiceSampleTimer st' = voiceSampleTimer st
  ∧ speakerNames st' = speakerNames st
  ∧ settings st' = settings st
  ∧ localStorage st' = localStorage st.
Proof.
  unfold analyseVoice. cbv zeta. repeat case_match; done.
Qed.

Lemma getSpeakerColor_frame (id : Z) (st : State) :
  let st' := (getSpeakerColor id st).2 in
  recognition st' = recognition st
  ∧ currentSpeakerId st' = currentSpeakerId st
  ∧ lastSpeechTime st' = lastSpeechTime st
  ∧ speakerCount st' = speakerCount st
  ∧ speakerProfiles st' = speakerProfiles st
  ∧ voiceSampleBuffer st' = voiceSampleBuffer st
  ∧ voiceSampleTimer st' = voiceSampleTimer st
  ∧ speakerNames st' = speakerNames st
  ∧ pendingAnalysis st' = pendingAnalysis st
  ∧ settings st' = settings st
  ∧ localStorage st' = localStorage st.
Proof.
  unfold getSpeakerColor. cbv zeta. cbn [snd]. case_match; done.
Qed.

Lemma handleResults_id (now : Z) (st : State) :
  (handleResults now st).1.1 = (detectSpeakerChange now st).1.
Proof. reflexivity. Qed.

Lemma handleResults_state (now : Z) (st : State) :
  (handleResults now st).2
  = (getSpeakerColor (detectSpeakerChange now st).1 (detectSpeakerChange now st).2).2.
Proof. reflexivity. Qed.

Lemma collectVoiceSample_frame (p c : Q) (st : State) :
  let st' := collectVoiceSample p c st in
  recognition st' = recognition st
  ∧ currentSpeakerId st' = currentSpeakerId st
  ∧ speakerColorMap st' = speakerColorMap st
  ∧ nextColorIndex st' = nextColorIndex st
  ∧ speakerCount st' = speakerCount st
  ∧ speakerProfiles st' = speakerProfiles st
  ∧ settings st' = settings st
  ∧ localStorage st' = localStorage st
  ∧ (length (voiceSampleBuffer st') ≤ S (length (voiceSampleBuffer st)))%nat.
Proof.
  unfold collectVoiceSample. cbv zeta. case_match; simpl; repeat split; try lia.
  rewrite length_app. simpl. lia.
Qed.

(** ** The search for the best other profile *)

Lemma fold_matchStep_spec (fpn : Fingerprint) (cur : Z)
    (entries : list (Z * SpeakerProfile)) (best0 : Z * Q) :
  let best := fold_left (matchStep fpn cur) entries best0 in
  (best0.2 <= best.2)%Q
  ∧ (∀ e, e ∈ entries → e.1 ≠ cur → (similarityTo fpn e.2 <= best.2)%Q)
  ∧ (best = best0
     ∨ ∃ e, e ∈ entries ∧ e.1 ≠ cur ∧ best = (e.1, similarityTo fpn e.2)
            ∧ (best0.2 < similarityTo fpn e.2)%Q).
Proof.
  revert best0. induction entries as [|e entries IH]; intros best0; cbv zeta.
  - simpl. split; [lra|]. split; [|by left].
    intros e He. by apply elem_of_nil in He.
  - simpl fold_left.
    specialize (IH (matchStep fpn cur best0 e)). cbv zeta in IH.
    destruct IH as (IH1 & IH2 & IH3).
    set (best := fold_left (matchStep fpn cur) entries (matchStep fpn cur best0 e)) in *.
    unfold matchStep in IH1, IH3.
    fold (similarityTo fpn e.2) in IH1, IH3.
    destruct (Z.eqb_spec e.1 cur) as [Heq|Hne].
    + split; [done|]. split.
      * intros e' He' Hne'. apply elem_of_cons in He' as [->|He']; [done|].
        by apply IH2.
      * destruct IH3 as [IH3|(e' & He' & Hne' & Hb & Hlt)]; [by left|].
        right. exists e'. split; [by apply elem_of_cons; right|done].
    + destruct (Qgtb (similarityTo fpn e.2) best0.2) eqn:Hgt.
      * apply Qgtb_true in Hgt. simpl in IH1, IH3.
        split; [lra|]. split.
        -- intros e' He' Hne'. apply elem_of_cons in He' as [->|He']; [done|].
           by apply IH2.
        -- right. destruct IH3 as [IH3|(e' & He' & Hne' & Hb & Hlt)].
           ++ exists e. split; [by apply elem_of_cons; left|done].
           ++ exists e'. split; [by apply elem_of_cons; right|].
              repeat split; [done|done|lra].
      * apply Qgtb_false in Hgt.
        split; [done|]. split.
        -- intros e' He' Hne'. apply elem_of_cons in He' as [->|He']; [lra|].
           by apply IH2.
        -- destruct IH3 as [IH3|(e' & He' & Hne' & Hb & Hlt)]; [by left|].
           right. exists e'. split; [by apply elem_of_cons; right|done].
Qed.

Lemma findBestMatch_spec (fpn : Fingerprint) (st : State) :
  let best := findBestMatch fpn st in
  let cur := currentSpeakerId st in
  (0 <= best.2)%Q
  ∧ (∀ id p, id ≠ cur → speakerProfiles st !! id = Some p →
             (similarityTo fpn p <= best.2)%Q)
  ∧ (best = ((-1)%Z, 0%Q)
     ∨ ∃ p, best.1 ≠ cur ∧ speakerProfiles st !! best.1 = Some p
            ∧ best.2 = similarityTo fpn p ∧ (0 < best.2)%Q).
Proof.
  cbv zeta. unfold findBestMatch.
  pose proof (fold_matchStep_spec fpn (currentSpeakerId st)
                (Object_entries (speakerProfiles st)) ((-1)%Z, 0%Q)) as H.
  cbv zeta in H. destruct H as (H1 & H2 & H3).
  split; [exact H1|]. split.
  - intros id p Hne Hp.
    apply (H2 (id, p)); [|done]. by apply Object_entries_elem.
  - destruct H3 as [H3|([id p] & He & Hne & Hb & Hlt)]; [by left|].
    right. exists p. rewrite Hb. simpl in *.
    apply Object_entries_elem in He. done.
Qed.

(** ** The pending analysis *)

Lemma buildFingerprintN_none_iff (minSamples : nat) (samples : list VoiceSample) :
  buildFingerprintN minSamples samples = None ↔ (length samples < minSamples)%nat.
Proof.
  unfold buildFingerprintN.
  destruct (Nat.ltb_spec (length samples) minSamples); split; (done || lia).
Qed.

Lemma buildFingerprint_enough (samples : list VoiceSample) :
  (VOICE_PROFILE_MIN_SAMPLES ≤ length samples)%nat →
  ∃ fp, buildFingerprint samples = Some fp.
Proof.
  intros H. destruct (buildFingerprint samples) as [fp|] eqn:E; [by exists fp|].
  apply buildFingerprintN_none_iff in E. lia.
Qed.

Lemma analyseVoice_idle (st : State) :
  pendingAnalysis st = false
  ∨ (length (voiceSampleBuffer st) < VOICE_PROFILE_MIN_SAMPLES)%nat →
  analyseVoice st = st.
Proof.
  intros H. unfold analyseVoice.
  destruct H as [->|H]; [done|].
  destruct (Nat.leb_spec VOICE_PROFILE_MIN_SAMPLES (length (voiceSampleBuffer st)));
    [lia|]. by rewrite andb_false_r.
Qed.

Lemma analyseVoice_stay (st : State) (fpn : Fingerprint) :
  pendingAnalysis st = true →
  buildFingerprint (voiceSampleBuffer st) = Some fpn →
  (getSpeakerDifferThreshold (settings st) <= currentSimilarityOf fpn st)%Q →
  analyseVoice st = set_pendingAnalysis false st.
Proof.
  intros Hp Hb Hs. unfold analyseVoice. rewrite Hp, Hb.
  destruct (Nat.leb_spec VOICE_PROFILE_MIN_SAMPLES (length (voiceSampleBuffer st))) as [_|Hl].
  2: { assert (buildFingerprint (voiceSampleBuffer st) = None) as E
         by (by apply buildFingerprintN_none_iff). congruence. }
  cbv zeta. simpl andb. cbv iota.
  fold (currentSimilarityOf fpn st) in Hs.
  unfold currentSimilarityOf, similarityTo in Hs.
  apply Qgeb_true in Hs. by rewrite Hs.
Qed.

Lemma analyseVoice_differ (st : State) (fpn : Fingerprint) :
  pendingAnalysis st = true →
  buildFingerprint (voiceSampleBuffer st) = Some fpn →
  (currentSimilarityOf fpn st < getSpeakerDifferThreshold (settings st))%Q →
  analyseVoice st
  = set_pendingAnalysis false
      (if (0 <=? (findBestMatch fpn st).1)%Z
          && Qgeb (findBestMatch fpn st).2 (getSpeakerDifferThreshold (settings st))
       then set_currentSpeakerId (findBestMatch fpn st).1 st
       else set_speakerCount (speakerCount st + 1)
              (set_currentSpeakerId (speakerCount st) st)).
Proof.
  intros Hp Hb Hs. unfold analyseVoice. rewrite Hp, Hb.
  destruct (Nat.leb_spec VOICE_PROFILE_MIN_SAMPLES (length (voiceSampleBuffer st))) as [_|Hl].
  2: { assert (buildFingerprint (voiceSampleBuffer st) = None) as E
         by (by apply buildFingerprintN_none_iff). congruence. }
  cbv zeta. simpl andb. cbv iota.
  unfold currentSimilarityOf, similarityTo in Hs.
  apply Qgeb_false in Hs. by rewrite Hs.
Qed.

Lemma currentSimilarityOf_range (fpn : Fingerprint) (st : State) :
  (0 <= currentSimilarityOf fpn st <= 1)%Q.
Proof.
  unfold currentSimilarityOf, similarityTo.
  destruct (speakerProfiles st !! currentSpeakerId st); [apply compare_range|lra].
Qed.

Lemma threshold_range (cfg : Settings) :
  (0 <= speakerSensitivity cfg <= 100)%Q →
  (0.05 <= getSpeakerDifferThreshold cfg <= 0.50)%Q.
Proof. intros H. unfold getSpeakerDifferThreshold. qconsts. lra. Qed.

(** With enough evidence for another stored speaker the analysis switches
    to a best-scoring one. *)
Lemma analyseVoice_switch (st : State) (fpn : Fingerprint) :
  pendingAnalysis st = true →
  buildFingerprint (voiceSampleBuffer st) = Some fpn →
  (∀ id p, speakerProfiles st !! id = Some p → (0 ≤ id)%Z) →
  (currentSimilarityOf fpn st < getSpeakerDifferThreshold (settings st))%Q →
  (∃ id p, id ≠ currentSpeakerId st ∧ speakerProfiles st !! id = Some p
           ∧ (getSpeakerDifferThreshold (settings st) <= similarityTo fpn p)%Q) →
  ∃ best pb,
    best ≠ currentSpeakerId st ∧ speakerProfiles st !! best = Some pb
    ∧ (∀ id p, id ≠ currentSpeakerId st → speakerProfiles st !! id = Some p →
               (similarityTo fpn p <= similarityTo fpn pb)%Q)
    ∧ (getSpeakerDifferThreshold (settings st) <= similarityTo fpn pb)%Q
    ∧ analyseVoice st = set_pendingAnalysis false (set_currentSpeakerId best st).
Proof.
  intros Hp Hb Hids Hs (id & p & Hne & Hlk & Hthr).
  rewrite (analyseVoice_differ st fpn Hp Hb Hs).
  destruct (findBestMatch_spec fpn st) as (H0 & Hmax & Hbest). cbv zeta in *.
  pose proof (currentSimilarityOf_range fpn st) as Hr.
  pose proof (Hmax id p Hne Hlk) as Hle.
  destruct Hbest as [Hbest|(pb & Hbne & Hblk & Hbs & Hpos)].
  { rewrite Hbest in Hle. simpl in Hle. lra. }
  exists (findBestMatch fpn st).1, pb.
  split; [done|]. split; [done|]. split.
  { intros id' p' Hne' Hlk'. rewrite <- Hbs. apply (Hmax id' p' Hne' Hlk'). }
  split; [rewrite <- Hbs; lra|].
  assert ((0 <=? (findBestMatch fpn st).1)%Z = true) as ->.
  { apply Z.leb_le. by apply (Hids _ _ Hblk). }
  assert (Qgeb (findBestMatch fpn st).2 (getSpeakerDifferThreshold (settings st)) = true) as ->.
  { apply Qgeb_true. lra. }
  done.
Qed.

(** Without such evidence it mints the id [speakerCount]. *)
Lemma analyseVoice_mint (st : State) (fpn : Fingerprint) :
  pendingAnalysis st = true →
  buildFingerprint (voiceSampleBuffer st) = Some fpn →
  (currentSimilarityOf fpn st < getSpeakerDifferThreshold (settings st))%Q →
  (∀ id p, id ≠ currentSpeakerId st → speakerProfiles st !! id = Some p →
           (similarityTo fpn p < getSpeakerDifferThreshold (settings st))%Q) →
  analyseVoice st
  = set_pendingAnalysis false
      (set_speakerCount (speakerCount st + 1)
         (set_currentSpeakerId (speakerCount st) st)).
Proof.
  intros Hp Hb Hs Hall.
  rewrite (analyseVoice_differ st fpn Hp Hb Hs).
  destruct (findBestMatch_spec fpn st) as (H0 & Hmax & Hbest). cbv zeta in *.
  destruct Hbest as [Hbest|(pb & Hbne & Hblk & Hbs & Hpos)].
  { by rewrite Hbest. }
  assert (Qgeb (findBestMatch fpn st).2 (getSpeakerDifferThreshold (settings st)) = false) as ->.
  { apply Qgeb_false. rewrite Hbs. by apply (Hall _ _ Hbne Hblk). }
  by rewrite andb_false_r.
Qed.

(** ** The sensitivity setting *)

(** Closed comparisons of numbers. *)
Ltac qclosed := vm_compute; first [reflexivity | discriminate].

(** C3, as the code has it: the threshold is
    [0.05 + (sensitivity / 100) * 0.45], an affine map of the sensitivity
    onto the range from 0.05 to 0.50, and it is strictly INCREASING: for
    sensitivities [s1 < s2] in [0, 100] the threshold of [s2] is strictly
    higher than that of [s1] (a higher threshold lets the current speaker
    fail the comparison more easily, so switches get easier). *)
Theorem differ_threshold_rises_with_sensitivity :
  (∀ s1 s2 : Q, (0 <= s1)%Q → (s1 < s2)%Q → (s2 <= 100)%Q →
     (getSpeakerDifferThreshold {| speakerSensitivity := s1 |}
      < getSpeakerDifferThreshold {| speakerSensitivity := s2 |})%Q)
  ∧ (∀ s : Q,
       (getSpeakerDifferThreshold {| speakerSensitivity := s |}
        == 0.05 + (0.50 - 0.05) * (s / 100))%Q)
  ∧ (getSpeakerDifferThreshold {| speakerSensitivity := 0 |} == 0.05)%Q
  ∧ (getSpeakerDifferThreshold {| speakerSensitivity := 100 |} == 0.50)%Q
  ∧ (∀ s : Q, (0 <= s)%Q → (s <= 100)%Q →
       (0.05 <= getSpeakerDifferThreshold {| speakerSensitivity := s |})%Q
       ∧ (getSpeakerDifferThreshold {| speakerSensitivity := s |} <= 0.50)%Q)
  ∧ (∀ t : Q, (0.05 <= t)%Q → (t <= 0.50)%Q →
       ∃ s : Q, (0 <= s)%Q ∧ (s <= 100)%Q
                ∧ (getSpeakerDifferThreshold {| speakerSensitivity := s |} == t)%Q).
Proof.
  split; [|split; [|split; [|split; [|split]]]].
  - intros s1 s2 _ Hlt _. by apply threshold_lt.
  - intros s. apply threshold_affine.
  - reflexivity.
  - reflexivity.
  - intros s H0 H1. by apply threshold_range.
  - intros t H0 H1. exists ((t - 0.05) * (100 / 0.45))%Q.
    split; [|split].
    + qconsts. lra.
    + qconsts. lra.
    + unfold getSpeakerDifferThreshold. simpl speakerSensitivity. field.
Qed.

(** The theorem of C3 used at the default sensitivity 15 and at 50. *)
Lemma differ_threshold_rises_witness :
  (getSpeakerDifferThreshold {| speakerSensitivity := 15 |}
   < getSpeakerDifferThreshold {| speakerSensitivity := 50 |})%Q.
Proof.
  apply (proj1 differ_threshold_rises_with_sensitivity); qclosed.
Defined.

(** C3 as it is written fails: at [s1 = 0 < s2 = 100] the threshold of [s2]
    is 0.50, which is not lower than the 0.05 of [s1]. *)
Lemma differ_threshold_lowering_counterexample :
  (0 <= 0 < 100)%Q ∧ (100 <= 100)%Q
  ∧ (getSpeakerDifferThreshold {| speakerSensitivity := 0 |} == 0.05)%Q
  ∧ (getSpeakerDifferThreshold {| speakerSensitivity := 100 |} == 0.50)%Q
  ∧ ¬ (getSpeakerDifferThreshold {| speakerSensitivity := 100 |}
       < getSpeakerDifferThreshold {| speakerSensitivity := 0 |})%Q.
Proof.
  repeat split; try qclosed.
Qed.

(** ** The similarity score *)

(** C4: [compareFingerprints] is 0 when an argument is absent; otherwise it
    is [max(0, 1 - 3 * d)] for the weighted distance
    [d = 0.6 * |pitch difference| / 440 + 0.4 * |centroid difference| / 3800];
    so a fingerprint compared with itself scores 1, and the score is 0
    exactly when [d >= 1/3]. *)
Theorem compareFingerprints_spec :
  (∀ b, compareFingerprints None b = 0%Q)
  ∧ (∀ a, compareFingerprints a None = 0%Q)
  ∧ (∀ a b, (compareFingerprints (Some a) (Some b)
             == Qmax 0 (1 - 3 * (0.6 * (Qabs (pitchAvg a - pitchAvg b) / 440)
                                 + 0.4 * (Qabs (centroidAvg a - centroidAvg b) / 3800))))%Q)
  ∧ (∀ f, (compareFingerprints (Some f) (Some f) == 1)%Q)
  ∧ (∀ a b, (compareFingerprints (Some a) (Some b) == 0)%Q
            ↔ (1 / 3 <= weighted_distance a b)%Q).
Proof.
  split; [|split; [|split; [|split]]].
  - done.
  - by intros [a|].
  - intros a b. apply compare_formula.
  - apply compare_self.
  - apply compare_zero_iff.
Qed.

(** The last part of C4 used on two voices 100 Hz and 1000 Hz apart: their
    weighted distance is above 1/3, so they score 0. *)
Lemma compareFingerprints_zero_witness :
  (compareFingerprints
     (Some {| pitchAvg := 120; pitchVar := 0; centroidAvg := 800; centroidVar := 0 |})
     (Some {| pitchAvg := 400; pitchVar := 0; centroidAvg := 3600; centroidVar := 0 |})
   == 0)%Q.
Proof.
  apply (proj2 (proj2 (proj2 (proj2 compareFingerprints_spec)))). qclosed.
Defined.

(** ** Building a fingerprint *)

(** C6: for every minimum [minSamples], [buildFingerprint] answers "not
    enough data" exactly when there are fewer than [minSamples] samples;
    otherwise (on a non-empty array, where the divisions are by a positive
    length) the fingerprint holds the arithmetic means and the population
    variances of the pitch and centroid values. *)
Theorem buildFingerprint_spec (minSamples : nat) (samples : list VoiceSample) :
  (buildFingerprintN minSamples samples = None ↔ (length samples < minSamples)%nat)
  ∧ ((minSamples ≤ length samples)%nat → (0 < length samples)%nat →
     ∃ f, buildFingerprintN minSamples samples = Some f
          ∧ (pitchAvg f == arithmetic_mean (map pitch samples))%Q
          ∧ (centroidAvg f == arithmetic_mean (map centroid samples))%Q
          ∧ (pitchVar f == population_variance (map pitch samples))%Q
          ∧ (centroidVar f == population_variance (map centroid samples))%Q).
Proof.
  split; [apply buildFingerprintN_none_iff|].
  intros Hlen _. unfold buildFingerprintN.
  destruct (Nat.ltb_spec (length samples) minSamples); [lia|].
  eexists. split; [reflexivity|]. cbn [pitchAvg centroidAvg pitchVar centroidVar].
  split; [apply mean_correct|]. split; [apply mean_correct|].
  split; apply variance_correct.
Qed.

(** C6 used on five samples with the minimum 5 of the code. *)
Lemma buildFingerprint_witness :
  ∃ f, buildFingerprint
         [ {| pitch := 118; centroid := 790 |}; {| pitch := 120; centroid := 800 |};
           {| pitch := 122; centroid := 810 |}; {| pitch := 119; centroid := 805 |};
           {| pitch := 121; centroid := 795 |} ] = Some f
       ∧ (pitchAvg f == 120)%Q ∧ (pitchVar f == 2)%Q
       ∧ (centroidAvg f == 800)%Q ∧ (centroidVar f == 50)%Q.
Proof.
  destruct (proj2 (buildFingerprint_spec 5
              [ {| pitch := 118; centroid := 790 |}; {| pitch := 120; centroid := 800 |};
                {| pitch := 122; centroid := 810 |}; {| pitch := 119; centroid := 805 |};
                {| pitch := 121; centroid := 795 |} ]))
    as (f & Hf & Hpa & Hca & Hpv & Hcv); [simpl; lia | simpl; lia |].
  exists f. split; [exact Hf|].
  split; [|split; [|split]].
  - rewrite Hpa. reflexivity.
  - rewrite Hpv. reflexivity.
  - rewrite Hca. reflexivity.
  - rewrite Hcv. reflexivity.
Defined.

(** ** Updating a profile *)

(** C5: [updateSpeakerProfile] changes nothing when the fingerprint is
    absent; for an id without a profile it stores the fingerprint's four
    fields with [sampleCount = 1]; for an id with a profile it replaces
    each of the four fields by [old * (1 - alpha) + new * alpha] with the
    one [alpha = min(0.3, 1 / (sampleCount + 1))] and adds exactly 1 to
    [sampleCount]; the profiles of other ids are untouched. *)
Theorem updateSpeakerProfile_spec (speakerId : Z) (st : State) :
  updateSpeakerProfile speakerId None st = st
  ∧ (∀ fp, speakerProfiles st !! speakerId = None →
       speakerProfiles (updateSpeakerProfile speakerId (Some fp) st) !! speakerId
       = Some {| print := fp; sampleCount := 1 |})
  ∧ (∀ fp existing, speakerProfiles st !! speakerId = Some existing →
       let alpha := Qmin 0.3 (1 / (inject_Z (Z.of_nat (sampleCount existing)) + 1))%Q in
       ∃ updated,
         speakerProfiles (updateSpeakerProfile speakerId (Some fp) st) !! speakerId
         = Some updated
         ∧ pitchAvg (print updated)
           = (pitchAvg (print existing) * (1 - alpha) + pitchAvg fp * alpha)%Q
         ∧ pitchVar (print updated)
           = (pitchVar (print existing) * (1 - alpha) + pitchVar fp * alpha)%Q
         ∧ centroidAvg (print updated)
           = (centroidAvg (print existing) * (1 - alpha) + centroidAvg fp * alpha)%Q
         ∧ centroidVar (print updated)
           = (centroidVar (print existing) * (1 - alpha) + centroidVar fp * alpha)%Q
         ∧ sampleCount updated = (sampleCount existing + 1)%nat)
  ∧ (∀ fp other, other ≠ speakerId →
       speakerProfiles (updateSpeakerProfile speakerId fp st) !! other
       = speakerProfiles st !! other).
Proof.
  split; [done|]. split; [|split].
  - intros fp H. rewrite (updateSpeakerProfile_profiles_new _ _ _ H).
    apply lookup_insert_eq.
  - intros fp existing H alpha.
    rewrite (updateSpeakerProfile_profiles_existing _ _ _ _ H).
    eexists. split; [apply lookup_insert_eq|].
    cbn [print pitchAvg pitchVar centroidAvg centroidVar sampleCount].
    repeat split. lia.
  - intros fp other Hne. by apply updateSpeakerProfile_other.
Qed.

(** C10: when an existing profile is updated with a present fingerprint,
    the learning rate [alpha] is above 0 and at most 0.3; each of the four
    fields becomes [(1 - alpha) * old + alpha * new], a strict convex
    combination, so it lies between the old value and the fingerprint's
    value, and it is non-negative when both of them are. *)
Theorem ewma_update_is_convex (speakerId : Z) (fp : Fingerprint)
    (existing : SpeakerProfile) (st : State) :
  speakerProfiles st !! speakerId = Some existing →
  let alpha := learningRate existing in
  (0 < alpha)%Q ∧ (alpha <= 0.3)%Q
  ∧ ∃ updated,
      speakerProfiles (updateSpeakerProfile speakerId (Some fp) st) !! speakerId
      = Some updated
      ∧ ∀ field : Fingerprint → Q,
          field ∈ [pitchAvg; pitchVar; centroidAvg; centroidVar] →
          (field (print updated)
           == (1 - alpha) * field (print existing) + alpha * field fp)%Q
          ∧ (0 < alpha)%Q ∧ (alpha < 1)%Q
          ∧ (Qmin (field (print existing)) (field fp) <= field (print updated))%Q
          ∧ (field (print updated) <= Qmax (field (print existing)) (field fp))%Q
          ∧ ((0 <= field (print existing))%Q → (0 <= field fp)%Q →
             (0 <= field (print updated))%Q).
Proof.
  intros H alpha.
  destruct (learningRate_range existing) as [Hpos Hle]. fold alpha in Hpos, Hle.
  split; [done|]. split; [done|].
  rewrite (updateSpeakerProfile_profiles_existing _ _ _ _ H).
  eexists. split; [apply lookup_insert_eq|].
  assert (Hlt : (alpha < 1)%Q) by lra.
  intros field Hf. cbn [print].
  assert (∀ old new : Q,
    (old * (1 - alpha) + new * alpha == (1 - alpha) * old + alpha * new)%Q
    ∧ (0 < alpha)%Q ∧ (alpha < 1)%Q
    ∧ (Qmin old new <= old * (1 - alpha) + new * alpha)%Q
    ∧ (old * (1 - alpha) + new * alpha <= Qmax old new)%Q
    ∧ ((0 <= old)%Q → (0 <= new)%Q → (0 <= old * (1 - alpha) + new * alpha)%Q)) as Hall.
  { intros old new. split; [ring|]. split; [done|]. split; [done|].
    destruct (convex_between alpha old new Hpos Hlt) as [Hlo Hhi].
    split; [done|]. split; [done|].
    intros. by apply convex_nonneg. }
  repeat (apply elem_of_cons in Hf as [->|Hf]; [apply Hall|]).
  by apply elem_of_nil in Hf.
Qed.

(** ** The decision of the policy *)

Lemma detectSpeakerChange_unfold (now : Z) (st : State) :
  detectSpeakerChange now st
  = (currentSpeakerId (analyseVoice (onSilenceGap now st)),
     set_lastSpeechTime (Some now) (analyseVoice (onSilenceGap now st))).
Proof. reflexivity. Qed.

(** C1: when, at the second block of [detectSpeakerChange], the analysis is
    pending and the buffer holds at least [VOICE_PROFILE_MIN_SAMPLES]
    samples, a fingerprint is built and
    - if its similarity to the current speaker's profile is at least the
      threshold, the speaker id and the speaker count stay as they are;
    - otherwise, if some other stored profile reaches the threshold, the
      current speaker becomes a stored speaker whose similarity is the
      highest among the others (and at least the threshold);
    - otherwise the current speaker becomes [speakerCount], which is then
      incremented by 1;
    - without a stored profile for the current speaker the similarity is 1
      and, for a sensitivity in [0, 100], the speaker stays.
    Speaker ids of stored profiles are non-negative. *)
Theorem detectSpeakerChange_decision (now : Z) (st : State) :
  let st1 := onSilenceGap now st in
  let result := detectSpeakerChange now st in
  let cur := currentSpeakerId st in
  let threshold := getSpeakerDifferThreshold (settings st) in
  pendingAnalysis st1 = true →
  (VOICE_PROFILE_MIN_SAMPLES ≤ length (voiceSampleBuffer st1))%nat →
  (∀ id p, speakerProfiles st1 !! id = Some p → (0 ≤ id)%Z) →
  ∃ newFingerprint,
    buildFingerprint (voiceSampleBuffer st1) = Some newFingerprint
    ∧ result.1 = currentSpeakerId result.2
    ∧ pendingAnalysis result.2 = false
    ∧ (∀ p, speakerProfiles st1 !! cur = Some p →
         (threshold <= similarityTo newFingerprint p)%Q →
         result.1 = cur ∧ speakerCount result.2 = speakerCount st)
    ∧ (∀ p, speakerProfiles st1 !! cur = Some p →
         (similarityTo newFingerprint p < threshold)%Q →
         ((∃ id po, id ≠ cur ∧ speakerProfiles st1 !! id = Some po
                    ∧ (threshold <= similarityTo newFingerprint po)%Q) →
          ∃ best pb,
            best ≠ cur ∧ speakerProfiles st1 !! best = Some pb
            ∧ (∀ id po, id ≠ cur → speakerProfiles st1 !! id = Some po →
                 (similarityTo newFingerprint po <= similarityTo newFingerprint pb)%Q)
            ∧ (threshold <= similarityTo newFingerprint pb)%Q
            ∧ result.1 = best ∧ speakerCount result.2 = speakerCount st)
         ∧ ((∀ id po, id ≠ cur → speakerProfiles st1 !! id = Some po →
               (similarityTo newFingerprint po < threshold)%Q) →
            result.1 = speakerCount st
            ∧ speakerCount result.2 = (speakerCount st + 1)%Z))
    ∧ (speakerProfiles st1 !! cur = None →
       (0 <= speakerSensitivity (settings st))%Q →
       (speakerSensitivity (settings st) <= 100)%Q →
       (currentSimilarityOf newFingerprint st1 == 1)%Q
       ∧ result.1 = cur ∧ speakerCount result.2 = speakerCount st).
Proof.
  intros st1 result cur threshold Hp Hn Hids.
  assert (st1 = st) as E by (by apply onSilenceGap_enough_samples).
  unfold result. rewrite detectSpeakerChange_unfold. fold st1.
  rewrite E in *. clear E st1.
  destruct (buildFingerprint_enough _ Hn) as [fpn Hb].
  exists fpn. split; [done|]. split; [done|].
  cbn [fst snd].
  assert (Hpend : pendingAnalysis (set_lastSpeechTime (Some now) (analyseVoice st)) = false).
  { destruct (Qlt_le_dec (currentSimilarityOf fpn st) threshold) as [Hlt|Hle].
    - rewrite (analyseVoice_differ st fpn Hp Hb Hlt). done.
    - rewrite (analyseVoice_stay st fpn Hp Hb Hle). done. }
  split; [done|]. split; [|split].
  - intros p Hlk Hthr.
    rewrite (analyseVoice_stay st fpn Hp Hb); [done|].
    unfold currentSimilarityOf. fold cur. by rewrite Hlk.
  - intros p Hlk Hlt.
    assert (Hcs : (currentSimilarityOf fpn st < threshold)%Q).
    { unfold currentSimilarityOf. fold cur. by rewrite Hlk. }
    split.
    + intros Hex.
      destruct (analyseVoice_switch st fpn Hp Hb Hids Hcs Hex)
        as (best & pb & Hne & Hblk & Hmax & Hthr & Hav).
      exists best, pb. rewrite Hav. done.
    + intros Hall. rewrite (analyseVoice_mint st fpn Hp Hb Hcs Hall). done.
  - intros Hlk H0 H100.
    assert (Hcs : currentSimilarityOf fpn st = 1%Q).
    { unfold currentSimilarityOf. fold cur. by rewrite Hlk. }
    split; [by rewrite Hcs|].
    rewrite (analyseVoice_stay st fpn Hp Hb); [done|].
    rewrite Hcs. pose proof (threshold_range (settings st) (conj H0 H100)). lra.
Qed.

(** ** Silence gaps *)

Lemma detect_gap_keeps (now : Z) (st : State) :
  (silenceGap now st > SPEAKER_ANALYSIS_THRESHOLD)%Z →
  (detectSpeakerChange now st).1 = currentSpeakerId st
  ∧ pendingAnalysis (detectSpeakerChange now st).2 = true
  ∧ voiceSampleBuffer (detectSpeakerChange now st).2 = [].
Proof.
  intros Hg. rewrite detectSpeakerChange_unfold. cbn [fst snd].
  destruct (onSilenceGap_gap_buffer now st Hg) as [Hb Hp].
  rewrite analyseVoice_idle.
  2: { right. rewrite Hb. unfold VOICE_PROFILE_MIN_SAMPLES. simpl. lia. }
  split; [apply onSilenceGap_frame|]. by simpl.
Qed.

Lemma detect_few_samples_keeps (now : Z) (st : State) :
  (length (voiceSampleBuffer st) < VOICE_PROFILE_MIN_SAMPLES)%nat →
  (detectSpeakerChange now st).1 = currentSpeakerId st.
Proof.
  intros Hl.
  destruct (Z.le_gt_cases (silenceGap now st) SPEAKER_ANALYSIS_THRESHOLD) as [Hg|Hg].
  - rewrite detectSpeakerChange_unfold. cbn [fst].
    rewrite onSilenceGap_no_gap by done.
    rewrite analyseVoice_idle; [done|by right].
  - apply detect_gap_keeps. lia.
Qed.

Lemma detect_buffer_length (now : Z) (st : State) :
  (length (voiceSampleBuffer (detectSpeakerChange now st).2)
   ≤ length (voiceSampleBuffer st))%nat.
Proof.
  rewrite detectSpeakerChange_unfold. cbn [snd]. simpl voiceSampleBuffer.
  destruct (analyseVoice_frame (onSilenceGap now st)) as (_&_&_&_&_&->&_).
  destruct (Z.le_gt_cases (silenceGap now st) SPEAKER_ANALYSIS_THRESHOLD) as [Hg|Hg].
  - by rewrite onSilenceGap_no_gap.
  - destruct (onSilenceGap_gap_buffer now st) as [-> _]; [lia|]. simpl. lia.
Qed.

Lemma detect_recognition (now : Z) (st : State) :
  recognition (detectSpeakerChange now st).2 = recognition st.
Proof.
  rewrite detectSpeakerChange_unfold. cbn [snd]. simpl recognition.
  destruct (analyseVoice_frame (onSilenceGap now st)) as (->&_).
  apply onSilenceGap_frame.
Qed.

Lemma few_samples_keep_speaker (events : list Event) (st : State) :
  forallb isSampleOrSpeech events = true →
  (length (voiceSampleBuffer st) + samplesIn events < VOICE_PROFILE_MIN_SAMPLES)%nat →
  ∀ id, id ∈ returnedIds events st → id = currentSpeakerId st.
Proof.
  revert st. induction events as [|e events IH]; intros st Hall Hfew id Hid.
  { by apply elem_of_nil in Hid. }
  simpl in Hall. apply andb_true_iff in Hall as [He Hall].
  destruct e as [|p c|now| | | | | |]; try discriminate He.
  - (* a sample *)
    unfold samplesIn in Hfew. simpl in Hfew. fold (samplesIn events) in Hfew.
    cbn [returnedIds step] in Hid.
    destruct (voiceSampleTimer st).
    + destruct (collectVoiceSample_frame p c st) as (_&Hc&_&_&_&_&_&_&Hlen).
      rewrite <- Hc. apply IH; [done| |done]. lia.
    + apply IH; [done| |done]. lia.
  - (* a speech event *)
    unfold samplesIn in Hfew. simpl in Hfew. fold (samplesIn events) in Hfew.
    cbn [returnedIds step] in Hid.
    assert (Hkeep : (detectSpeakerChange now st).1 = currentSpeakerId st).
    { apply detect_few_samples_keeps. lia. }
    destruct (recognition st).
    + rewrite handleResults_id in Hid. rewrite handleResults_state in Hid.
      pose proof (getSpeakerColor_frame (detectSpeakerChange now st).1
                    (detectSpeakerChange now st).2) as F. cbv zeta in F.
      destruct F as (_&Fc&_&_&_&Fb&_).
      pose proof (detect_buffer_length now st) as Hlen.
      apply elem_of_cons in Hid as [->|Hid]; [done|].
      rewrite <- Hkeep.
      change ((detectSpeakerChange now st).1)
        with (currentSpeakerId (detectSpeakerChange now st).2).
      rewrite <- Fc. apply IH; [done| |done].
      rewrite Fb. lia.
    + apply IH; [done| |done]. lia.
Qed.

(** C2, for the variant with voice fingerprints: a silence gap alone never
    changes the speaker.  On the event that detects the gap the returned id
    is the current one (the analysis is left pending on an empty buffer);
    on any event that finds fewer than [VOICE_PROFILE_MIN_SAMPLES] samples
    in the buffer the id is unchanged; an event that returns another id
    found the analysis pending with enough samples, had no gap of its own,
    and resolves the analysis; and after a gap, along any run of sampling
    and speech events with fewer than [VOICE_PROFILE_MIN_SAMPLES] samples,
    every returned id is the one that was current before the gap. *)
Theorem silence_gap_alone_keeps_speaker :
  (∀ now st, (silenceGap now st > SPEAKER_ANALYSIS_THRESHOLD)%Z →
     (detectSpeakerChange now st).1 = currentSpeakerId st
     ∧ pendingAnalysis (detectSpeakerChange now st).2 = true
     ∧ voiceSampleBuffer (detectSpeakerChange now st).2 = [])
  ∧ (∀ now st, (length (voiceSampleBuffer st) < VOICE_PROFILE_MIN_SAMPLES)%nat →
       (detectSpeakerChange now st).1 = currentSpeakerId st)
  ∧ (∀ now st, (detectSpeakerChange now st).1 ≠ currentSpeakerId st →
       pendingAnalysis st = true
       ∧ (VOICE_PROFILE_MIN_SAMPLES ≤ length (voiceSampleBuffer st))%nat
       ∧ (silenceGap now st ≤ SPEAKER_ANALYSIS_THRESHOLD)%Z
       ∧ pendingAnalysis (detectSpeakerChange now st).2 = false)
  ∧ (∀ now st events,
       recognition st = true →
       (silenceGap now st > SPEAKER_ANALYSIS_THRESHOLD)%Z →
       forallb isSampleOrSpeech events = true →
       (samplesIn events < VOICE_PROFILE_MIN_SAMPLES)%nat →
       ∀ id, id ∈ returnedIds (EvSpeech now :: events) st → id = currentSpeakerId st).
Proof.
  split; [apply detect_gap_keeps|]. split; [apply detect_few_samples_keeps|]. split.
  - intros now st Hne.
    destruct (Z.le_gt_cases (silenceGap now st) SPEAKER_ANALYSIS_THRESHOLD) as [Hg|Hg].
    2: { destruct (detect_gap_keeps now st) as [? _]; [lia|done]. }
    destruct (Nat.le_gt_cases VOICE_PROFILE_MIN_SAMPLES (length (voiceSampleBuffer st)))
      as [Hl|Hl].
    2: { by pose proof (detect_few_samples_keeps now st Hl). }
    rewrite detectSpeakerChange_unfold in *. cbn [fst snd] in *.
    rewrite onSilenceGap_no_gap in * by done.
    destruct (pendingAnalysis st) eqn:Hp.
    2: { rewrite analyseVoice_idle in Hne; [done|by left]. }
    split; [done|]. split; [done|]. split; [done|].
    destruct (buildFingerprint_enough _ Hl) as [fpn Hb].
    destruct (Qlt_le_dec (currentSimilarityOf fpn st)
                (getSpeakerDifferThreshold (settings st))) as [Hlt|Hle].
    + by rewrite (analyseVoice_differ st fpn Hp Hb Hlt).
    + by rewrite (analyseVoice_stay st fpn Hp Hb Hle).
  - intros now st events Hrec Hg Hall Hfew id Hid.
    cbn [returnedIds step] in Hid. rewrite Hrec in Hid.
    destruct (detect_gap_keeps now st Hg) as (Hk & _ & Hb).
    rewrite handleResults_id, handleResults_state in Hid.
    apply elem_of_cons in Hid as [->|Hid]; [done|].
    pose proof (getSpeakerColor_frame (detectSpeakerChange now st).1
                  (detectSpeakerChange now st).2) as F. cbv zeta in F.
    destruct F as (_&Fc&_&_&_&Fb&_).
    rewrite <- Hk.
    change ((detectSpeakerChange now st).1)
      with (currentSpeakerId (detectSpeakerChange now st).2).
    rewrite <- Fc.
    apply (few_samples_keep_speaker events); [done| |done].
    rewrite Fb, Hb. simpl. lia.
Qed.

(** ** Speaker ids stay below the speaker count *)

Lemma analyseVoice_cases (st : State) :
  analyseVoice st = st
  ∨ analyseVoice st = set_pendingAnalysis false st
  ∨ (∃ best p, speakerProfiles st !! best = Some p ∧ best ≠ currentSpeakerId st
               ∧ analyseVoice st
                 = set_pendingAnalysis false (set_currentSpeakerId best st))
  ∨ analyseVoice st
    = set_pendingAnalysis false
        (set_speakerCount (speakerCount st + 1)
           (set_currentSpeakerId (speakerCount st) st)).
Proof.
  destruct (pendingAnalysis st) eqn:Hp.
  2: { left. apply analyseVoice_idle. by left. }
  destruct (Nat.le_gt_cases VOICE_PROFILE_MIN_SAMPLES (length (voiceSampleBuffer st)))
    as [Hl|Hl].
  2: { left. apply analyseVoice_idle. by right. }
  destruct (buildFingerprint_enough _ Hl) as [fpn Hb].
  destruct (Qlt_le_dec (currentSimilarityOf fpn st)
              (getSpeakerDifferThreshold (settings st))) as [Hlt|Hle].
  2: { right. left. by apply (analyseVoice_stay st fpn). }
  right. right. rewrite (analyseVoice_differ st fpn Hp Hb Hlt).
  destruct ((0 <=? (findBestMatch fpn st).1)%Z
            && Qgeb (findBestMatch fpn st).2 (getSpeakerDifferThreshold (settings st)))
    eqn:Hguard; [left|by right].
  apply andb_true_iff in Hguard as [Hnn _]. apply Z.leb_le in Hnn.
  destruct (findBestMatch_spec fpn st) as (_ & _ & [Hbest|(p & Hne & Hlk & _)]).
  { rewrite Hbest in Hnn. simpl in Hnn. lia. }
  by exists (findBestMatch fpn st).1, p.
Qed.

Lemma detectSpeakerChange_count_cases (now : Z) (st : State) :
  let r := detectSpeakerChange now st in
  (speakerCount r.2 = speakerCount st
   ∧ (r.1 = currentSpeakerId st ∨ r.1 ∈ dom (speakerProfiles r.2)))
  ∨ (r.1 = speakerCount st ∧ speakerCount r.2 = (speakerCount st + 1)%Z).
Proof.
  cbv zeta. rewrite detectSpeakerChange_unfold. cbn [fst snd].
  destruct (onSilenceGap_frame now st) as (_ & Hc & _ & _ & _ & Hn & _).
  destruct (analyseVoice_cases (onSilenceGap now st))
    as [E|[E|[(best & p & Hlk & Hne & E)|E]]]; rewrite E; simpl.
  - left. by rewrite Hc, Hn; auto.
  - left. by rewrite Hc, Hn; auto.
  - left. split; [done|]. right. apply elem_of_dom. by exists p.
  - right. by rewrite Hn.
Qed.

Lemma savedBounded_snapshot (st : State) :
  (∀ id : Z, id ∈ dom (speakerProfiles st) ∪ dom (speakerColorMap st) →
             (0 ≤ id < speakerCount st)%Z) →
  savedBounded (localStorage (saveSpeakerProfiles st)).
Proof. intros H. exact H. Qed.

Lemma idsBounded_save (st : State) :
  idsBounded st → idsBounded (saveSpeakerProfiles st).
Proof.
  intros (H0 & Hids & Hcur & Hsaved).
  split; [done|]. split; [done|]. split; [done|].
  by apply savedBounded_snapshot.
Qed.

Lemma idsBounded_update (id : Z) (fp : option Fingerprint) (st : State) :
  idsBounded st → (0 ≤ id < speakerCount st)%Z →
  idsBounded (updateSpeakerProfile id fp st).
Proof.
  intros Hinv Hid.
  assert (∀ p, idsBounded (set_speakerProfiles (<[id := p]> (speakerProfiles st)) st)) as Hins.
  { intros p. destruct Hinv as (H0 & Hids & Hcur & Hsaved).
    split; [done|]. split; [|done].
    simpl. intros k Hk. rewrite dom_insert_L in Hk.
    apply elem_of_union in Hk as [Hk|Hk].
    - apply elem_of_union in Hk as [Hk|Hk].
      + apply elem_of_singleton in Hk. by subst.
      + apply Hids. by apply elem_of_union_l.
    - apply Hids. by apply elem_of_union_r. }
  unfold updateSpeakerProfile.
  destruct fp as [fp|]; [|done].
  destruct (speakerProfiles st !! id) as [existing|]; [|apply Hins].
  cbv zeta. case_match; [apply idsBounded_save|]; apply Hins.
Qed.

Lemma idsBounded_onSilenceGap (now : Z) (st : State) :
  idsBounded st → recognition st = true → idsBounded (onSilenceGap now st).
Proof.
  intros Hinv Hrec. unfold onSilenceGap. case_match; [|done].
  assert (Hu : idsBounded (updateSpeakerProfile (currentSpeakerId st)
                             (buildFingerprint (voiceSampleBuffer st)) st)).
  { apply idsBounded_update; [done|]. by apply Hinv. }
  destruct (startVoiceSampling_frame
              (updateSpeakerProfile (currentSpeakerId st)
                 (buildFingerprint (voiceSampleBuffer st)) st)) as
    (Fr & Fc & Fm & _ & _ & Fn & Fp & _ & _ & _ & _ & _ & Fs).
  destruct Hu as (H0 & Hids & Hcur & Hsaved).
  unfold idsBounded, set_pendingAnalysis.
  cbn [speakerCount speakerProfiles speakerColorMap recognition currentSpeakerId localStorage].
  rewrite Fr, Fc, Fm, Fn, Fp, Fs. done.
Qed.

Lemma idsBounded_analyseVoice (st : State) :
  idsBounded st → recognition st = true → idsBounded (analyseVoice st).
Proof.
  intros Hinv Hrec.
  pose proof Hinv as (H0 & Hids & Hcur & Hsaved). specialize (Hcur Hrec).
  destruct (analyseVoice_cases st) as [E|[E|[(best & p & Hlk & Hne & E)|E]]]; rewrite E.
  - done.
  - done.
  - split; [done|]. split; [done|]. split; [|done].
    intros _. simpl. apply Hids. apply elem_of_union_l, elem_of_dom. by exists p.
  - split; [simpl; lia|]. split; [|split; [|done]].
    + simpl. intros id Hid. specialize (Hids id Hid). lia.
    + intros _. simpl. lia.
Qed.

Lemma idsBounded_getSpeakerColor (id : Z) (st : State) :
  idsBounded st → (0 ≤ id < speakerCount st)%Z →
  idsBounded (getSpeakerColor id st).2.
Proof.
  intros (H0 & Hids & Hcur & Hsaved) Hid.
  unfold getSpeakerColor. cbv zeta. cbn [snd].
  case_match; [done|].
  split; [done|]. split; [|done].
  simpl. intros k Hk. rewrite dom_insert_L in Hk.
  apply elem_of_union in Hk as [Hk|Hk]; [apply Hids; by apply elem_of_union_l|].
  apply elem_of_union in Hk as [Hk|Hk]; [|apply Hids; by apply elem_of_union_r].
  apply elem_of_singleton in Hk. by subst.
Qed.

Lemma idsBounded_handleResults (now : Z) (st : State) :
  idsBounded st → recognition st = true → idsBounded (handleResults now st).2.
Proof.
  intros Hinv Hrec. rewrite handleResults_state.
  assert (Hd : idsBounded (detectSpeakerChange now st).2
               ∧ recognition (detectSpeakerChange now st).2 = true).
  { split; [|by rewrite detect_recognition].
    rewrite detectSpeakerChange_unfold. cbn [snd].
    assert (idsBounded (analyseVoice (onSilenceGap now st))) as Ha.
    { apply idsBounded_analyseVoice; [by apply idsBounded_onSilenceGap|].
      destruct (onSilenceGap_frame now st) as (-> & _). done. }
    exact Ha. }
  destruct Hd as [Hd Hr].
  apply idsBounded_getSpeakerColor; [done|].
  change ((detectSpeakerChange now st).1)
    with (currentSpeakerId (detectSpeakerChange now st).2).
  by apply Hd.
Qed.

Lemma stopVoiceSampling_frame (st : State) :
  let st' := stopVoiceSampling st in
  recognition st' = recognition st
  ∧ currentSpeakerId st' = currentSpeakerId st
  ∧ speakerColorMap st' = speakerColorMap st
  ∧ speakerCount st' = speakerCount st
  ∧ speakerProfiles st' = speakerProfiles st
  ∧ voiceSampleBuffer st' = voiceSampleBuffer st
  ∧ localStorage st' = localStorage st.
Proof. unfold stopVoiceSampling. by destruct (voiceSampleTimer st). Qed.

Lemma idsBounded_frame (st st' : State) :
  speakerCount st' = speakerCount st →
  speakerProfiles st' = speakerProfiles st →
  speakerColorMap st' = speakerColorMap st →
  currentSpeakerId st' = currentSpeakerId st →
  recognition st' = recognition st →
  localStorage st' = localStorage st →
  idsBounded st → idsBounded st'.
Proof.
  intros Hn Hp Hm Hc Hr Hs. unfold idsBounded.
  by rewrite Hn, Hp, Hm, Hc, Hr, Hs.
Qed.

Lemma idsBounded_fresh (st : State) :
  savedBounded (localStorage st) →
  idsBounded
    (set_currentSpeakerId 0
       (set_speakerCount 1
          (set_nextColorIndex 0
             (set_speakerColorMap ∅
                (set_speakerNames ∅ (set_speakerProfiles ∅ st)))))).
Proof.
  intros Hs. split; [simpl; lia|]. split; [|split; [simpl; lia|done]].
  simpl. intros id Hid. rewrite !dom_empty_L in Hid.
  apply elem_of_union in Hid as [Hid|Hid]; by apply elem_of_empty in Hid.
Qed.

Lemma resetSpeakerState_fields (st : State) :
  let r := resetSpeakerState st in
  recognition r = recognition st
  ∧ localStorage r = localStorage st
  ∧ currentSpeakerId r = 0%Z
  ∧ match localStorage st with
    | Some saved =>
        if (0 <? size (profiles saved))%nat
        then speakerProfiles r = profiles saved
             ∧ speakerColorMap r = colorMap saved
             ∧ speakerCount r
               = (if (savedSpeakerCount saved =? 0)%Z
                  then Z.of_nat (size (profiles saved))
                  else savedSpeakerCount saved)
        else speakerProfiles r = ∅ ∧ speakerColorMap r = ∅ ∧ speakerCount r = 1%Z
    | None => speakerProfiles r = ∅ ∧ speakerColorMap r = ∅ ∧ speakerCount r = 1%Z
    end.
Proof.
  unfold resetSpeakerState, loadSpeakerProfiles, stopVoiceSampling. cbv zeta.
  destruct (localStorage st) as [saved|] eqn:E.
  - destruct (0 <? size (profiles saved))%nat; simpl;
      destruct (voiceSampleTimer st); simpl; rewrite ?E; done.
  - simpl. destruct (voiceSampleTimer st); simpl; rewrite ?E; done.
Qed.

Lemma idsBounded_resetSpeakerState (st : State) :
  savedBounded (localStorage st) → idsBounded (resetSpeakerState st).
Proof.
  intros Hs.
  destruct (resetSpeakerState_fields st) as (Hr & Hl & Hc & Hm). cbv zeta in *.
  unfold idsBounded. rewrite Hl, Hc.
  assert (Hfresh :
    speakerProfiles (resetSpeakerState st) = ∅
    ∧ speakerColorMap (resetSpeakerState st) = ∅
    ∧ speakerCount (resetSpeakerState st) = 1%Z →
    (0 ≤ speakerCount (resetSpeakerState st))%Z
    ∧ (∀ id : Z,
         id ∈ dom (speakerProfiles (resetSpeakerState st))
              ∪ dom (speakerColorMap (resetSpeakerState st)) →
         (0 ≤ id < speakerCount (resetSpeakerState st))%Z)
    ∧ (recognition (resetSpeakerState st) = true →
       (0 ≤ 0 < speakerCount (resetSpeakerState st))%Z)
    ∧ savedBounded (localStorage st)).
  { intros (-> & -> & ->). split; [lia|]. split; [|split; [lia|done]].
    intros id Hid. rewrite !dom_empty_L in Hid.
    apply elem_of_union in Hid as [Hid|Hid]; by apply elem_of_empty in Hid. }
  destruct (localStorage st) as [saved|] eqn:E; [|by apply Hfresh].
  destruct (Nat.ltb_spec 0 (size (profiles saved))) as [Hsz|Hsz]; [|by apply Hfresh].
  destruct Hm as (-> & -> & ->).
  simpl in Hs.
  assert (Hpos : (0 < savedSpeakerCount saved)%Z).
  { destruct (map_choose (profiles saved)) as (k & v & Hk).
    { intros Hempty. rewrite Hempty, map_size_empty in Hsz. lia. }
    assert (k ∈ dom (profiles saved) ∪ dom (colorMap saved)) as Hin.
    { apply elem_of_union_l, elem_of_dom. by exists v. }
    specialize (Hs k Hin). lia. }
  destruct (Z.eqb_spec (savedSpeakerCount saved) 0) as [Hz|Hz]; [lia|].
  split; [lia|]. split; [exact Hs|]. split; [lia|exact Hs].
Qed.

Lemma idsBounded_startListening (st : State) :
  idsBounded st → idsBounded (startListening st).
Proof.
  intros Hinv. unfold startListening. apply idsBounded_resetSpeakerState.
  destruct (startVoiceSampling_frame st) as (_&_&_&_&_&_&_&_&_&_&_&_&Fs).
  unfold set_recognition. cbn [localStorage]. rewrite Fs. apply Hinv.
Qed.

Lemma idsBounded_stopListening (st : State) :
  idsBounded st → recognition st = true → idsBounded (stopListening st).
Proof.
  intros Hinv Hrec. unfold stopListening. cbv zeta.
  destruct (stopVoiceSampling_frame st) as (Fr & Fc & Fm & Fn & Fp & Fb & Fs).
  assert (Hinv' : idsBounded (stopVoiceSampling st)) by (by apply (idsBounded_frame st)).
  apply idsBounded_save, idsBounded_update; [done|].
  apply Hinv'. by rewrite Fr.
Qed.

Lemma idsBounded_renameSpeaker (id : Z) (answer : option string) (st : State) :
  idsBounded st → idsBounded (renameSpeaker id answer st).
Proof.
  intros Hinv. unfold renameSpeaker.
  destruct answer as [newName|]; [|done].
  case_match; [|done].
  apply idsBounded_save. by apply (idsBounded_frame st).
Qed.

Lemma idsBounded_deleteSpeaker (id : Z) (st : State) :
  idsBounded st → idsBounded (deleteSpeaker id st).
Proof.
  intros (H0 & Hids & Hcur & Hsaved). unfold deleteSpeaker.
  apply idsBounded_save.
  split; [done|]. split; [|done].
  simpl. intros k Hk. rewrite !dom_delete_L in Hk.
  apply Hids.
  apply elem_of_union in Hk as [Hk|Hk]; apply elem_of_difference in Hk as [Hk _].
  - by apply elem_of_union_l.
  - by apply elem_of_union_r.
Qed.

Lemma idsBounded_clearSpeakers (st : State) :
  idsBounded st → idsBounded (clearSpeakers st).
Proof. intros _. unfold clearSpeakers. by apply idsBounded_fresh. Qed.

Lemma idsBounded_initialState (cfg : Settings) (stored : option SavedSpeakers) :
  savedBounded stored → idsBounded (initialState cfg stored).
Proof.
  intros Hs. split; [done|]. split; [|done].
  simpl. intros id Hid. rewrite !dom_empty_L in Hid.
  apply elem_of_union in Hid as [Hid|Hid]; by apply elem_of_empty in Hid.
Qed.

Lemma idsBounded_step (e : Event) (st : State) :
  idsBounded st → idsBounded (step e st).
Proof.
  intros Hinv. destruct e as [|p c|now| |id answer|id| |value|]; cbn [step].
  - by apply idsBounded_startListening.
  - destruct (voiceSampleTimer st); [|done].
    destruct (collectVoiceSample_frame p c st) as (Fr&Fc&Fm&_&Fn&Fp&_&Fs&_).
    by apply (idsBounded_frame st).
  - destruct (recognition st) eqn:Hrec; [|done].
    by apply idsBounded_handleResults.
  - destruct (recognition st) eqn:Hrec; [|done].
    by apply idsBounded_stopListening.
  - by apply idsBounded_renameSpeaker.
  - by apply idsBounded_deleteSpeaker.
  - by apply idsBounded_clearSpeakers.
  - by apply (idsBounded_frame st).
  - apply idsBounded_initialState. apply Hinv.
Qed.

Lemma reachable_idsBounded (st : State) : reachable st → idsBounded st.
Proof.
  induction 1 as [cfg|e st _ IH].
  - by apply idsBounded_initialState.
  - by apply idsBounded_step.
Qed.

Lemma reachable_run (events : list Event) (st : State) :
  reachable st → reachable (run events st).
Proof.
  revert st. induction events as [|e events IH]; intros st H; [done|].
  simpl. apply IH. by constructor.
Qed.

(** ** The speaker count *)

(** C8, as the code has it: in every reachable state the ids of the stored
    profiles and of the assigned colours are at least 0 and below
    [speakerCount]; once a session has been started the current speaker id
    is below [speakerCount] too; and a speech event either leaves
    [speakerCount] alone and returns the current or a stored id, or mints
    exactly [speakerCount], an id that has no stored profile and no
    assigned colour at that moment, and increments the count by 1.  (The
    ids in use need not be dense, and [speakerCount] is not one more than
    the highest id ever minted: see the counterexample below.) *)
Theorem speaker_ids_below_speakerCount (st : State) :
  reachable st →
  (0 ≤ speakerCount st)%Z
  ∧ (∀ id : Z, id ∈ dom (speakerProfiles st) ∪ dom (speakerColorMap st) →
               (0 ≤ id < speakerCount st)%Z)
  ∧ (recognition st = true → (0 ≤ currentSpeakerId st < speakerCount st)%Z)
  ∧ (∀ now : Z,
       let r := detectSpeakerChange now st in
       (speakerCount r.2 = speakerCount st
        ∧ (r.1 = currentSpeakerId st ∨ r.1 ∈ dom (speakerProfiles r.2)))
       ∨ (r.1 = speakerCount st
          ∧ speakerCount r.2 = (speakerCount st + 1)%Z
          ∧ speakerCount st ∉ dom (speakerProfiles st) ∪ dom (speakerColorMap st))).
Proof.
  intros Hreach.
  destruct (reachable_idsBounded st Hreach) as (H0 & Hids & Hcur & _).
  split; [done|]. split; [done|]. split; [done|].
  intros now.
  destruct (detectSpeakerChange_count_cases now st) as [H|[H1 H2]]; [by left|].
  right. split; [done|]. split; [done|].
  intros Hin. specialize (Hids _ Hin). lia.
Qed.

(** C8 used on the state after three voices: the current speaker is below
    the count of three. *)
Lemma three_voices_ids_witness :
  (0 ≤ currentSpeakerId (run threeVoices pageLoad)
   < speakerCount (run threeVoices pageLoad))%Z.
Proof.
  apply (speaker_ids_below_speakerCount (run threeVoices pageLoad)).
  - apply reachable_run, reachable_init.
  - vm_compute. reflexivity.
Defined.

(** C8 as it is written fails, in two ways.
    The ids are not dense: after three voices and a stop, the saved
    speakers are 0, 1 and 2; deleting the saved speaker 1 leaves the ids 0
    and 2 in every table of the state, with [speakerCount = 3].
    And [speakerCount] is not one more than the highest id ever minted:
    after three voices, with the ids 1 and 2 minted, "clear all" sets it
    back to 1 in the middle of the session; the session then mints 1 and 2
    a second time, the latter while a name given in between is still stored
    for it. *)
Lemma dense_ids_counterexample :
  (reachable (run (threeVoices ++ [EvStop; EvDelete 1]) pageLoad)
   ∧ savedSampleCount 1 (run (threeVoices ++ [EvStop]) pageLoad) = Some 1%nat
   ∧ speakerCount (run (threeVoices ++ [EvStop; EvDelete 1]) pageLoad) = 3%Z
   ∧ elements (speakerIds (run (threeVoices ++ [EvStop; EvDelete 1]) pageLoad))
     ≡ₚ [0%Z; 2%Z]
   ∧ ¬ dense (speakerIds (run (threeVoices ++ [EvStop; EvDelete 1]) pageLoad)))
  ∧ (returnedIds threeVoices pageLoad = [0; 0; 0; 0; 1; 1; 2; 2]%Z
     ∧ speakerCount (run threeVoices pageLoad) = 3%Z
     ∧ reachable (run (threeVoices ++ [EvClear]) pageLoad)
     ∧ speakerCount (run (threeVoices ++ [EvClear]) pageLoad) = 1%Z)
  ∧ (reachable (run clearedMidSession pageLoad)
     ∧ speakerCount (run clearedMidSession pageLoad) = 2%Z
     ∧ speakerNames (run clearedMidSession pageLoad) !! 2%Z = Some "Anna"
     ∧ (detectSpeakerChange 19500 (run clearedMidSession pageLoad)).1 = 2%Z
     ∧ returnedIds (clearedMidSession ++ [EvSpeech 19500]) pageLoad
       = [0; 0; 0; 0; 1; 1; 2; 2; 0; 0; 1; 1; 2]%Z).
Proof.
  assert (Hel : elements (speakerIds (run (threeVoices ++ [EvStop; EvDelete 1]) pageLoad))
                ≡ₚ [0%Z; 2%Z]).
  { vm_compute. apply perm_swap. }
  split; [|split].
  - split; [apply reachable_run, reachable_init|].
    split; [by vm_compute|]. split; [by vm_compute|]. split; [exact Hel|].
    intros Hdense.
    assert (H2 : 2%Z ∈ speakerIds (run (threeVoices ++ [EvStop; EvDelete 1]) pageLoad)).
    { apply elem_of_elements. rewrite Hel. apply list_elem_of_In. simpl. auto. }
    specialize (Hdense 2%Z 1%Z H2 ltac:(lia)).
    apply elem_of_elements in Hdense. rewrite Hel in Hdense.
    apply list_elem_of_In in Hdense. simpl in Hdense.
    destruct Hdense as [?|[?|[]]]; lia.
  - split; [by vm_compute|]. split; [by vm_compute|].
    split; [apply reachable_run, reachable_init|by vm_compute].
  - split; [apply reachable_run, reachable_init|].
    split; [by vm_compute|]. split; [by vm_compute|]. split; by vm_compute.
Qed.

(** ** The sample count of a profile *)








(** ** Colours *)

Lemma getSpeakerColor_first (id : Z) (st : State) :
  speakerColorMap st !! id = None →
  getSpeakerColor id st
  = (SPEAKER_COLORS !! (nextColorIndex st mod 8)%nat,
     set_nextColorIndex (S (nextColorIndex st))
       (set_speakerColorMap
          (<[id := (nextColorIndex st mod 8)%nat]> (speakerColorMap st)) st)).
Proof.
  intros H. unfold getSpeakerColor. rewrite H. cbv zeta.
  change (length SPEAKER_COLORS) with 8%nat.
  unfold set_nextColorIndex, set_speakerColorMap. cbn [speakerColorMap].
  by rewrite lookup_insert_eq.
Qed.

Lemma getSpeakerColor_known (id : Z) (c : nat) (st : State) :
  speakerColorMap st !! id = Some c →
  getSpeakerColor id st = (SPEAKER_COLORS !! c, st).
Proof.
  intros H. unfold getSpeakerColor. cbv zeta. rewrite H. cbv beta iota.
  by rewrite H.
Qed.

Lemma getSpeakerColor_keeps (id other : Z) (c : nat) (st : State) :
  speakerColorMap st !! id = Some c →
  speakerColorMap (getSpeakerColor other st).2 !! id = Some c.
Proof.
  intros H.
  destruct (speakerColorMap st !! other) as [c'|] eqn:E.
  - by rewrite (getSpeakerColor_known _ _ _ E).
  - rewrite (getSpeakerColor_first _ _ E). simpl.
    rewrite lookup_insert_ne; [done|]. intros ->. congruence.
Qed.

Lemma colorCalls_keeps (ids : list Z) (id : Z) (c : nat) (st : State) :
  speakerColorMap st !! id = Some c →
  speakerColorMap (colorCalls ids st) !! id = Some c.
Proof.
  revert st. induction ids as [|other ids IH]; intros st H; [done|].
  simpl. apply IH. by apply getSpeakerColor_keeps.
Qed.

Lemma colorsFollow_call (seen : list Z) (id : Z) (st : State) :
  colorsFollow seen st →
  colorsFollow (if bool_decide (id ∈ seen) then seen else seen ++ [id])
               (getSpeakerColor id st).2.
Proof.
  intros (Hn & Hdom & Hidx).
  destruct (bool_decide_reflect (id ∈ seen)) as [Hin|Hnin].
  - apply Hdom in Hin as [c Hc]. by rewrite (getSpeakerColor_known _ _ _ Hc).
  - assert (E : speakerColorMap st !! id = None).
    { destruct (speakerColorMap st !! id) eqn:E; [|done].
      exfalso. apply Hnin, Hdom. by eexists. }
    rewrite (getSpeakerColor_first _ _ E). cbn [snd].
    split; [|split].
    + simpl. rewrite length_app. simpl. lia.
    + intros k. simpl. rewrite elem_of_app, list_elem_of_singleton.
      destruct (decide (k = id)) as [->|Hne].
      * rewrite lookup_insert_eq. split; [by eexists|by right].
      * rewrite lookup_insert_ne by done. rewrite <- Hdom.
        split; [by intros [?|?]|by left].
    + intros k k' Hk. simpl.
      destruct (decide (k < length seen)%nat) as [Hlt|Hge].
      * rewrite lookup_app_l in Hk by done.
        assert (k' ≠ id) as Hne.
        { intros ->. apply Hnin. by eapply list_elem_of_lookup_2. }
        rewrite lookup_insert_ne by done. by apply Hidx.
      * rewrite lookup_app_r in Hk by lia.
        destruct (k - length seen)%nat as [|n] eqn:Hk0; [|done].
        simpl in Hk. injection Hk as <-.
        assert (k = length seen) as -> by lia.
        by rewrite lookup_insert_eq, Hn.
Qed.

Lemma colorsFollow_calls (ids seen : list Z) (st : State) :
  colorsFollow seen st →
  colorsFollow (firstSeenFrom seen ids) (colorCalls ids st).
Proof.
  revert seen st. induction ids as [|id ids IH]; intros seen st H; [done|].
  simpl. apply IH. by apply colorsFollow_call.
Qed.

Lemma colorsFollow_empty (st : State) :
  speakerColorMap st = ∅ → nextColorIndex st = 0%nat → colorsFollow [] st.
Proof.
  intros Hm Hn. split; [done|]. split.
  - intros id. rewrite Hm, lookup_empty. split.
    + intros H. by apply elem_of_nil in H.
    + by intros [? ?].
  - intros k id H. done.
Qed.

Lemma firstSeenFrom_NoDup (ids seen : list Z) :
  NoDup (seen ++ ids) → firstSeenFrom seen ids = seen ++ ids.
Proof.
  revert seen. induction ids as [|id ids IH]; intros seen H.
  - simpl. by rewrite app_nil_r.
  - simpl.
    assert (id ∉ seen) as Hnin.
    { apply NoDup_app in H as (_ & H & _). intros Hin. apply (H id Hin).
      by apply elem_of_cons; left. }
    rewrite bool_decide_eq_false_2 by done.
    rewrite IH; [by rewrite <- app_assoc|].
    by rewrite <- app_assoc.
Qed.

(** C9: the first call of [getSpeakerColor] for an id stores the palette
    index [nextColorIndex % 8] and increments [nextColorIndex]; every later
    call for that id, whatever calls came in between, returns the same
    colour and changes nothing; so from an empty colour map the ids get
    their colours in the order of their first appearance, the k-th new id
    (counting from 0) the index [k % 8], and of nine distinct ids the ninth
    gets palette index 0 again, like the first. *)
Theorem getSpeakerColor_first_seen_order :
  (∀ id st, speakerColorMap st !! id = None →
     speakerColorMap (getSpeakerColor id st).2 !! id
     = Some (nextColorIndex st mod 8)%nat
     ∧ nextColorIndex (getSpeakerColor id st).2 = S (nextColorIndex st)
     ∧ (getSpeakerColor id st).1 = SPEAKER_COLORS !! (nextColorIndex st mod 8)%nat)
  ∧ (∀ id st c, speakerColorMap st !! id = Some c →
       getSpeakerColor id st = (SPEAKER_COLORS !! c, st))
  ∧ (∀ id st ids,
       let st1 := (getSpeakerColor id st).2 in
       speakerColorMap (colorCalls ids st1) !! id = speakerColorMap st1 !! id
       ∧ (getSpeakerColor id (colorCalls ids st1)).1 = (getSpeakerColor id st).1
       ∧ (getSpeakerColor id (colorCalls ids st1)).2 = colorCalls ids st1)
  ∧ (∀ st ids k id,
       speakerColorMap st = ∅ → nextColorIndex st = 0%nat →
       firstSeen ids !! k = Some id →
       speakerColorMap (colorCalls ids st) !! id = Some (k mod 8)%nat
       ∧ (getSpeakerColor id (colorCalls ids st)).1 = SPEAKER_COLORS !! (k mod 8)%nat)
  ∧ (∀ st ids first ninth,
       speakerColorMap st = ∅ → nextColorIndex st = 0%nat →
       NoDup ids → ids !! 0%nat = Some first → ids !! 8%nat = Some ninth →
       speakerColorMap (colorCalls ids st) !! first = Some 0%nat
       ∧ speakerColorMap (colorCalls ids st) !! ninth = Some 0%nat
       ∧ (getSpeakerColor ninth (colorCalls ids st)).1
         = (getSpeakerColor first (colorCalls ids st)).1).
Proof.
  assert (Hseen : ∀ st ids k id,
    speakerColorMap st = ∅ → nextColorIndex st = 0%nat →
    firstSeen ids !! k = Some id →
    speakerColorMap (colorCalls ids st) !! id = Some (k mod 8)%nat
    ∧ (getSpeakerColor id (colorCalls ids st)).1 = SPEAKER_COLORS !! (k mod 8)%nat).
  { intros st ids k id Hm Hn Hk.
    destruct (colorsFollow_calls ids [] st (colorsFollow_empty st Hm Hn))
      as (_ & _ & Hidx).
    pose proof (Hidx k id Hk) as Hc.
    split; [done|]. by rewrite (getSpeakerColor_known _ _ _ Hc). }
  split; [|split; [|split; [|split]]].
  - intros id st H. rewrite (getSpeakerColor_first _ _ H). cbn [fst snd]. simpl.
    by rewrite lookup_insert_eq.
  - intros id st c. apply getSpeakerColor_known.
  - intros id st ids st1.
    assert (∃ c, speakerColorMap st1 !! id = Some c
                 ∧ (getSpeakerColor id st).1 = SPEAKER_COLORS !! c) as (c & Hc & Hcol).
    { unfold st1. destruct (speakerColorMap st !! id) as [c|] eqn:E.
      - exists c. by rewrite (getSpeakerColor_known _ _ _ E).
      - eexists. rewrite (getSpeakerColor_first _ _ E). cbn [fst snd]. simpl.
        by rewrite lookup_insert_eq. }
    pose proof (colorCalls_keeps ids id c st1 Hc) as Hk.
    rewrite Hk, Hc, (getSpeakerColor_known _ _ _ Hk). by rewrite Hcol.
  - exact Hseen.
  - intros st ids first ninth Hm Hn Hnd H0 H8.
    assert (Hfs : firstSeen ids = ids) by (by apply (firstSeenFrom_NoDup ids [])).
    destruct (Hseen st ids 0%nat first Hm Hn) as [Hf Hfc]; [by rewrite Hfs|].
    destruct (Hseen st ids 8%nat ninth Hm Hn) as [Hl Hlc]; [by rewrite Hfs|].
    split; [done|]. split; [done|]. by rewrite Hfc, Hlc.
Qed.

(** C9 used on nine speakers, starting from a freshly reset session. *)
Lemma getSpeakerColor_ninth_witness :
  speakerColorMap
    (colorCalls [0; 1; 2; 3; 4; 5; 6; 7; 8]%Z (startListening pageLoad)) !! 8%Z
  = Some 0%nat.
Proof.
  apply (proj2 (proj2 (proj2 (proj2 getSpeakerColor_first_seen_order)))
           (startListening pageLoad) [0; 1; 2; 3; 4; 5; 6; 7; 8]%Z 0%Z 8%Z).
  - reflexivity.
  - reflexivity.
  - compute_done.
  - reflexivity.
  - reflexivity.
Defined.

(** ** The theorems at work on the example sessions *)

(** C1 used after the second voice has been sampled: the analysis is
    pending, five samples are there, the only stored profile is that of the
    current speaker 0 and the new voice differs from it, so the event at
    7500 ms mints the id [speakerCount = 1]. *)
Lemma second_voice_mints_witness :
  (detectSpeakerChange 7500 (run secondVoice pageLoad)).1 = 1%Z
  ∧ speakerCount (detectSpeakerChange 7500 (run secondVoice pageLoad)).2 = 2%Z.
Proof.
  assert (Hdom : dom (speakerProfiles (onSilenceGap 7500 (run secondVoice pageLoad)))
                 = ({[ 0%Z ]} : gset Z)) by compute_done.
  assert (Hbuilt : buildFingerprint
                     (voiceSampleBuffer (onSilenceGap 7500 (run secondVoice pageLoad)))
                   = Some secondVoiceBuilt) by (vm_compute; reflexivity).
  assert (Hcur : speakerProfiles (onSilenceGap 7500 (run secondVoice pageLoad))
                   !! currentSpeakerId (run secondVoice pageLoad)
                 = Some firstVoiceProfile) by (vm_compute; reflexivity).
  destruct (detectSpeakerChange_decision 7500 (run secondVoice pageLoad))
    as (fpn & Hb & _ & _ & _ & Hdiffer & _).
  - vm_compute. reflexivity.
  - vm_compute. lia.
  - intros id p Hlk. apply (elem_of_dom_2 (D := gset Z)) in Hlk.
    rewrite Hdom in Hlk. apply elem_of_singleton in Hlk. lia.
  - rewrite Hbuilt in Hb. injection Hb as <-.
    destruct (Hdiffer firstVoiceProfile Hcur) as [_ Hmint]; [vm_compute; reflexivity|].
    destruct Hmint as [Hid Hcount].
    + intros id po Hne Hlk. exfalso.
      apply (elem_of_dom_2 (D := gset Z)) in Hlk.
      rewrite Hdom in Hlk. apply elem_of_singleton in Hlk.
      apply Hne. rewrite Hlk. vm_compute. reflexivity.
    + split; [rewrite Hid|rewrite Hcount]; vm_compute; reflexivity.
Defined.

(** C2 (fingerprint variant) used on a session: the event at 4000 ms
    detects a gap of 3000 ms and returns the current speaker; the event at
    7500 ms, which returns another id, found the analysis pending; and with
    four samples after the gap every returned id is still the old one. *)
Lemma silence_gap_alone_witness :
  (detectSpeakerChange 4000 (run [EvStart; EvSpeech 1000] pageLoad)).1
  = currentSpeakerId (run [EvStart; EvSpeech 1000] pageLoad)
  ∧ pendingAnalysis (run secondVoice pageLoad) = true
  ∧ (0%Z ∈ returnedIds
            (EvSpeech 4000 :: replicate 4 (EvSample 120 800) ++ [EvSpeech 4500])
            (run [EvStart; EvSpeech 1000] pageLoad) →
     0%Z = currentSpeakerId (run [EvStart; EvSpeech 1000] pageLoad)).
Proof.
  destruct silence_gap_alone_keeps_speaker as (Hgap & _ & Hchange & Htrace).
  split; [|split].
  - apply Hgap. vm_compute. reflexivity.
  - apply (Hchange 7500%Z (run secondVoice pageLoad)). vm_compute. discriminate.
  - apply (Htrace 4000%Z (run [EvStart; EvSpeech 1000] pageLoad)
             (replicate 4 (EvSample 120 800) ++ [EvSpeech 4500])).
    + vm_compute. reflexivity.
    + vm_compute. reflexivity.
    + vm_compute. reflexivity.
    + vm_compute. lia.
Defined.

(** C2 as it is written fails on the variant of [src/app.js]: after a reset
    and a first result at 1000 ms, the result at 5000 ms finds a gap of
    4000 ms and returns the new id 1 instead of the current id 0. *)
Lemma silence_gap_changes_speaker_counterexample :
  let st :=
    (AppJs.detectSpeakerChange 1000
       (AppJs.resetSpeakerState
          {| AppJs.currentSpeakerId := 0; AppJs.speakerColorMap := ∅;
             AppJs.nextColorIndex := 0; AppJs.lastSpeechTime := None;
             AppJs.speakerCount := 0 |})).2 in
  AppJs.currentSpeakerId st = 0%Z
  ∧ AppJs.lastSpeechTime st = Some 1000%Z
  ∧ (5000 - 1000 > AppJs.SPEAKER_CHANGE_THRESHOLD)%Z
  ∧ (AppJs.detectSpeakerChange 5000 st).1 = 1%Z
  ∧ (AppJs.detectSpeakerChange 5000 st).1 ≠ AppJs.currentSpeakerId st.
Proof. by vm_compute. Qed.

(** C5 used on the stored profile of speaker 0 and the second voice. *)
Lemma updateSpeakerProfile_witness :
  ∃ existing updated,
    speakerProfiles (run firstVoice pageLoad) !! 0%Z = Some existing
    ∧ speakerProfiles
        (updateSpeakerProfile 0 (Some secondVoicePrint) (run firstVoice pageLoad)) !! 0%Z
      = Some updated
    ∧ sampleCount updated = (sampleCount existing + 1)%nat.
Proof.
  assert (E : speakerProfiles (run firstVoice pageLoad) !! 0%Z = Some firstVoiceProfile)
    by (vm_compute; reflexivity).
  destruct (proj1 (proj2 (proj2 (updateSpeakerProfile_spec 0 (run firstVoice pageLoad))))
              secondVoicePrint firstVoiceProfile E) as (updated & Hu & _ & _ & _ & _ & Hn).
  exists firstVoiceProfile, updated. exact (conj E (conj Hu Hn)).
Defined.


(** C10 used on the same profile. *)
Lemma ewma_update_witness :
  ∃ existing,
    speakerProfiles (run firstVoice pageLoad) !! 0%Z = Some existing
    ∧ (0 < learningRate existing)%Q ∧ (learningRate existing <= 0.3)%Q.
Proof.
  assert (E : speakerProfiles (run firstVoice pageLoad) !! 0%Z = Some firstVoiceProfile)
    by (vm_compute; reflexivity).
  destruct (ewma_update_is_convex 0 secondVoicePrint firstVoiceProfile
              (run firstVoice pageLoad) E) as (Hpos & Hle & _).
  exists firstVoiceProfile. exact (conj E (conj Hpos Hle)).
Defined.

(** * Further properties of the engine *)

(** ** The similarity score *)

(** X1: the similarity score does not depend on the order of its two
    arguments, and it always lies between 0 and 1. *)
Theorem compareFingerprints_symmetric_bounded (a b : option Fingerprint) :
  (compareFingerprints a b == compareFingerprints b a)%Q
  ∧ (0 <= compareFingerprints a b)%Q ∧ (compareFingerprints a b <= 1)%Q.
Proof.
  split; [|apply compare_range].
  destruct a as [a|], b as [b|]; try reflexivity.
  rewrite !compare_formula. apply Q.max_compat; [reflexivity|].
  unfold weighted_distance.
  assert (E : ∀ x y : Q, (Qabs (x - y) == Qabs (y - x))%Q).
  { intros x y.
    setoid_replace (x - y)%Q with (- (y - x))%Q using relation Qeq by ring.
    apply Qabs_opp. }
  rewrite (E (pitchAvg a)), (E (centroidAvg a)). reflexivity.
Qed.

(** ** Saving and loading the speakers *)

(** X2: loading what was just saved.  When the state holds at least one
    profile, [resetSpeakerState] after [saveSpeakerProfiles] brings back the
    same profiles, names and colour map; the speaker count and the next
    colour index come back too, except that a saved 0 is replaced by the
    number of profiles, respectively of colours.  When the state holds no
    profile, the saved names and colours are dropped and the session starts
    from scratch with one speaker.  In both cases the session starts at
    speaker 0 with an empty buffer, no pending analysis and no sampling. *)
Theorem save_then_reset (st : State) :
  let r := resetSpeakerState (saveSpeakerProfiles st) in
  (speakerProfiles st ≠ ∅ →
     speakerProfiles r = speakerProfiles st
     ∧ speakerNames r = speakerNames st
     ∧ speakerColorMap r = speakerColorMap st
     ∧ nextColorIndex r
       = (if (nextColorIndex st =? 0)%nat then size (speakerColorMap st)
          else nextColorIndex st)
     ∧ speakerCount r
       = (if (speakerCount st =? 0)%Z then Z.of_nat (size (speakerProfiles st))
          else speakerCount st))
  ∧ (speakerProfiles st = ∅ →
     speakerProfiles r = ∅ ∧ speakerNames r = ∅ ∧ speakerColorMap r = ∅
     ∧ nextColorIndex r = 0%nat ∧ speakerCount r = 1%Z)
  ∧ currentSpeakerId r = 0%Z
  ∧ lastSpeechTime r = None
  ∧ voiceSampleBuffer r = []
  ∧ pendingAnalysis r = false
  ∧ voiceSampleTimer r = false
  ∧ localStorage r = localStorage (saveSpeakerProfiles st).
Proof.
  cbv zeta.
  unfold resetSpeakerState, loadSpeakerProfiles, stopVoiceSampling, saveSpeakerProfiles.
  cbv zeta. cbn [localStorage set_localStorage profiles names colorMap
                 savedNextColorIndex savedSpeakerCount].
  destruct (Nat.ltb_spec 0 (size (speakerProfiles st))) as [Hsz|Hsz].
  - split; [|split].
    + intros _. simpl. destruct (voiceSampleTimer st) eqn:Ht; simpl; rewrite ?Ht; done.
    + intros E. rewrite E, map_size_empty in Hsz. lia.
    + simpl. destruct (voiceSampleTimer st) eqn:Ht; simpl; rewrite ?Ht; done.
  - assert (E : speakerProfiles st = ∅).
    { apply map_size_empty_iff. lia. }
    split; [|split].
    + intros Hne. done.
    + intros _. simpl. destruct (voiceSampleTimer st) eqn:Ht; simpl; rewrite ?Ht; done.
    + simpl. destruct (voiceSampleTimer st) eqn:Ht; simpl; rewrite ?Ht; done.
Qed.

(** X2 used on the state after the first voice has been heard. *)
Lemma save_reset_witness :
  speakerProfiles (resetSpeakerState (saveSpeakerProfiles (run firstVoice pageLoad)))
  = speakerProfiles (run firstVoice pageLoad).
Proof.
  assert (E : speakerProfiles (run firstVoice pageLoad) !! 0%Z = Some firstVoiceProfile)
    by (vm_compute; reflexivity).
  revert E. generalize (run firstVoice pageLoad) as st. intros st E.
  pose proof (save_then_reset st) as H. cbv zeta in H.
  destruct H as (H & _). apply H.
  intros Hempty. rewrite Hempty, lookup_empty in E. discriminate E.
Defined.

(** ** Sound voices and colours in every reachable state *)

Lemma Qsum_pos (l : list Q) :
  l ≠ [] → Forall (λ x, (0 < x)%Q) l → (0 < Qsum l)%Q.
Proof.
  intros Hne Hall. induction Hall as [|x l Hx Hall IH]; [done|].
  change (Qsum (x :: l)) with (x + Qsum l)%Q.
  destruct l as [|y l].
  - simpl. lra.
  - assert (0 < Qsum (y :: l))%Q by (by apply IH). lra.
Qed.

Lemma Qsum_squares_nonneg (m : Q) (l : list Q) :
  (0 <= Qsum (map (λ x, (x - m) * (x - m)) l))%Q.
Proof.
  induction l as [|x l IH]; cbn [map Qsum]; [lra|].
  assert (0 <= (x - m) * (x - m))%Q by (set (y := (x - m)%Q); nra). lra.
Qed.

Lemma Qlength_pos {A : Type} (l : list A) : l ≠ [] → (0 < Qlength l)%Q.
Proof.
  intros Hne. destruct l as [|a l]; [done|].
  unfold Qlength, Qlt. simpl. lia.
Qed.

Lemma Qdiv_pos (a b : Q) : (0 < a)%Q → (0 < b)%Q → (0 < a / b)%Q.
Proof. intros Ha Hb. apply Qlt_shift_div_l; [done|lra]. Qed.

Lemma Qdiv_nonneg (a b : Q) : (0 <= a)%Q → (0 < b)%Q → (0 <= a / b)%Q.
Proof. intros Ha Hb. apply Qle_shift_div_l; [done|lra]. Qed.

Lemma buildFingerprint_sound (samples : list VoiceSample) (f : Fingerprint) :
  Forall sampleSound samples →
  buildFingerprint samples = Some f →
  printSound f.
Proof.
  intros Hall Hb.
  assert (Hlen : (VOICE_PROFILE_MIN_SAMPLES ≤ length samples)%nat).
  { destruct (Nat.le_gt_cases VOICE_PROFILE_MIN_SAMPLES (length samples)) as [H|H];
      [done|].
    apply buildFingerprintN_none_iff in H. unfold buildFingerprint in Hb. congruence. }
  assert (Hne : samples ≠ []).
  { intros ->. unfold VOICE_PROFILE_MIN_SAMPLES in Hlen. simpl in Hlen. lia. }
  unfold buildFingerprint, buildFingerprintN in Hb.
  destruct (length samples <? VOICE_PROFILE_MIN_SAMPLES)%nat; [done|].
  injection Hb as <-.
  assert (Hp : Forall (λ x, (0 < x)%Q) (map pitch samples)).
  { apply Forall_fmap. eapply Forall_impl; [exact Hall|]. by intros s [? ?]. }
  assert (Hc : Forall (λ x, (0 < x)%Q) (map centroid samples)).
  { apply Forall_fmap. eapply Forall_impl; [exact Hall|]. by intros s [? ?]. }
  assert (Hnp : map pitch samples ≠ []) by (by destruct samples).
  assert (Hnc : map centroid samples ≠ []) by (by destruct samples).
  unfold printSound. cbn [pitchAvg pitchVar centroidAvg centroidVar].
  pose proof (variance_correct (map pitch samples)) as Vp.
  pose proof (variance_correct (map centroid samples)) as Vc.
  cbv zeta in Vp, Vc.
  split; [|split; [|split]].
  - rewrite (mean_correct (map pitch samples)). unfold arithmetic_mean.
    apply Qdiv_pos; [by apply Qsum_pos|by apply Qlength_pos].
  - rewrite Vp. unfold population_variance.
    apply Qdiv_nonneg; [apply Qsum_squares_nonneg|by apply Qlength_pos].
  - rewrite (mean_correct (map centroid samples)). unfold arithmetic_mean.
    apply Qdiv_pos; [by apply Qsum_pos|by apply Qlength_pos].
  - rewrite Vc. unfold population_variance.
    apply Qdiv_nonneg; [apply Qsum_squares_nonneg|by apply Qlength_pos].
Qed.

Lemma convex_pos (alpha old new : Q) :
  (0 < alpha)%Q → (alpha < 1)%Q → (0 < old)%Q → (0 < new)%Q →
  (0 < old * (1 - alpha) + new * alpha)%Q.
Proof. intros. nra. Qed.

Lemma stateSound_frame (st st' : State) :
  voiceSampleBuffer st' = voiceSampleBuffer st →
  speakerProfiles st' = speakerProfiles st →
  speakerColorMap st' = speakerColorMap st →
  nextColorIndex st' = nextColorIndex st →
  localStorage st' = localStorage st →
  stateSound st → stateSound st'.
Proof.
  intros Hb Hp Hm Hn Hs. unfold stateSound. by rewrite Hb, Hp, Hm, Hn, Hs.
Qed.

Lemma stateSound_save (st : State) :
  stateSound st → stateSound (saveSpeakerProfiles st).
Proof.
  intros (Hb & Hp & Hm & Hn & Hs).
  split; [done|]. split; [done|]. split; [done|]. split; [done|].
  by split.
Qed.

Lemma stateSound_update (id : Z) (fp : option Fingerprint) (st : State) :
  stateSound st →
  (∀ f, fp = Some f → printSound f) →
  stateSound (updateSpeakerProfile id fp st).
Proof.
  intros Hinv Hfp.
  assert (∀ p, profileSound p →
            stateSound (set_speakerProfiles (<[id := p]> (speakerProfiles st)) st)) as Hins.
  { intros p Hp. destruct Hinv as (Hb & Hps & Hm & Hn & Hs).
    split; [done|]. split; [|done].
    simpl. by apply map_Forall_insert_2. }
  unfold updateSpeakerProfile.
  destruct fp as [f|]; [|done].
  specialize (Hfp f eq_refl). destruct Hfp as (H1 & H2 & H3 & H4).
  destruct (speakerProfiles st !! id) as [existing|] eqn:E.
  - cbv zeta.
    assert (Hex : profileSound existing).
    { destruct Hinv as (_ & Hps & _). by apply (Hps id). }
    destruct Hex as ((E1 & E2 & E3 & E4) & En).
    destruct (learningRate_range existing) as [Hpos Hle].
    fold (learningRate existing).
    assert (Hlt : (learningRate existing < 1)%Q) by lra.
    match goal with
    | |- stateSound (if _ then saveSpeakerProfiles ?s else _) =>
        assert (stateSound s) as Hnew
    end.
    { apply Hins. split; [|simpl; lia].
      split; [|split; [|split]]; cbn [print pitchAvg pitchVar centroidAvg centroidVar].
      - by apply convex_pos.
      - by apply convex_nonneg.
      - by apply convex_pos.
      - by apply convex_nonneg. }
    case_match; [by apply stateSound_save|done].
  - apply Hins. split; [done|]. simpl. lia.
Qed.

Lemma stateSound_startVoiceSampling (st : State) :
  stateSound st → stateSound (startVoiceSampling st).
Proof.
  intros (Hb & Hp & Hm & Hn & Hs).
  destruct (startVoiceSampling_frame st)
    as (_ & _ & Fm & Fn & _ & _ & Fp & Fb & _ & _ & _ & _ & Fs).
  unfold stateSound. rewrite Fm, Fn, Fp, Fb, Fs. done.
Qed.

Lemma stateSound_onSilenceGap (now : Z) (st : State) :
  stateSound st → stateSound (onSilenceGap now st).
Proof.
  intros Hinv. unfold onSilenceGap. case_match; [|done].
  cbv zeta.
  apply (stateSound_frame
           (startVoiceSampling
              (updateSpeakerProfile (currentSpeakerId st)
                 (buildFingerprint (voiceSampleBuffer st)) st))); try done.
  apply stateSound_startVoiceSampling, stateSound_update; [done|].
  intros f Hf. apply (buildFingerprint_sound (voiceSampleBuffer st)); [|done].
  apply Hinv.
Qed.

Lemma stateSound_analyseVoice (st : State) :
  stateSound st → stateSound (analyseVoice st).
Proof.
  destruct (analyseVoice_frame st) as (_ & Fm & Fn & _ & Fp & Fb & _ & _ & _ & Fs).
  by apply stateSound_frame.
Qed.

Lemma stateSound_getSpeakerColor (id : Z) (st : State) :
  stateSound st → stateSound (getSpeakerColor id st).2.
Proof.
  intros (Hb & Hp & Hm & Hn & Hs).
  unfold getSpeakerColor. cbv zeta. cbn [snd]. case_match; [done|].
  split; [done|]. split; [done|].
  unfold set_nextColorIndex, set_speakerColorMap.
  cbn [speakerColorMap nextColorIndex localStorage].
  split; [|split; [|done]].
  - apply map_Forall_insert_2; [|done].
    change (length SPEAKER_COLORS) with 8%nat. apply Nat.mod_upper_bound. lia.
  - lia.
Qed.

Lemma stateSound_handleResults (now : Z) (st : State) :
  stateSound st → stateSound (handleResults now st).2.
Proof.
  intros Hinv. rewrite handleResults_state.
  apply stateSound_getSpeakerColor.
  rewrite detectSpeakerChange_unfold. cbn [snd].
  apply (stateSound_frame (analyseVoice (onSilenceGap now st))); try done.
  by apply stateSound_analyseVoice, stateSound_onSilenceGap.
Qed.

Lemma resetSpeakerState_colours (st : State) :
  let r := resetSpeakerState st in
  voiceSampleBuffer r = []
  ∧ match localStorage st with
    | Some saved =>
        if (0 <? size (profiles saved))%nat
        then nextColorIndex r
             = (if (savedNextColorIndex saved =? 0)%nat
                then size (colorMap saved) else savedNextColorIndex saved)
             ∧ speakerNames r = names saved
        else nextColorIndex r = 0%nat ∧ speakerNames r = ∅
    | None => nextColorIndex r = 0%nat ∧ speakerNames r = ∅
    end.
Proof.
  unfold resetSpeakerState, loadSpeakerProfiles, stopVoiceSampling. cbv zeta.
  destruct (localStorage st) as [saved|] eqn:E.
  - destruct (0 <? size (profiles saved))%nat; simpl;
      destruct (voiceSampleTimer st); simpl; done.
  - simpl. destruct (voiceSampleTimer st); simpl; done.
Qed.

Lemma stateSound_resetSpeakerState (st : State) :
  savedSound (localStorage st) → stateSound (resetSpeakerState st).
Proof.
  intros Hs.
  destruct (resetSpeakerState_fields st) as (_ & Hl & _ & Hm).
  destruct (resetSpeakerState_colours st) as (Hb & Hn). cbv zeta in *.
  unfold stateSound. rewrite Hl, Hb.
  split; [constructor|].
  destruct (localStorage st) as [saved|] eqn:E.
  - destruct (0 <? size (profiles saved))%nat.
    + destruct Hm as (-> & -> & _). destruct Hn as [-> _].
      destruct Hs as [Hsp Hsc].
      split; [done|]. split; [done|]. split; [|by split].
      destruct (Nat.eqb_spec (savedNextColorIndex saved) 0) as [Hz|Hz]; [|done].
      intros H0. by apply map_size_empty_iff.
    + destruct Hm as (-> & -> & _). destruct Hn as [-> _].
      split; [apply map_Forall_empty|]. split; [apply map_Forall_empty|]. done.
  - destruct Hm as (-> & -> & _). destruct Hn as [-> _].
    split; [apply map_Forall_empty|]. split; [apply map_Forall_empty|]. done.
Qed.

Lemma stateSound_step (e : Event) (st : State) :
  stateSound st → stateSound (step e st).
Proof.
  intros Hinv. destruct e as [|p c|now| |id answer|id| |value|]; cbn [step].
  - unfold startListening. apply stateSound_resetSpeakerState.
    unfold set_recognition. cbn [localStorage].
    destruct (startVoiceSampling_frame st) as (_&_&_&_&_&_&_&_&_&_&_&_&->).
    apply Hinv.
  - destruct (voiceSampleTimer st); [|done].
    unfold collectVoiceSample.
    destruct (Qgtb p 0) eqn:Hp; [|done]. destruct (Qgtb c 0) eqn:Hc; [|done].
    simpl andb. cbv iota.
    destruct Hinv as (Hb & Hrest).
    split; [|done]. simpl. apply Forall_app. split; [done|].
    apply Forall_singleton. split; simpl; by apply Qgtb_true.
  - destruct (recognition st); [|done]. by apply stateSound_handleResults.
  - destruct (recognition st); [|done].
    unfold stopListening. cbv zeta.
    assert (Hinv' : stateSound (stopVoiceSampling st)).
    { destruct (stopVoiceSampling_frame st) as (_ & _ & Fm & _ & Fp & Fb & Fs).
      apply (stateSound_frame st); try done.
      unfold stopVoiceSampling. by destruct (voiceSampleTimer st). }
    apply stateSound_save, stateSound_update; [done|].
    intros f Hf. apply (buildFingerprint_sound _ _ (proj1 Hinv') Hf).
  - unfold renameSpeaker. destruct answer as [newName|]; [|done].
    case_match; [|done]. apply stateSound_save. by apply (stateSound_frame st).
  - unfold deleteSpeaker. apply stateSound_save.
    destruct Hinv as (Hb & Hp & Hm & Hn & Hs).
    split; [done|]. split; [|split; [|split; [|done]]]; simpl.
    + by apply map_Forall_delete.
    + by apply map_Forall_delete.
    + intros H0. rewrite (Hn H0). apply delete_empty.
  - unfold clearSpeakers.
    split; [apply Hinv|]. split; [apply map_Forall_empty|].
    split; [apply map_Forall_empty|]. done.
  - by apply (stateSound_frame st).
  - split; [constructor|]. split; [apply map_Forall_empty|].
    split; [apply map_Forall_empty|]. split; [done|]. apply Hinv.
Qed.

Lemma reachable_stateSound (st : State) : reachable st → stateSound st.
Proof.
  induction 1 as [cfg|e st _ IH].
  - split; [constructor|]. split; [apply map_Forall_empty|].
    split; [apply map_Forall_empty|]. done.
  - by apply stateSound_step.
Qed.

(** X3: in every reachable state the buffered samples have a positive
    pitch and centroid, and every stored profile, in memory and in the
    saved snapshot, has positive pitch and centroid averages, non-negative
    variances and a sample count of at least 1. *)
Theorem reachable_voices_sound (st : State) :
  reachable st →
  (∀ s, s ∈ voiceSampleBuffer st → (0 < pitch s)%Q ∧ (0 < centroid s)%Q)
  ∧ (∀ id p, speakerProfiles st !! id = Some p →
       (0 < pitchAvg (print p))%Q ∧ (0 <= pitchVar (print p))%Q
       ∧ (0 < centroidAvg (print p))%Q ∧ (0 <= centroidVar (print p))%Q
       ∧ (1 ≤ sampleCount p)%nat)
  ∧ (∀ saved id p, localStorage st = Some saved → profiles saved !! id = Some p →
       (0 < pitchAvg (print p))%Q ∧ (0 <= pitchVar (print p))%Q
       ∧ (0 < centroidAvg (print p))%Q ∧ (0 <= centroidVar (print p))%Q
       ∧ (1 ≤ sampleCount p)%nat).
Proof.
  intros Hreach.
  destruct (reachable_stateSound st Hreach) as (Hb & Hp & _ & _ & Hs).
  split; [|split].
  - intros s Hin. rewrite Forall_forall in Hb. by apply Hb.
  - intros id p Hlk. destruct (Hp id p Hlk) as ((?&?&?&?)&?). done.
  - intros saved id p Hsv Hlk. rewrite Hsv in Hs. destruct Hs as [Hsp _].
    destruct (Hsp id p Hlk) as ((?&?&?&?)&?). done.
Qed.

(** X3 used on the stored profile of the first voice. *)
Lemma voices_sound_witness :
  (0 < pitchAvg (print firstVoiceProfile))%Q
  ∧ (1 ≤ sampleCount firstVoiceProfile)%nat.
Proof.
  assert (E : speakerProfiles (run firstVoice pageLoad) !! 0%Z = Some firstVoiceProfile)
    by (vm_compute; reflexivity).
  destruct (reachable_voices_sound (run firstVoice pageLoad)) as (_ & Hp & _).
  - apply reachable_run, reachable_init.
  - destruct (Hp 0%Z firstVoiceProfile E) as (H1 & _ & _ & _ & H5).
    exact (conj H1 H5).
Defined.

Lemma stateSound_detect (now : Z) (st : State) :
  stateSound st → stateSound (detectSpeakerChange now st).2.
Proof.
  intros Hinv. rewrite detectSpeakerChange_unfold. cbn [snd].
  apply (stateSound_frame (analyseVoice (onSilenceGap now st))); try done.
  by apply stateSound_analyseVoice, stateSound_onSilenceGap.
Qed.

Lemma getSpeakerColor_defined (id : Z) (st : State) :
  stateSound st → is_Some (getSpeakerColor id st).1.
Proof.
  intros (_ & _ & Hm & _).
  destruct (speakerColorMap st !! id) as [c|] eqn:E.
  - rewrite (getSpeakerColor_known _ _ _ E). cbn [fst].
    apply lookup_lt_is_Some. change (length SPEAKER_COLORS) with 8%nat.
    by apply (Hm id).
  - rewrite (getSpeakerColor_first _ _ E). cbn [fst].
    apply lookup_lt_is_Some. change (length SPEAKER_COLORS) with 8%nat.
    apply Nat.mod_upper_bound. lia.
Qed.

(** X4: in every reachable state every assigned colour index is below 8,
    so [getSpeakerColor] returns a palette entry for every speaker id, and
    so does every speech event. *)
Theorem reachable_colour_defined (st : State) :
  reachable st →
  (∀ id c, speakerColorMap st !! id = Some c → (c < 8)%nat)
  ∧ (∀ id, is_Some (getSpeakerColor id st).1)
  ∧ (∀ now, is_Some (handleResults now st).1.2).
Proof.
  intros Hreach. pose proof (reachable_stateSound st Hreach) as Hinv.
  split; [|split].
  - intros id c Hlk. destruct Hinv as (_ & _ & Hm & _). by apply (Hm id).
  - intros id. by apply getSpeakerColor_defined.
  - intros now.
    change ((handleResults now st).1.2)
      with (getSpeakerColor (detectSpeakerChange now st).1
              (detectSpeakerChange now st).2).1.
    by apply getSpeakerColor_defined, stateSound_detect.
Qed.

(** X4 used on the state after three voices. *)
Lemma colour_defined_witness :
  is_Some (handleResults 20000 (run threeVoices pageLoad)).1.2.
Proof.
  apply (reachable_colour_defined (run threeVoices pageLoad)).
  apply reachable_run, reachable_init.
Defined.

(** ** Sessions *)

Lemma load_snapshot (st : State) (saved : SavedSpeakers) :
  localStorage st = Some saved →
  profiles saved ≠ ∅ →
  let r := resetSpeakerState st in
  speakerProfiles r = profiles saved
  ∧ speakerNames r = names saved
  ∧ speakerColorMap r = colorMap saved
  ∧ nextColorIndex r
    = (if (savedNextColorIndex saved =? 0)%nat then size (colorMap saved)
       else savedNextColorIndex saved)
  ∧ speakerCount r
    = (if (savedSpeakerCount saved =? 0)%Z then Z.of_nat (size (profiles saved))
       else savedSpeakerCount saved)
  ∧ currentSpeakerId r = 0%Z.
Proof.
  intros Hs Hne.
  destruct (resetSpeakerState_fields st) as (_ & _ & Hc & Hm).
  destruct (resetSpeakerState_colours st) as (_ & Hn). cbv zeta in *.
  rewrite Hs in Hm, Hn.
  destruct (Nat.ltb_spec 0 (size (profiles saved))) as [Hsz|Hsz].
  - destruct Hm as (? & ? & ?). destruct Hn as [? ?]. done.
  - exfalso. apply Hne. apply map_size_empty_iff. lia.
Qed.

(** X5: identities carry over from one session to the next.  When a
    running session of a reachable state is stopped and at least one
    profile is stored by then, the next session, started with or without a
    page reload in between, begins with exactly the profiles, names, colour
    map, next colour index and speaker count that the stopped session had,
    and with speaker 0 as the current speaker. *)
Theorem session_round_trip (st : State) :
  reachable st → recognition st = true →
  let stopped := stopListening st in
  speakerProfiles stopped ≠ ∅ →
  ∀ next,
    next = startListening stopped
    ∨ next = startListening (initialState (settings stopped) (localStorage stopped)) →
    speakerProfiles next = speakerProfiles stopped
    ∧ speakerNames next = speakerNames stopped
    ∧ speakerColorMap next = speakerColorMap stopped
    ∧ nextColorIndex next = nextColorIndex stopped
    ∧ speakerCount next = speakerCount stopped
    ∧ currentSpeakerId next = 0%Z.
Proof.
  intros Hreach Hrec stopped Hne next Hnext.
  assert (Hreach' : reachable stopped).
  { replace stopped with (step EvStop st); [by constructor|].
    cbn [step]. by rewrite Hrec. }
  destruct (reachable_idsBounded _ Hreach') as (_ & Hids & _).
  destruct (reachable_stateSound _ Hreach') as (_ & _ & _ & Hn0 & _).
  set (snapshot := {| profiles := speakerProfiles stopped;
                      names := speakerNames stopped;
                      colorMap := speakerColorMap stopped;
                      savedNextColorIndex := nextColorIndex stopped;
                      savedSpeakerCount := speakerCount stopped |}).
  assert (Hls : localStorage stopped = Some snapshot) by reflexivity.
  assert (Hload : ∀ s, localStorage s = Some snapshot →
    speakerProfiles (resetSpeakerState s) = speakerProfiles stopped
    ∧ speakerNames (resetSpeakerState s) = speakerNames stopped
    ∧ speakerColorMap (resetSpeakerState s) = speakerColorMap stopped
    ∧ nextColorIndex (resetSpeakerState s) = nextColorIndex stopped
    ∧ speakerCount (resetSpeakerState s) = speakerCount stopped
    ∧ currentSpeakerId (resetSpeakerState s) = 0%Z).
  { intros s Hs.
    destruct (load_snapshot s snapshot Hs Hne) as (Hp & Hnm & Hm & Hn & Hc & Hcur).
    cbn [profiles names colorMap savedNextColorIndex savedSpeakerCount snapshot] in *.
    split; [exact Hp|]. split; [exact Hnm|]. split; [exact Hm|].
    split; [|split; [|exact Hcur]].
    - rewrite Hn. destruct (Nat.eqb_spec (nextColorIndex stopped) 0) as [Hz|Hz];
        [|reflexivity].
      rewrite (Hn0 Hz), Hz. apply map_size_empty.
    - rewrite Hc. destruct (Z.eqb_spec (speakerCount stopped) 0) as [Hz|Hz];
        [|reflexivity].
      exfalso. destruct (map_choose _ Hne) as (k & v & Hk).
      assert (k ∈ dom (speakerProfiles stopped) ∪ dom (speakerColorMap stopped)) as Hin.
      { apply elem_of_union_l, elem_of_dom. by exists v. }
      specialize (Hids k Hin). lia. }
  destruct Hnext as [-> | ->]; unfold startListening; apply Hload;
    unfold set_recognition; cbn [localStorage].
  - destruct (startVoiceSampling_frame stopped) as (_&_&_&_&_&_&_&_&_&_&_&_&->).
    exact Hls.
  - match goal with
    | |- localStorage (startVoiceSampling ?x) = _ =>
        destruct (startVoiceSampling_frame x) as (_&_&_&_&_&_&_&_&_&_&_&_&->)
    end.
    exact Hls.
Qed.


(** X5 used on the session with three voices, with a page reload before
    the next session. *)
Lemma round_trip_witness :
  speakerCount
    (startListening
       (initialState (settings (stopListening (run threeVoices pageLoad)))
          (localStorage (stopListening (run threeVoices pageLoad)))))
  = speakerCount (stopListening (run threeVoices pageLoad)).
Proof.
  assert (Hreach : reachable (run threeVoices pageLoad))
    by apply reachable_run, reachable_init.
  assert (Hrec : recognition (run threeVoices pageLoad) = true)
    by (vm_compute; reflexivity).
  assert (Hsize : size (speakerProfiles (stopListening (run threeVoices pageLoad))) = 3%nat)
    by (vm_compute; reflexivity).
  assert (Hne : speakerProfiles (stopListening (run threeVoices pageLoad)) ≠ ∅).
  { intros E. rewrite E, map_size_empty in Hsize. discriminate Hsize. }
  exact (proj1 (proj2 (proj2 (proj2 (proj2
           (session_round_trip (run threeVoices pageLoad) Hreach Hrec Hne _
              (or_intror eq_refl))))))).
Defined.

(** ** Speech without silence gaps *)

Lemma detect_quiet (now : Z) (st : State) :
  pendingAnalysis st = false →
  (silenceGap now st ≤ SPEAKER_ANALYSIS_THRESHOLD)%Z →
  detectSpeakerChange now st
  = (currentSpeakerId st, set_lastSpeechTime (Some now) st).
Proof.
  intros Hp Hg. rewrite detectSpeakerChange_unfold.
  rewrite onSilenceGap_no_gap by done.
  rewrite analyseVoice_idle by (by left). reflexivity.
Qed.

Lemma collectVoiceSample_keeps (p c : Q) (st : State) :
  let st' := collectVoiceSample p c st in
  pendingAnalysis st' = pendingAnalysis st
  ∧ voiceSampleTimer st' = voiceSampleTimer st
  ∧ recognition st' = recognition st.
Proof. unfold collectVoiceSample. cbv zeta. by case_match. Qed.

Lemma step_speech_quiet (now : Z) (st : State) :
  pendingAnalysis st = false →
  (silenceGap now st ≤ SPEAKER_ANALYSIS_THRESHOLD)%Z →
  let st' := (handleResults now st).2 in
  (handleResults now st).1.1 = currentSpeakerId st
  ∧ currentSpeakerId st' = currentSpeakerId st
  ∧ speakerProfiles st' = speakerProfiles st
  ∧ speakerCount st' = speakerCount st
  ∧ pendingAnalysis st' = false
  ∧ voiceSampleBuffer st' = voiceSampleBuffer st
  ∧ voiceSampleTimer st' = voiceSampleTimer st
  ∧ recognition st' = recognition st.
Proof.
  intros Hp Hg. cbv zeta.
  rewrite handleResults_id, handleResults_state, (detect_quiet now st Hp Hg).
  cbn [fst snd].
  destruct (getSpeakerColor_frame (currentSpeakerId st)
              (set_lastSpeechTime (Some now) st))
    as (Fr & Fc & _ & Fn & Fp & Fb & Ft & _ & Fpe & _).
  rewrite Fr, Fc, Fn, Fp, Fb, Ft, Fpe. simpl. by rewrite Hp.
Qed.

Lemma run_cons (e : Event) (events : list Event) (st : State) :
  run (e :: events) st = run events (step e st).
Proof. reflexivity. Qed.

(** Along a run of sampling and speech events without a silence gap,
    from a state without a pending analysis, nothing of the speaker
    tracking moves. *)
Lemma quiet_run (events : list Event) (st : State) :
  pendingAnalysis st = false →
  forallb isSampleOrSpeech events = true →
  noGaps events st = true →
  (∀ id, id ∈ returnedIds events st → id = currentSpeakerId st)
  ∧ currentSpeakerId (run events st) = currentSpeakerId st
  ∧ speakerProfiles (run events st) = speakerProfiles st
  ∧ speakerCount (run events st) = speakerCount st
  ∧ pendingAnalysis (run events st) = false.
Proof.
  revert st. induction events as [|e events IH]; intros st Hp Hall Hq.
  { split; [|done]. intros id Hid. by apply elem_of_nil in Hid. }
  cbn [forallb] in Hall. apply andb_true_iff in Hall as [He Hall].
  destruct e as [|p c|now| | | | | |]; try discriminate He;
    cbn [noGaps] in Hq; cbn [returnedIds]; rewrite run_cons.
  - assert (Hstep : pendingAnalysis (step (EvSample p c) st) = false
                    ∧ currentSpeakerId (step (EvSample p c) st) = currentSpeakerId st
                    ∧ speakerProfiles (step (EvSample p c) st) = speakerProfiles st
                    ∧ speakerCount (step (EvSample p c) st) = speakerCount st).
    { cbn [step]. destruct (voiceSampleTimer st); [|done].
      destruct (collectVoiceSample_keeps p c st) as (-> & _).
      destruct (collectVoiceSample_frame p c st) as (_&->&_&_&->&->&_). done. }
    destruct Hstep as (Hp' & Hc' & Hpr' & Hn').
    destruct (IH _ Hp' Hall Hq) as (Hids & Hc & Hpr & Hn & Hpe).
    rewrite Hc' in Hids, Hc. rewrite Hpr' in Hpr. rewrite Hn' in Hn. done.
  - apply andb_true_iff in Hq as [Hg Hq]. apply Z.leb_le in Hg.
    destruct (step_speech_quiet now st Hp Hg)
      as (Hid & Hc' & Hpr' & Hn' & Hp' & _ & _ & Hr').
    cbv zeta in *.
    assert (Hstep : pendingAnalysis (step (EvSpeech now) st) = false
                    ∧ currentSpeakerId (step (EvSpeech now) st) = currentSpeakerId st
                    ∧ speakerProfiles (step (EvSpeech now) st) = speakerProfiles st
                    ∧ speakerCount (step (EvSpeech now) st) = speakerCount st).
    { cbn [step]. by destruct (recognition st). }
    destruct Hstep as (Hp2 & Hc2 & Hpr2 & Hn2).
    destruct (IH _ Hp2 Hall Hq) as (Hids & Hc & Hpr & Hn & Hpe).
    rewrite Hc2 in Hids, Hc. rewrite Hpr2 in Hpr. rewrite Hn2 in Hn.
    split; [|done].
    intros id Hin. destruct (recognition st); [|by apply Hids].
    apply elem_of_cons in Hin as [->|Hin]; [done|by apply Hids].
Qed.

(** With the sampling timer off as well, no sample is stored and the timer
    stays off. *)
Lemma quiet_run_unsampled (events : list Event) (s : State) :
  forallb isSampleOrSpeech events = true →
  noGaps events s = true →
  voiceSampleTimer s = false →
  pendingAnalysis s = false →
  voiceSampleBuffer (run events s) = voiceSampleBuffer s
  ∧ voiceSampleTimer (run events s) = false.
Proof.
  revert s. induction events as [|e events IH]; intros s Hall Hq Ht Hp; [done|].
  cbn [forallb] in Hall. apply andb_true_iff in Hall as [He Hall].
  rewrite run_cons.
  destruct e as [|p c|now| | | | | |]; try discriminate He; cbn [noGaps] in Hq.
  - cbn [step] in *. rewrite Ht in *. by apply IH.
  - apply andb_true_iff in Hq as [Hg Hq]. apply Z.leb_le in Hg.
    destruct (step_speech_quiet now s Hp Hg) as (_&_&_&_&Hp'&Hb'&Ht'&_).
    cbv zeta in *. cbn [step] in *.
    destruct (recognition s); [|by apply IH].
    destruct (IH (handleResults now s).2 Hall Hq) as [Hb Htm];
      [by rewrite Ht'|done|].
    by rewrite Hb, Hb'.
Qed.

(** X6: a stable stream.  From a state without a pending analysis, along
    any run of sampling and speech events in which no speech event finds a
    silence gap above the analysis threshold, every returned id is the
    current speaker, and the current speaker, the stored profiles and the
    speaker count stay as they are. *)
Theorem no_gap_no_change (events : list Event) (st : State) :
  pendingAnalysis st = false →
  forallb isSampleOrSpeech events = true →
  noGaps events st = true →
  (∀ id, id ∈ returnedIds events st → id = currentSpeakerId st)
  ∧ currentSpeakerId (run events st) = currentSpeakerId st
  ∧ speakerProfiles (run events st) = speakerProfiles st
  ∧ speakerCount (run events st) = speakerCount st
  ∧ pendingAnalysis (run events st) = false.
Proof. apply quiet_run. Qed.

(** X6 used on the start of a session: three results one second apart. *)
Lemma stable_stream_witness :
  currentSpeakerId
    (run [EvSpeech 1000; EvSample 300 3000; EvSpeech 2000; EvSpeech 3000]
       (startListening pageLoad))
  = currentSpeakerId (startListening pageLoad).
Proof.
  assert (Hp : pendingAnalysis (startListening pageLoad) = false)
    by (vm_compute; reflexivity).
  assert (Hall : forallb isSampleOrSpeech
                   [EvSpeech 1000; EvSample 300 3000; EvSpeech 2000; EvSpeech 3000]
                 = true) by (vm_compute; reflexivity).
  assert (Hq : noGaps [EvSpeech 1000; EvSample 300 3000; EvSpeech 2000; EvSpeech 3000]
                 (startListening pageLoad) = true) by (vm_compute; reflexivity).
  exact (proj1 (proj2 (no_gap_no_change _ _ Hp Hall Hq))).
Defined.

Lemma resetSpeakerState_session (st : State) :
  let r := resetSpeakerState st in
  recognition r = recognition st
  ∧ currentSpeakerId r = 0%Z
  ∧ lastSpeechTime r = None
  ∧ voiceSampleBuffer r = []
  ∧ voiceSampleTimer r = false
  ∧ pendingAnalysis r = false.
Proof.
  unfold resetSpeakerState, loadSpeakerProfiles, stopVoiceSampling. cbv zeta.
  destruct (localStorage st) as [saved|].
  - destruct (0 <? size (profiles saved))%nat; simpl;
      destruct (voiceSampleTimer st) eqn:Ht; simpl; rewrite ?Ht; done.
  - simpl. destruct (voiceSampleTimer st) eqn:Ht; simpl; rewrite ?Ht; done.
Qed.

Lemma startListening_fields (st : State) :
  let r := startListening st in
  recognition r = true
  ∧ currentSpeakerId r = 0%Z
  ∧ lastSpeechTime r = None
  ∧ voiceSampleBuffer r = []
  ∧ voiceSampleTimer r = false
  ∧ pendingAnalysis r = false.
Proof.
  unfold startListening.
  destruct (resetSpeakerState_session (set_recognition true (startVoiceSampling st)))
    as (Hr & H). cbv zeta in *. by rewrite Hr.
Qed.

(** X7: the first utterance of a session is never sampled.
    [startListening] starts the sampling timer and then stops it again
    when it resets the speaker state, and only a silence gap restarts it.
    So along any run of sampling and speech events after [startListening]
    in which no speech event finds a silence gap, the sample buffer stays
    empty, sampling stays off, every returned id is 0 and the profiles stay
    those that the session started with. *)
Theorem first_utterance_not_sampled (events : list Event) (st : State) :
  forallb isSampleOrSpeech events = true →
  noGaps events (startListening st) = true →
  voiceSampleBuffer (run events (startListening st)) = []
  ∧ voiceSampleTimer (run events (startListening st)) = false
  ∧ (∀ id, id ∈ returnedIds events (startListening st) → id = 0%Z)
  ∧ speakerProfiles (run events (startListening st))
    = speakerProfiles (startListening st).
Proof.
  intros Hall Hq.
  destruct (startListening_fields st) as (_ & Hc & _ & Hb & Ht & Hp). cbv zeta in *.
  destruct (quiet_run events (startListening st) Hp Hall Hq)
    as (Hids & _ & Hpr & _ & _).
  destruct (quiet_run_unsampled events (startListening st) Hall Hq Ht Hp)
    as (Hbuf & Htm).
  rewrite Hc in Hids. rewrite Hb in Hbuf. done.
Qed.

(** X7 used on the start of a session: the sample offered between the
    first results is not stored. *)
Lemma first_utterance_witness :
  voiceSampleBuffer
    (run [EvSpeech 1000; EvSample 300 3000; EvSpeech 2000; EvSpeech 3000]
       (startListening pageLoad))
  = [].
Proof.
  assert (Hall : forallb isSampleOrSpeech
                   [EvSpeech 1000; EvSample 300 3000; EvSpeech 2000; EvSpeech 3000]
                 = true) by (vm_compute; reflexivity).
  assert (Hq : noGaps [EvSpeech 1000; EvSample 300 3000; EvSpeech 2000; EvSpeech 3000]
                 (startListening pageLoad) = true) by (vm_compute; reflexivity).
  exact (proj1 (first_utterance_not_sampled _ _ Hall Hq)).
Defined.

(** X8: deleting a saved speaker before any session has been started
    forgets all saved speakers.  Right after a page load the in-memory
    tables are still empty; the delete handler removes the id from them
    and saves them, so whatever was saved is overwritten by an empty
    snapshot, and the next session starts from scratch. *)
Theorem delete_before_session_forgets_all (cfg : Settings) (saved : SavedSpeakers)
    (id : Z) :
  let st := deleteSpeaker id (initialState cfg (Some saved)) in
  localStorage st
  = Some {| profiles := ∅; names := ∅; colorMap := ∅;
            savedNextColorIndex := 0; savedSpeakerCount := 0 |}
  ∧ speakerProfiles (startListening st) = ∅
  ∧ speakerNames (startListening st) = ∅
  ∧ speakerColorMap (startListening st) = ∅
  ∧ speakerCount (startListening st) = 1%Z.
Proof.
  cbv zeta.
  assert (Hls : localStorage (deleteSpeaker id (initialState cfg (Some saved)))
                = Some {| profiles := ∅; names := ∅; colorMap := ∅;
                          savedNextColorIndex := 0; savedSpeakerCount := 0 |}).
  { unfold deleteSpeaker, saveSpeakerProfiles, initialState. simpl.
    by rewrite !delete_empty. }
  split; [exact Hls|].
  set (st := deleteSpeaker id (initialState cfg (Some saved))) in *.
  unfold startListening.
  set (s := set_recognition true (startVoiceSampling st)).
  assert (Hs : localStorage s
               = Some {| profiles := ∅; names := ∅; colorMap := ∅;
                         savedNextColorIndex := 0; savedSpeakerCount := 0 |}).
  { unfold s, set_recognition. cbn [localStorage].
    destruct (startVoiceSampling_frame st) as (_&_&_&_&_&_&_&_&_&_&_&_&->).
    exact Hls. }
  destruct (resetSpeakerState_fields s) as (_ & _ & _ & Hm).
  destruct (resetSpeakerState_colours s) as (_ & Hn). cbv zeta in *.
  rewrite Hs in Hm, Hn. cbn [profiles] in Hm, Hn.
  rewrite map_size_empty in Hm, Hn. simpl in Hm, Hn.
  destruct Hm as (? & ? & ?). destruct Hn as [_ ?]. done.
Qed.

(** ** Ties between stored speakers *)

Lemma Object_entries_sorted {V : Type} (m : gmap Z V) :
  StronglySorted (λ x y : Z * V, (x.1 ≤ y.1)%Z) (Object_entries m).
Proof.
  unfold Object_entries.
  assert (Htrans : Transitive (λ x y : Z * V, Is_true (x.1 <=? y.1)%Z)).
  { intros x y z Hxy Hyz. apply Is_true_true in Hxy, Hyz. apply Is_true_true.
    apply Z.leb_le in Hxy, Hyz. apply Z.leb_le. lia. }
  assert (Htotal : Total (λ x y : Z * V, Is_true (x.1 <=? y.1)%Z)).
  { intros x y. destruct (Z.le_ge_cases x.1 y.1) as [H|H].
    - left. apply Is_true_true, Z.leb_le. lia.
    - right. apply Is_true_true, Z.leb_le. lia. }
  pose proof (StronglySorted_merge_sort
                (λ x y : Z * V, Is_true (x.1 <=? y.1)%Z) (map_to_list m)) as Hs.
  induction Hs as [|x l Hs IH Hall]; constructor; [done|].
  eapply Forall_impl; [exact Hall|].
  intros y Hy. apply Is_true_true in Hy. by apply Z.leb_le.
Qed.

Lemma fold_matchStep_first (fpn : Fingerprint) (cur : Z)
    (entries : list (Z * SpeakerProfile)) (best0 : Z * Q) :
  let best := fold_left (matchStep fpn cur) entries best0 in
  best = best0
  ∨ ∃ l1 e l2,
      entries = l1 ++ e :: l2 ∧ e.1 ≠ cur
      ∧ best = (e.1, similarityTo fpn e.2)
      ∧ (best0.2 < similarityTo fpn e.2)%Q
      ∧ (∀ e', e' ∈ l1 → e'.1 ≠ cur →
           (similarityTo fpn e'.2 < similarityTo fpn e.2)%Q).
Proof.
  revert best0. induction entries as [|e entries IH]; intros best0; cbv zeta.
  { by left. }
  cbn [fold_left].
  destruct (IH (matchStep fpn cur best0 e)) as [Hsame|(l1 & e2 & l2 & -> & Hne & Hb & Hlt & Hl1)].
  - (* nothing later beats the pair after [e] *)
    rewrite Hsame. unfold matchStep.
    fold (similarityTo fpn e.2).
    destruct (Z.eqb_spec e.1 cur) as [Heq|Hne]; [by left|].
    destruct (Qgtb (similarityTo fpn e.2) best0.2) eqn:Hgt; [|by left].
    apply Qgtb_true in Hgt. right. exists [], e, entries.
    split; [done|]. split; [done|]. split; [done|]. split; [done|].
    intros e' He'. by apply elem_of_nil in He'.
  - right. exists (e :: l1), e2, l2.
    split; [done|]. split; [done|]. split; [done|].
    unfold matchStep in Hlt. fold (similarityTo fpn e.2) in Hlt.
    destruct (Z.eqb_spec e.1 cur) as [Heq|Hne'].
    + split; [done|]. intros e' He' Hne''.
      apply elem_of_cons in He' as [->|He']; [done|by apply Hl1].
    + destruct (Qgtb (similarityTo fpn e.2) best0.2) eqn:Hgt.
      * apply Qgtb_true in Hgt. simpl in Hlt. split; [lra|].
        intros e' He' Hne''.
        apply elem_of_cons in He' as [->|He']; [done|by apply Hl1].
      * apply Qgtb_false in Hgt. split; [done|].
        intros e' He' Hne''.
        apply elem_of_cons in He' as [->|He']; [lra|by apply Hl1].
Qed.

(** X9: ties go to the lowest id.  The search over the other stored
    profiles returns [(-1, 0)] when none of them has a positive similarity;
    otherwise it returns a stored speaker other than the current one with
    the highest similarity, and among the speakers that reach this highest
    similarity the one with the smallest id. *)
Theorem best_match_prefers_lowest_id (fpn : Fingerprint) (st : State) :
  let best := findBestMatch fpn st in
  let cur := currentSpeakerId st in
  ((∀ id p, id ≠ cur → speakerProfiles st !! id = Some p →
            (similarityTo fpn p <= 0)%Q) →
   best = ((-1)%Z, 0%Q))
  ∧ (∀ id p, id ≠ cur → speakerProfiles st !! id = Some p →
       (0 < similarityTo fpn p)%Q →
       ∃ pb, best.1 ≠ cur ∧ speakerProfiles st !! best.1 = Some pb
             ∧ best.2 = similarityTo fpn pb
             ∧ ∀ id' p', id' ≠ cur → speakerProfiles st !! id' = Some p' →
                 (similarityTo fpn p' <= best.2)%Q
                 ∧ ((similarityTo fpn p' == best.2)%Q → (best.1 ≤ id')%Z)).
Proof.
  cbv zeta.
  destruct (findBestMatch_spec fpn st) as (H0 & Hmax & Hcase). cbv zeta in *.
  split.
  - intros Hall. destruct Hcase as [Hb|(pb & Hne & Hlk & Hs & Hpos)]; [done|].
    pose proof (Hall _ _ Hne Hlk). rewrite Hs in Hpos. lra.
  - intros id p Hne Hlk Hpos.
    pose proof (Hmax id p Hne Hlk) as Hle.
    unfold findBestMatch in *.
    destruct (fold_matchStep_first fpn (currentSpeakerId st)
                (Object_entries (speakerProfiles st)) ((-1)%Z, 0%Q))
      as [Hsame|(l1 & e & l2 & Hl & Hene & Hb & Hlt & Hl1)]; cbv zeta in *.
    { rewrite Hsame in Hle. simpl in Hle. lra. }
    assert (He : e ∈ Object_entries (speakerProfiles st)).
    { rewrite Hl. apply elem_of_app. right. by apply elem_of_cons; left. }
    destruct e as [be pb]. apply Object_entries_elem in He.
    exists pb. rewrite Hb. cbn [fst snd] in *.
    split; [done|]. split; [done|]. split; [done|].
    intros id' p' Hne' Hlk'. split.
    { pose proof (Hmax id' p' Hne' Hlk') as Hle'. by rewrite Hb in Hle'. }
    intros Heq.
    assert (Hin : (id', p') ∈ Object_entries (speakerProfiles st))
      by (by apply Object_entries_elem).
    rewrite Hl in Hin. apply elem_of_app in Hin as [Hin|Hin].
    + pose proof (Hl1 _ Hin Hne') as Hlt'. cbn [fst snd] in Hlt'. lra.
    + apply elem_of_cons in Hin as [Hin|Hin]; [injection Hin as -> _; lia|].
      pose proof (Object_entries_sorted (speakerProfiles st)) as Hsorted.
      rewrite Hl in Hsorted. apply StronglySorted_app in Hsorted as (_ & _ & Hs2).
      apply StronglySorted_cons in Hs2 as [Hall _].
      rewrite Forall_forall in Hall. by apply (Hall (id', p')).
Qed.

(** X9 used after three voices: a voice like the second is matched to the
    stored speaker 1. *)
Lemma best_match_witness :
  ∃ pb,
    (findBestMatch secondVoicePrint (run threeVoices pageLoad)).1
    ≠ currentSpeakerId (run threeVoices pageLoad)
    ∧ speakerProfiles (run threeVoices pageLoad)
        !! (findBestMatch secondVoicePrint (run threeVoices pageLoad)).1 = Some pb.
Proof.
  assert (Hne : 1%Z ≠ currentSpeakerId (run threeVoices pageLoad))
    by (vm_compute; discriminate).
  assert (Hlk : speakerProfiles (run threeVoices pageLoad) !! 1%Z
                = Some {| print := secondVoiceBuilt; sampleCount := 1 |})
    by (vm_compute; reflexivity).
  assert (Hpos : (0 < similarityTo secondVoicePrint
                        {| print := secondVoiceBuilt; sampleCount := 1 |})%Q)
    by (vm_compute; reflexivity).
  destruct (proj2 (best_match_prefers_lowest_id secondVoicePrint
                     (run threeVoices pageLoad)) 1%Z _ Hne Hlk Hpos)
    as (pb & H1 & H2 & _).
  exists pb. exact (conj H1 H2).
Defined.

(** ** The plain silence-gap variant *)

Lemma appJs_detect_step (now : Z) (st : AppJs.State) :
  AppJs.speakerCount st = (AppJs.currentSpeakerId st + 1)%Z →
  let r := AppJs.detectSpeakerChange now st in
  r.1 = AppJs.currentSpeakerId r.2
  ∧ AppJs.currentSpeakerId r.2
    = (AppJs.currentSpeakerId st + pausesIn (AppJs.lastSpeechTime st) [now])%Z
  ∧ AppJs.speakerCount r.2 = (AppJs.currentSpeakerId r.2 + 1)%Z
  ∧ AppJs.lastSpeechTime r.2 = Some now.
Proof.
  intros Hc. unfold AppJs.detectSpeakerChange. cbv zeta. cbn [fst snd pausesIn].
  destruct (AppJs.lastSpeechTime st) as [t|]; simpl.
  - destruct (negb (t =? 0)%Z && (now - t >? AppJs.SPEAKER_CHANGE_THRESHOLD)%Z);
      simpl; repeat split; lia.
  - repeat split; lia.
Qed.

(** X10: in the variant of [src/app.js] the speaker number counts the
    pauses.  From a state whose speaker count is one more than the current
    speaker (as after [resetSpeakerState]), after any series of results the
    current speaker has advanced by exactly the number of results that came
    more than 2000 ms after their predecessor, the speaker count is still
    one more than the current speaker, and each returned id is at least the
    id before it and at most one more. *)
Theorem appJs_speaker_counts_pauses (nows : list Z) (st : AppJs.State) :
  AppJs.speakerCount st = (AppJs.currentSpeakerId st + 1)%Z →
  AppJs.currentSpeakerId (appJsRun nows st)
  = (AppJs.currentSpeakerId st + pausesIn (AppJs.lastSpeechTime st) nows)%Z
  ∧ AppJs.speakerCount (appJsRun nows st)
    = (AppJs.currentSpeakerId (appJsRun nows st) + 1)%Z
  ∧ (∀ i a b, appJsReturned nows st !! i = Some a →
       appJsReturned nows st !! S i = Some b → (a ≤ b ≤ a + 1)%Z)
  ∧ (∀ a, appJsReturned nows st !! 0%nat = Some a →
       (AppJs.currentSpeakerId st ≤ a ≤ AppJs.currentSpeakerId st + 1)%Z).
Proof.
  revert st. induction nows as [|now nows IH]; intros st Hc.
  { simpl. split; [lia|]. split; [done|]. split; [done|]. done. }
  destruct (appJs_detect_step now st Hc) as (Hr & Hcur & Hcnt & Hlast). cbv zeta in *.
  destruct (IH _ Hcnt) as (IH1 & IH2 & IH3 & IH4).
  assert (Hp : (0 ≤ pausesIn (AppJs.lastSpeechTime st) [now] ≤ 1)%Z).
  { cbn [pausesIn]. destruct (AppJs.lastSpeechTime st) as [t|]; [|lia].
    destruct (negb (t =? 0)%Z && (now - t >? AppJs.SPEAKER_CHANGE_THRESHOLD)%Z); lia. }
  change (appJsRun (now :: nows) st)
    with (appJsRun nows (AppJs.detectSpeakerChange now st).2).
  cbn [appJsReturned].
  split; [|split; [done|split]].
  - rewrite IH1, Hcur, Hlast. cbn [pausesIn]. lia.
  - intros [|i] a b Ha Hb.
    + assert (Ha' : a = (AppJs.detectSpeakerChange now st).1)
        by (change (Some (AppJs.detectSpeakerChange now st).1 = Some a) in Ha;
            by injection Ha).
      change (appJsReturned nows (AppJs.detectSpeakerChange now st).2 !! 0%nat = Some b)
        in Hb.
      specialize (IH4 b Hb). rewrite Ha', Hr. lia.
    + by apply (IH3 i).
  - intros a Ha.
    assert (Ha' : a = (AppJs.detectSpeakerChange now st).1)
      by (change (Some (AppJs.detectSpeakerChange now st).1 = Some a) in Ha;
          by injection Ha).
    rewrite Ha', Hr, Hcur. lia.
Qed.

(** X10 used after a reset: of three results, the third comes 4 seconds
    after the second. *)
Lemma appJs_pauses_witness :
  AppJs.currentSpeakerId
    (appJsRun [1000; 2000; 6000]%Z
       (AppJs.resetSpeakerState
          {| AppJs.currentSpeakerId := 0; AppJs.speakerColorMap := ∅;
             AppJs.nextColorIndex := 0; AppJs.lastSpeechTime := None;
             AppJs.speakerCount := 0 |}))
  = 1%Z.
Proof.
  exact (proj1 (appJs_speaker_counts_pauses [1000; 2000; 6000]%Z
                  (AppJs.resetSpeakerState
                     {| AppJs.currentSpeakerId := 0; AppJs.speakerColorMap := ∅;
                        AppJs.nextColorIndex := 0; AppJs.lastSpeechTime := None;
                        AppJs.speakerCount := 0 |}) eq_refl)).
Defined.

(** ** Labels *)

Lemma trim_nonempty (s : string) : trim s ≠ EmptyString → s ≠ EmptyString.
Proof. intros H ->. by apply H. Qed.

(** X11: renaming and labels.  After the prompt is answered with a text
    that is not blank, the label of that speaker is the trimmed answer, the
    labels of all other speakers are unchanged, and the saved snapshot
    holds the new name.  A cancelled answer and a blank one, which [trim]
    leaves empty (white space only, a no-break space included), change
    nothing. *)
Theorem rename_then_label (id : Z) (answer : string) (st : State) :
  (trim answer ≠ EmptyString →
     getSpeakerLabel id (renameSpeaker id (Some answer) st) = trim answer
     ∧ (∀ other, other ≠ id →
          getSpeakerLabel other (renameSpeaker id (Some answer) st)
          = getSpeakerLabel other st)
     ∧ ∃ saved, localStorage (renameSpeaker id (Some answer) st) = Some saved
                ∧ names saved !! id = Some (trim answer))
  ∧ (trim answer = EmptyString → renameSpeaker id (Some answer) st = st)
  ∧ renameSpeaker id None st = st.
Proof.
  split; [|split; [|done]].
  - intros Ht. pose proof (trim_nonempty _ Ht) as Hs.
    unfold renameSpeaker.
    rewrite (bool_decide_eq_true_2 _ Hs), (bool_decide_eq_true_2 _ Ht).
    cbn [andb]. unfold getSpeakerLabel, saveSpeakerProfiles, set_localStorage,
      set_speakerNames. cbn [speakerNames localStorage names].
    split; [|split].
    + rewrite lookup_insert_eq. by rewrite (bool_decide_eq_false_2 _ Ht).
    + intros other Hne. by rewrite lookup_insert_ne.
    + eexists. split; [reflexivity|]. cbn [names]. apply lookup_insert_eq.
  - intros Ht. unfold renameSpeaker.
    rewrite (bool_decide_eq_false_2 (trim answer ≠ EmptyString)) by (by intros H).
    by rewrite andb_false_r.
Qed.

(** X11 used on an answer with white space around a name, and on an
    answer that is a no-break space. *)
Lemma rename_label_witness :
  getSpeakerLabel 1 (renameSpeaker 1 (Some "  Anna ") (run threeVoices pageLoad))
  = "Anna"
  ∧ renameSpeaker 1 (Some noBreakSpace) (run threeVoices pageLoad)
    = run threeVoices pageLoad.
Proof.
  assert (Ht : trim "  Anna " ≠ EmptyString) by (vm_compute; discriminate).
  assert (Hb : trim noBreakSpace = EmptyString) by (vm_compute; reflexivity).
  split.
  - exact (proj1 (proj1 (rename_then_label 1 "  Anna " (run threeVoices pageLoad)) Ht)).
  - exact (proj1 (proj2 (rename_then_label 1 noBreakSpace (run threeVoices pageLoad))) Hb).
Defined.

(** X12: default labels.  A speaker without a stored name is labelled
    "Spreker" followed by its id plus one, and two different speakers
    without stored names never get the same label. *)
Theorem default_labels_distinct (i j : Z) (st : State) :
  speakerNames st !! i = None →
  speakerNames st !! j = None →
  getSpeakerLabel i st = "Spreker " +:+ pretty (i + 1)%Z
  ∧ (i ≠ j → getSpeakerLabel i st ≠ getSpeakerLabel j st).
Proof.
  intros Hi Hj. unfold getSpeakerLabel. rewrite Hi, Hj. cbv zeta.
  split; [done|].
  intros Hne Heq. apply (inj (String.app "Spreker ")) in Heq.
  apply (inj pretty) in Heq. lia.
Qed.

(** X12 used on a fresh session. *)
Lemma default_labels_witness :
  getSpeakerLabel 0 (startListening pageLoad) = "Spreker 1"
  ∧ getSpeakerLabel 0 (startListening pageLoad)
    ≠ getSpeakerLabel 1 (startListening pageLoad).
Proof.
  assert (H0 : speakerNames (startListening pageLoad) !! 0%Z = None)
    by (vm_compute; reflexivity).
  assert (H1 : speakerNames (startListening pageLoad) !! 1%Z = None)
    by (vm_compute; reflexivity).
  destruct (default_labels_distinct 0 1 (startListening pageLoad) H0 H1) as [Hl Hd].
  split; [|apply Hd; discriminate].
  rewrite Hl. vm_compute. reflexivity.
Defined.

(** ** The transcript history *)

Lemma iter_removelast_take {A : Type} (k : nat) (l : list A) :
  Nat.iter k (@removelast A) l = take (length l - k) l.
Proof.
  induction k as [|k IH].
  - simpl. rewrite Nat.sub_0_r. by rewrite firstn_all.
  - rewrite Nat.iter_succ, IH.
    destruct (decide (k < length l)%nat) as [Hlt|Hge].
    + replace (length l - k)%nat with (S (length l - S k)) by lia.
      apply removelast_firstn. lia.
    + replace (length l - k)%nat with 0%nat by lia.
      replace (length l - S k)%nat with 0%nat by lia. done.
Qed.

Lemma saveTranscript_take (entry : Transcript) (stored : option (list Transcript)) :
  getTranscripts (saveTranscript entry stored)
  = take MAX_HISTORY (entry :: getTranscripts stored).
Proof.
  unfold saveTranscript. cbv zeta. cbn [getTranscripts].
  rewrite iter_removelast_take.
  destruct (decide (length (entry :: getTranscripts stored) ≤ MAX_HISTORY)%nat)
    as [Hle|Hgt].
  - rewrite !take_ge; [done|lia|lia].
  - f_equal. lia.
Qed.

(** X13: the history keeps the newest fifty.  After [saveTranscript] the
    history is the new entry followed by the previous entries, cut after
    [MAX_HISTORY = 50] entries; so the new entry comes first, the older
    ones keep their order, and the history never holds more than fifty
    entries, whatever it held before. *)
Theorem saveTranscript_keeps_newest (entry : Transcript)
    (stored : option (list Transcript)) :
  getTranscripts (saveTranscript entry stored)
  = take MAX_HISTORY (entry :: getTranscripts stored)
  ∧ head (getTranscripts (saveTranscript entry stored)) = Some entry
  ∧ length (getTranscripts (saveTranscript entry stored))
    = Nat.min MAX_HISTORY (S (length (getTranscripts stored)))
  ∧ (length (getTranscripts (saveTranscript entry stored)) ≤ MAX_HISTORY)%nat.
Proof.
  pose proof (saveTranscript_take entry stored) as E.
  split; [exact E|]. rewrite E. split; [done|].
  rewrite length_take. cbn [length]. split; lia.
Qed.

(** X14: deleting from the history.  [deleteTranscript] leaves no entry
    with the given id and keeps every other entry; deleting the id of an
    entry that was just saved brings back the previous history when that
    history had room left and no entry with the same id. *)
Theorem deleteTranscript_spec (id : Z) (stored : option (list Transcript)) :
  (∀ t, t ∈ getTranscripts (deleteTranscript id stored)
        ↔ t ∈ getTranscripts stored ∧ transcriptId t ≠ id)
  ∧ (length (getTranscripts (deleteTranscript id stored))
     ≤ length (getTranscripts stored))%nat
  ∧ (∀ entry,
       transcriptId entry = id →
       (length (getTranscripts stored) < MAX_HISTORY)%nat →
       (∀ t, t ∈ getTranscripts stored → transcriptId t ≠ id) →
       getTranscripts (deleteTranscript id (saveTranscript entry stored))
       = getTranscripts stored).
Proof.
  split; [|split].
  - intros t. unfold deleteTranscript. cbn [getTranscripts].
    rewrite !list_elem_of_In, filter_In, negb_true_iff, Z.eqb_neq. done.
  - unfold deleteTranscript. cbn [getTranscripts]. apply filter_length_le.
  - intros entry Hid Hlen Hfresh.
    unfold deleteTranscript. cbn [getTranscripts].
    pose proof (saveTranscript_take entry stored) as E.
    unfold deleteTranscript. rewrite E.
    rewrite take_ge by (cbn [length]; lia).
    cbn [List.filter]. rewrite Hid, Z.eqb_refl. cbn [negb].
    clear E Hlen. revert Hfresh. generalize (getTranscripts stored) as l.
    induction l as [|t l IH]; intros Hfresh; [done|].
    cbn [List.filter].
    assert (transcriptId t ≠ id) as Hne by (apply Hfresh; by left).
    apply Z.eqb_neq in Hne. rewrite Hne. cbn [negb]. f_equal.
    apply IH. intros t' Ht'. apply Hfresh. by right.
Qed.

(** X14 used on a history of one entry. *)
Lemma deleteTranscript_witness :
  getTranscripts
    (deleteTranscript 2000
       (saveTranscript
          {| transcriptId := 2000; date := 1500; mode := "tv"; text := "b";
             paragraphs := 1; duration := 1 |}
          (Some [ {| transcriptId := 1000; date := 900; mode := "conversation";
                     text := "a"; paragraphs := 1; duration := 3 |} ])))
  = [ {| transcriptId := 1000; date := 900; mode := "conversation";
         text := "a"; paragraphs := 1; duration := 3 |} ].
Proof.
  apply (proj2 (proj2 (deleteTranscript_spec 2000
           (Some [ {| transcriptId := 1000; date := 900; mode := "conversation";
                      text := "a"; paragraphs := 1; duration := 3 |} ])))).
  - reflexivity.
  - cbn. unfold MAX_HISTORY. lia.
  - intros t Ht. apply list_elem_of_singleton in Ht. subst t. cbn. lia.
Defined.

(** X15: ending a session twice saves it once.  [finalizeSession] runs
    both from [stopListening] and from the end of recognition; the second
    run finds no paragraphs and changes nothing.  When the session has
    paragraphs and saving is on, the first run puts one entry in front of
    the history, with the number of paragraphs and the duration in seconds
    rounded to the nearest; otherwise it changes nothing. *)
Theorem finalizeSession_once (now now' : Z) (s : Session) :
  finalizeSession now' (finalizeSession now s) = finalizeSession now s
  ∧ (sessionParagraphs s ≠ [] → autoSave s = true →
     ∃ entry,
       head (getTranscripts (history (finalizeSession now s))) = Some entry
       ∧ transcriptId entry = now
       ∧ paragraphs entry = length (sessionParagraphs s)
       ∧ (∀ t, sessionStartTime s = Some t →
            (1000 * duration entry - 500 ≤ now - t < 1000 * duration entry + 500)%Z)
       ∧ sessionParagraphs (finalizeSession now s) = [])
  ∧ (sessionParagraphs s = [] ∨ autoSave s = false → finalizeSession now s = s).
Proof.
  split; [|split].
  - unfold finalizeSession at 2 3.
    destruct (Nat.eqb_spec (length (sessionParagraphs s)) 0) as [Hz|Hz].
    + unfold finalizeSession. by rewrite Hz.
    + destruct (autoSave s) eqn:Ha; cbn [negb].
      * unfold finalizeSession. cbv zeta. cbn [sessionParagraphs length Nat.eqb]. done.
      * unfold finalizeSession.
        destruct (Nat.eqb_spec (length (sessionParagraphs s)) 0); [done|].
        by rewrite Ha.
  - intros Hne Ha. unfold finalizeSession.
    destruct (Nat.eqb_spec (length (sessionParagraphs s)) 0) as [Hz|Hz].
    { destruct (sessionParagraphs s); [done|discriminate Hz]. }
    rewrite Ha. cbn [negb]. cbv zeta. cbn [history sessionParagraphs].
    eexists. split.
    { by rewrite saveTranscript_take. }
    cbn [transcriptId paragraphs duration].
    split; [done|]. split; [done|]. split; [|done].
    intros t ->. unfold roundSeconds.
    pose proof (Z.div_mod (now - t + 500) 1000 ltac:(lia)) as Hd.
    pose proof (Z.mod_pos_bound (now - t + 500) 1000 ltac:(lia)) as Hm.
    lia.
  - intros [He|Ha]; unfold finalizeSession.
    + by rewrite He.
    + rewrite Ha. by destruct (length (sessionParagraphs s) =? 0)%nat.
Qed.

(** X15 used on a session of one paragraph that lasted 2.6 seconds. *)
Lemma finalizeSession_witness :
  ∃ entry,
    head (getTranscripts
            (history
               (finalizeSession 3600
                  {| sessionParagraphs :=
                       [ {| paragraphText := "hallo"; confidence := 0.9;
                            time := 1200; paragraphSpeaker := 0 |} ];
                     sessionStartTime := Some 1000%Z; autoSave := true;
                     currentMode := "conversation"; history := None |})))
    = Some entry
    ∧ paragraphs entry = 1%nat.
Proof.
  destruct (proj1 (proj2 (finalizeSession_once 3600 0
              {| sessionParagraphs :=
                   [ {| paragraphText := "hallo"; confidence := 0.9;
                        time := 1200; paragraphSpeaker := 0 |} ];
                 sessionStartTime := Some 1000%Z; autoSave := true;
                 currentMode := "conversation"; history := None |}))
              ltac:(discriminate) eq_refl) as (entry & Hh & _ & Hp & _).
  exists entry. exact (conj Hh Hp).
Defined.

(** ** The spectral centroid *)

Lemma magnitudeOf_nonneg (b : Byte.byte) : (0 <= magnitudeOf b)%Q.
Proof. unfold magnitudeOf, Qle. simpl. lia. Qed.

Lemma magnitudeOf_zero (b : Byte.byte) : Byte.to_N b = 0%N → magnitudeOf b = 0%Q.
Proof. intros H. unfold magnitudeOf. by rewrite H. Qed.

Lemma magnitudeOf_pos (b : Byte.byte) : Byte.to_N b ≠ 0%N → (0 < magnitudeOf b)%Q.
Proof. intros H. unfold magnitudeOf, Qlt. simpl. lia. Qed.

Lemma inject_nat_le (a b : nat) :
  (a ≤ b)%nat → (inject_Z (Z.of_nat a) <= inject_Z (Z.of_nat b))%Q.
Proof. intros H. rewrite <- Zle_Qle. lia. Qed.

Lemma centroidLoop_total (binWidth : Q) (freqData : list Byte.byte) (i : nat)
    (weightedSum totalWeight : Q) :
  let r := centroidLoop binWidth i freqData weightedSum totalWeight in
  (totalWeight <= r.2)%Q
  ∧ ((∀ b, b ∈ freqData → Byte.to_N b = 0%N) →
     r = (weightedSum, totalWeight) ∨ (r.1 == weightedSum ∧ r.2 == totalWeight)%Q)
  ∧ ((∃ b, b ∈ freqData ∧ Byte.to_N b ≠ 0%N) → (totalWeight < r.2)%Q).
Proof.
  revert i weightedSum totalWeight.
  induction freqData as [|b rest IH]; intros i W T; cbv zeta.
  { cbn [centroidLoop fst snd]. split; [lra|]. split; [by left|].
    intros (b & Hb & _). by apply elem_of_nil in Hb. }
  cbn [centroidLoop]. cbv zeta.
  destruct (IH (S i) (W + magnitudeOf b * (inject_Z (Z.of_nat i) * binWidth))%Q
              (T + magnitudeOf b)%Q) as (H1 & H2 & H3). cbv zeta in *.
  pose proof (magnitudeOf_nonneg b) as Hm.
  split; [lra|]. split.
  - intros Hall. right.
    assert (Hb0 : magnitudeOf b = 0%Q).
    { apply magnitudeOf_zero, Hall. by left. }
    destruct H2 as [E|[E1 E2]].
    + intros b' Hb'. apply Hall. by right.
    + rewrite E. cbn [fst snd]. rewrite Hb0. split; ring.
    + rewrite E1, E2, Hb0. split; ring.
  - intros (b' & Hb' & Hnz).
    apply elem_of_cons in Hb' as [->|Hb'].
    + pose proof (magnitudeOf_pos b Hnz). lra.
    + assert (T + magnitudeOf b < (centroidLoop binWidth (S i) rest
                (W + magnitudeOf b * (inject_Z (Z.of_nat i) * binWidth))
                (T + magnitudeOf b)).2)%Q by (apply H3; by exists b').
      lra.
Qed.

Lemma centroidLoop_band (binWidth : Q) (lo hi : nat) (freqData : list Byte.byte)
    (i : nat) (weightedSum totalWeight : Q) :
  (0 <= binWidth)%Q →
  (∀ j b, freqData !! j = Some b → (i + j < lo ∨ hi < i + j)%nat →
          Byte.to_N b = 0%N) →
  let r := centroidLoop binWidth i freqData weightedSum totalWeight in
  (inject_Z (Z.of_nat lo) * binWidth * (r.2 - totalWeight) <= r.1 - weightedSum)%Q
  ∧ (r.1 - weightedSum <= inject_Z (Z.of_nat hi) * binWidth * (r.2 - totalWeight))%Q.
Proof.
  intros Hbw. revert i weightedSum totalWeight.
  induction freqData as [|b rest IH]; intros i W T Hband; cbv zeta.
  { cbn [centroidLoop fst snd]. split.
    - setoid_replace (T - T)%Q with 0%Q using relation Qeq by ring.
      setoid_replace (W - W)%Q with 0%Q using relation Qeq by ring. lra.
    - setoid_replace (T - T)%Q with 0%Q using relation Qeq by ring.
      setoid_replace (W - W)%Q with 0%Q using relation Qeq by ring. lra. }
  cbn [centroidLoop]. cbv zeta.
  set (m := magnitudeOf b).
  set (qi := inject_Z (Z.of_nat i)).
  destruct (IH (S i) (W + m * (qi * binWidth))%Q (T + m)%Q) as [IHlo IHhi].
  { intros j b' Hj Hout. apply (Hband (S j) b'); [done|lia]. }
  cbv zeta in *.
  set (r := centroidLoop binWidth (S i) rest (W + m * (qi * binWidth)) (T + m)) in *.
  pose proof (magnitudeOf_nonneg b) as Hm. fold m in Hm.
  set (qlo := inject_Z (Z.of_nat lo)) in *.
  set (qhi := inject_Z (Z.of_nat hi)) in *.
  assert (Hmid : (qlo * binWidth * m <= m * (qi * binWidth))%Q
                 ∧ (m * (qi * binWidth) <= qhi * binWidth * m)%Q).
  { destruct (decide (lo ≤ i ≤ hi)%nat) as [[Hlo Hhi]|Hout].
    - pose proof (inject_nat_le _ _ Hlo) as Hqlo. fold qlo qi in Hqlo.
      pose proof (inject_nat_le _ _ Hhi) as Hqhi. fold qhi qi in Hqhi.
      assert (0 <= m * binWidth)%Q by (by apply Qmult_le_0_compat).
      split; nra.
    - assert (Hz : m = 0%Q).
      { apply magnitudeOf_zero, (Hband 0%nat b); [done|lia]. }
      rewrite Hz. split; lra. }
  destruct Hmid as [Hmlo Hmhi].
  split; lra.
Qed.

Lemma calculateSpectralCentroid_silent (freqData : list Byte.byte) (sampleRate : Q) :
  (∀ b, b ∈ freqData → Byte.to_N b = 0%N) →
  calculateSpectralCentroid (Some freqData) (Some sampleRate) = 0%Q.
Proof.
  intros Hall. unfold calculateSpectralCentroid. cbv zeta.
  destruct (centroidLoop_total (sampleRate / 2 / Qlength freqData) freqData 0 0 0)
    as (_ & Hz & _). cbv zeta in Hz.
  assert (Ht : ((centroidLoop (sampleRate / 2 / Qlength freqData) 0 freqData 0 0).2
                == 0)%Q).
  { destruct (Hz Hall) as [E|[_ E]]; [by rewrite E|done]. }
  assert (Qgtb (centroidLoop (sampleRate / 2 / Qlength freqData) 0 freqData 0 0).2 0
          = false) as ->; [|done].
  apply Qgtb_false. rewrite Ht. lra.
Qed.

Lemma calculateSpectralCentroid_bounds (freqData : list Byte.byte) (sampleRate : Q) :
  (0 < sampleRate)%Q →
  (0 <= calculateSpectralCentroid (Some freqData) (Some sampleRate))%Q
  ∧ (calculateSpectralCentroid (Some freqData) (Some sampleRate)
     < sampleRate / 2)%Q.
Proof.
  intros Hsr. unfold calculateSpectralCentroid. cbv zeta.
  set (bw := (sampleRate / 2 / Qlength freqData)%Q).
  destruct (Qgtb (centroidLoop bw 0 freqData 0 0).2 0) eqn:Hgt.
  2: { split; [lra|]. apply Qdiv_pos; lra. }
  apply Qgtb_true in Hgt.
  assert (Hne : freqData ≠ []).
  { intros E. rewrite E in Hgt. cbn in Hgt. lra. }
  pose proof (Qlength_pos freqData Hne) as Hn.
  assert (Hbw : (0 < bw)%Q) by (apply Qdiv_pos; [apply Qdiv_pos; lra|done]).
  destruct (centroidLoop_band bw 0 (length freqData - 1) freqData 0 0 0)
    as [Hlo Hhi]; [lra| |].
  { intros j b Hj [Hout|Hout]; [lia|].
    apply lookup_lt_Some in Hj. lia. }
  cbv zeta in Hlo, Hhi.
  set (r := centroidLoop bw 0 freqData 0 0) in *.
  split.
  + apply Qdiv_nonneg; [|done].
    change (inject_Z (Z.of_nat 0)) with 0%Q in Hlo. lra.
  + apply Qlt_shift_div_r; [done|].
    assert (Hlast : (inject_Z (Z.of_nat (length freqData - 1)) * bw
                     == sampleRate / 2 - bw)%Q).
    { replace (Z.of_nat (length freqData - 1)) with (Z.of_nat (length freqData) - 1)%Z.
      2: { destruct freqData; [done|]. cbn [length]. lia. }
      rewrite <- Z.add_opp_r, inject_Z_plus. fold (Qlength freqData).
      unfold bw. set (n := Qlength freqData) in *. set (h := (sampleRate / 2)%Q).
      unfold Qdiv.
      setoid_replace ((n + inject_Z (-1)) * (h * / n))%Q
        with (h * (n * / n) - h * / n)%Q using relation Qeq
        by (change (inject_Z (-1)) with (-1 # 1)%Q; ring).
      rewrite Qmult_inv_r by lra. ring. }
    assert (Hx : (r.1 <= (sampleRate / 2 - bw) * r.2)%Q).
    { rewrite <- Hlast. lra. }
    assert (0 < bw * r.2)%Q by (apply Qmult_lt_0_compat; lra).
    setoid_replace ((sampleRate / 2 - bw) * r.2)%Q
      with (sampleRate / 2 * r.2 - bw * r.2)%Q using relation Qeq in Hx by ring.
    lra.
Qed.

(** X16: the range of the spectral centroid.  It is 0 when the analyser or
    the audio context is missing and when every magnitude is 0; for a
    positive sample rate it is never negative and always below the Nyquist
    frequency, half the sample rate. *)
Theorem spectralCentroid_range (freqData : list Byte.byte) (sampleRate : Q) :
  (∀ ctx, calculateSpectralCentroid None ctx = 0%Q)
  ∧ (∀ data, calculateSpectralCentroid data None = 0%Q)
  ∧ ((∀ b, b ∈ freqData → Byte.to_N b = 0%N) →
     calculateSpectralCentroid (Some freqData) (Some sampleRate) = 0%Q)
  ∧ ((0 < sampleRate)%Q →
     (0 <= calculateSpectralCentroid (Some freqData) (Some sampleRate))%Q
     ∧ (calculateSpectralCentroid (Some freqData) (Some sampleRate)
        < sampleRate / 2)%Q).
Proof.
  split; [done|]. split; [by intros [d|]|]. split.
  - apply calculateSpectralCentroid_silent.
  - apply calculateSpectralCentroid_bounds.
Qed.

(** X16 used on a spectrum of four bins at 16 kHz. *)
Lemma centroid_range_witness :
  (calculateSpectralCentroid
     (Some [Byte.x00; Byte.x10; Byte.x20; Byte.x00]) (Some 16000)
   < 16000 / 2)%Q.
Proof.
  apply (proj2 (proj2 (proj2 (proj2 (spectralCentroid_range
           [Byte.x00; Byte.x10; Byte.x20; Byte.x00] 16000))) ltac:(reflexivity))).
Defined.

(** X17: the centroid lies within the band that carries the energy.  When
    every bin outside the bins [lo .. hi] has magnitude 0 and some bin has
    not, the centroid is at least the frequency of bin [lo] and at most the
    frequency of bin [hi]; with a single non-zero bin it is exactly the
    frequency of that bin. *)
Theorem spectralCentroid_in_band (freqData : list Byte.byte) (sampleRate : Q)
    (lo hi : nat) :
  (0 < sampleRate)%Q →
  (∀ j b, freqData !! j = Some b → (j < lo ∨ hi < j)%nat → Byte.to_N b = 0%N) →
  (∃ b, b ∈ freqData ∧ Byte.to_N b ≠ 0%N) →
  let binWidth := (sampleRate / 2 / Qlength freqData)%Q in
  (inject_Z (Z.of_nat lo) * binWidth
   <= calculateSpectralCentroid (Some freqData) (Some sampleRate))%Q
  ∧ (calculateSpectralCentroid (Some freqData) (Some sampleRate)
     <= inject_Z (Z.of_nat hi) * binWidth)%Q
  ∧ (lo = hi →
     (calculateSpectralCentroid (Some freqData) (Some sampleRate)
      == inject_Z (Z.of_nat lo) * binWidth)%Q).
Proof.
  intros Hsr Hband Hsome bw.
  assert (Hne : freqData ≠ []).
  { intros ->. destruct Hsome as (b & Hb & _). by apply elem_of_nil in Hb. }
  pose proof (Qlength_pos freqData Hne) as Hn.
  assert (Hbw : (0 < bw)%Q) by (apply Qdiv_pos; [apply Qdiv_pos; lra|done]).
  destruct (centroidLoop_total bw freqData 0 0 0) as (_ & _ & Hpos).
  specialize (Hpos Hsome). cbv zeta in Hpos.
  destruct (centroidLoop_band bw lo hi freqData 0 0 0) as [Hlo Hhi]; [lra|done|].
  cbv zeta in Hlo, Hhi.
  unfold calculateSpectralCentroid. cbv zeta. fold bw.
  set (r := centroidLoop bw 0 freqData 0 0) in *.
  assert (Qgtb r.2 0 = true) as -> by (by apply Qgtb_true).
  assert (Hl : (inject_Z (Z.of_nat lo) * bw <= r.1 / r.2)%Q).
  { apply Qle_shift_div_l; [done|]. lra. }
  assert (Hh : (r.1 / r.2 <= inject_Z (Z.of_nat hi) * bw)%Q).
  { apply Qle_shift_div_r; [done|]. lra. }
  split; [done|]. split; [done|].
  intros ->. apply Qle_antisym; done.
Qed.

(** X17 used on a spectrum with energy in bins 1 and 2 only. *)
Lemma centroid_band_witness :
  (inject_Z (Z.of_nat 1) * (16000 / 2 / 4)
   <= calculateSpectralCentroid
        (Some [Byte.x00; Byte.x10; Byte.x20; Byte.x00]) (Some 16000))%Q.
Proof.
  apply (spectralCentroid_in_band [Byte.x00; Byte.x10; Byte.x20; Byte.x00] 16000 1 2).
  - reflexivity.
  - intros [|[|[|[|j]]]] b Hj Hout; cbn in Hj; try injection Hj as <-;
      try reflexivity; try lia; try discriminate Hj.
  - exists Byte.x10. split; [apply elem_of_cons; right; apply elem_of_cons; by left|].
    discriminate.
Defined.

(** ** Pitch estimation *)

Section EstimatePitchFacts.

Variable sqrt : Q → Q.

Lemma periodStep_cases (buffer : list Q) (bufferLength period : Z) (best : Q * Z) :
  periodStep sqrt buffer bufferLength period best = best
  ∨ (periodStep sqrt buffer bufferLength period best).2 = period.
Proof.
  unfold periodStep. cbv zeta.
  destruct (correlationSums buffer period (bufferLength - period)) as [[c n1] n2].
  destruct (Qgtb _ best.1 && Qgtb _ 0.5); [by right|by left].
Qed.

(** The outer loop ends within its fuel and keeps every invariant of its
    body. *)
Lemma periodLoop_invariant (P : Z → Q * Z → Prop) (buffer : list Q)
    (bufferLength maxPeriod : Z) :
  (∀ period best,
     P period best → (period ≤ maxPeriod)%Z → (2 * period < bufferLength)%Z →
     P (period + 1)%Z (periodStep sqrt buffer bufferLength period best)) →
  ∀ fuel period best,
    (maxPeriod - period + 1 ≤ Z.of_nat fuel)%Z →
    P period best →
    ∃ best' period',
      periodLoop sqrt fuel buffer bufferLength maxPeriod period best = Some best'
      ∧ P period' best'.
Proof.
  intros Hstep fuel. induction fuel as [|fuel IH]; intros period best Hfuel HP.
  - cbn [periodLoop]. cbv zeta.
    destruct (Z.leb_spec period maxPeriod) as [Hle|Hgt]; [lia|].
    cbn [andb]. by exists best, period.
  - cbn [periodLoop]. cbv zeta.
    destruct (Z.leb_spec period maxPeriod) as [Hle|Hgt]; cbn [andb].
    2: { by exists best, period. }
    destruct (Z.ltb_spec (2 * period) bufferLength) as [Hlt|Hge].
    2: { by exists best, period. }
    apply IH; [lia|]. by apply Hstep.
Qed.

End EstimatePitchFacts.

Lemma bufferAt_silent (buffer : list Q) (i : Z) :
  Forall (λ x, x == 0)%Q buffer → (bufferAt buffer i == 0)%Q.
Proof.
  intros Hall. unfold bufferAt.
  destruct (nth_in_or_default (Z.to_nat i) buffer 0%Q) as [Hin| ->]; [|reflexivity].
  rewrite Forall_forall in Hall. apply Hall. by apply list_elem_of_In.
Qed.

Lemma correlationSums_silent (buffer : list Q) (period len : Z) :
  Forall (λ x, x == 0)%Q buffer →
  ((correlationSums buffer period len).1.1 == 0)%Q.
Proof.
  intros Hall. unfold correlationSums.
  assert (G : ∀ (l : list Z) (acc : Q * Q * Q),
             (acc.1.1 == 0)%Q →
             ((fold_left
                 (λ '(correlation, norm1, norm2) i,
                    ((correlation + bufferAt buffer i * bufferAt buffer (i + period))%Q,
                     (norm1 + bufferAt buffer i * bufferAt buffer i)%Q,
                     (norm2 + bufferAt buffer (i + period)
                              * bufferAt buffer (i + period))%Q)) l acc).1.1 == 0)%Q).
  { induction l as [|i l IH]; intros [[c n1] n2] Hc; [done|].
    cbn [fold_left]. apply IH. cbn [fst] in *.
    rewrite Hc, (bufferAt_silent buffer i Hall). ring. }
  by apply G.
Qed.

Lemma periodStep_silent (sqrt : Q → Q) (buffer : list Q) (bufferLength period : Z)
    (best : Q * Z) :
  Forall (λ x, x == 0)%Q buffer →
  periodStep sqrt buffer bufferLength period best = best.
Proof.
  intros Hall. unfold periodStep. cbv zeta.
  pose proof (correlationSums_silent buffer period (bufferLength - period) Hall) as Hc.
  destruct (correlationSums buffer period (bufferLength - period)) as [[c n1] n2].
  cbn [fst] in Hc.
  set (correlation := if Qgtb (sqrt (n1 * n2)%Q) 0 then (c / sqrt (n1 * n2))%Q else c).
  assert (Hz : (correlation == 0)%Q).
  { unfold correlation. destruct (Qgtb (sqrt (n1 * n2)%Q) 0); [|done].
    unfold Qdiv. rewrite Hc. ring. }
  assert (Qgtb correlation 0.5 = false) as ->.
  { apply Qgtb_false. rewrite Hz. by compute. }
  by rewrite andb_false_r.
Qed.

Lemma estimatePitch_returns (sqrt : Q → Q) (analyser : option (list Q))
    (context : option Q) :
  ∃ r, estimatePitch sqrt analyser context = Some r.
Proof.
  revert analyser context.
  intros [buf|] [sr|]; try (by exists 0%Q).
  unfold estimatePitch. cbv zeta.
  destruct (Qltb _ 0.01); [by exists 0%Q|].
  destruct (periodLoop_invariant sqrt (λ _ _, True) buf (Z.of_nat (length buf))
              (Qfloor (sr / 60)) ltac:(done)
              (Z.to_nat (Qfloor (sr / 60) - Qfloor (sr / 500) + 1))
              (Qfloor (sr / 500)) (0%Q, 0%Z) ltac:(lia) I)
    as (best & _ & -> & _).
  by eexists.
Qed.

Lemma estimatePitch_scanned (sqrt : Q → Q) (buffer : list Q) (sampleRate : Q) :
  (0 < sampleRate)%Q →
  ∃ r, estimatePitch sqrt (Some buffer) (Some sampleRate) = Some r
    ∧ (r = 0%Q
       ∨ ∃ period,
           (Qfloor (sampleRate / 500) ≤ period ≤ Qfloor (sampleRate / 60))%Z
           ∧ (0 < period)%Z
           ∧ (2 * period < Z.of_nat (length buffer))%Z
           ∧ r = (sampleRate / inject_Z period)%Q
           ∧ (60 <= r)%Q
           ∧ (r * inject_Z (Qfloor (sampleRate / 500)) <= sampleRate)%Q).
Proof.
  intros Hsr. unfold estimatePitch. cbv zeta.
  destruct (Qltb _ 0.01); [exists 0%Q; split; [done|by left]|].
  set (minPeriod := Qfloor (sampleRate / 500)).
  set (maxPeriod := Qfloor (sampleRate / 60)).
  set (bufferLength := Z.of_nat (length buffer)).
  destruct (periodLoop_invariant sqrt
              (λ period best,
                 (minPeriod ≤ period)%Z
                 ∧ (best.2 = 0%Z
                    ∨ (minPeriod ≤ best.2 ∧ best.2 ≤ maxPeriod
                       ∧ 2 * best.2 < bufferLength)%Z))
              buffer bufferLength maxPeriod)
    with (fuel := Z.to_nat (maxPeriod - minPeriod + 1)) (period := minPeriod)
         (best := (0%Q, 0%Z))
    as (best & period' & -> & _ & Hbest).
  { intros period best [Hmin Hb] Hle Hlt. split; [lia|].
    destruct (periodStep_cases sqrt buffer bufferLength period best) as [-> | ->];
      [done|right; lia]. }
  { lia. }
  { split; [lia|by left]. }
  eexists. split; [reflexivity|].
  destruct (Z.ltb_spec 0 best.2) as [Hpos|Hnp]; [|by left].
  right. exists best.2.
  destruct Hbest as [Hz|(Hlo & Hhi & Hhalf)]; [lia|].
  split; [done|]. split; [done|]. split; [done|]. split; [done|].
  assert (HP : (0 < inject_Z best.2)%Q).
  { change 0%Q with (inject_Z 0). by rewrite <- Zlt_Qlt. }
  split.
  + apply Qle_shift_div_l; [done|].
    assert (H1 : (inject_Z best.2 <= inject_Z maxPeriod)%Q) by (by rewrite <- Zle_Qle).
    assert (H2 : (inject_Z maxPeriod <= sampleRate / 60)%Q) by apply Qfloor_le.
    assert (H3 : (inject_Z best.2 <= sampleRate / 60)%Q) by lra.
    assert (H4 : (sampleRate / 60 == sampleRate * (1 # 60))%Q) by (by unfold Qdiv).
    rewrite H4 in H3. lra.
  + assert (H1 : (inject_Z minPeriod <= inject_Z best.2)%Q) by (by rewrite <- Zle_Qle).
    setoid_replace (sampleRate / inject_Z best.2 * inject_Z minPeriod)%Q
      with (sampleRate * inject_Z minPeriod / inject_Z best.2)%Q using relation Qeq
      by (unfold Qdiv; ring).
    apply Qle_shift_div_r; [done|]. nra.
Qed.

(** X18: the range of the pitch estimate.  [estimatePitch] always ends
    within the periods it scans, whatever the sample rate.  For a positive
    sample rate its result is 0 ("no clear pitch") or the sample rate
    divided by one of the scanned periods: a positive period between
    [floor (sampleRate / 500)] and [floor (sampleRate / 60)] that is
    shorter than half the buffer.  A non-zero estimate is therefore at
    least 60 Hz and at most [sampleRate / floor (sampleRate / 500)]. *)
Theorem estimatePitch_range (sqrt : Q → Q) (buffer : list Q) (sampleRate : Q) :
  (∀ analyser context, ∃ r, estimatePitch sqrt analyser context = Some r)
  ∧ ((0 < sampleRate)%Q →
     ∃ r, estimatePitch sqrt (Some buffer) (Some sampleRate) = Some r
       ∧ (r = 0%Q
          ∨ ∃ period,
              (Qfloor (sampleRate / 500) ≤ period ≤ Qfloor (sampleRate / 60))%Z
              ∧ (0 < period)%Z
              ∧ (2 * period < Z.of_nat (length buffer))%Z
              ∧ r = (sampleRate / inject_Z period)%Q
              ∧ (60 <= r)%Q
              ∧ (r * inject_Z (Qfloor (sampleRate / 500)) <= sampleRate)%Q)).
Proof.
  split.
  - intros analyser context. apply estimatePitch_returns.
  - apply estimatePitch_scanned.
Qed.

(** X18 used on a square wave sampled at 600 Hz. *)
Lemma estimatePitch_example_witness :
  ∃ r, estimatePitch sqrtOnSquares (Some squareWave) (Some 600%Q) = Some r
       ∧ (r = 0%Q
          ∨ ∃ period,
              (Qfloor (600 / 500) ≤ period ≤ Qfloor (600 / 60))%Z
              ∧ (0 < period)%Z
              ∧ (2 * period < Z.of_nat (length squareWave))%Z
              ∧ r = (600 / inject_Z period)%Q
              ∧ (60 <= r)%Q
              ∧ (r * inject_Z (Qfloor (600 / 500)) <= 600)%Q).
Proof.
  apply (proj2 (estimatePitch_range sqrtOnSquares squareWave 600)). reflexivity.
Defined.

Lemma estimatePitch_zero_buffer (sqrt : Q → Q) (buffer : list Q) (sampleRate : Q) :
  Forall (λ x, x == 0)%Q buffer →
  estimatePitch sqrt (Some buffer) (Some sampleRate) = Some 0%Q.
Proof.
  intros Hall. unfold estimatePitch. cbv zeta.
  destruct (Qltb _ 0.01); [done|].
  destruct (periodLoop_invariant sqrt (λ _ best, best = (0%Q, 0%Z)) buffer
              (Z.of_nat (length buffer)) (Qfloor (sampleRate / 60)))
    with (fuel := Z.to_nat (Qfloor (sampleRate / 60) - Qfloor (sampleRate / 500) + 1))
         (period := Qfloor (sampleRate / 500)) (best := (0%Q, 0%Z))
    as (best & _ & -> & ->).
  - intros period best -> _ _. by apply periodStep_silent.
  - lia.
  - done.
  - done.
Qed.

(** X19: no signal, no pitch.  Without an analyser or an audio context,
    and on a buffer of zeros only, [estimatePitch] returns 0: no period is
    ever taken as the best one, whatever the sample rate. *)
Theorem estimatePitch_silence (sqrt : Q → Q) (buffer : list Q) (sampleRate : Q) :
  (∀ context, estimatePitch sqrt None context = Some 0%Q)
  ∧ (∀ analyser, estimatePitch sqrt analyser None = Some 0%Q)
  ∧ (Forall (λ x, x == 0)%Q buffer →
     estimatePitch sqrt (Some buffer) (Some sampleRate) = Some 0%Q).
Proof.
  split; [done|]. split; [by intros [b|]|].
  apply estimatePitch_zero_buffer.
Qed.

(** X19 used on a silent buffer at 16 kHz. *)
Lemma estimatePitch_silence_example_witness :
  estimatePitch sqrtOnSquares (Some [0; 0; 0; 0]%Q) (Some 16000%Q) = Some 0%Q.
Proof.
  apply (proj2 (proj2 (estimatePitch_silence sqrtOnSquares [0; 0; 0; 0]%Q 16000))).
  repeat constructor.
Defined.

(** ** The volume meter *)

Lemma sum_magnitudes_bounds (lo hi : Q) (dataArray : list Byte.byte) (init : Q) :
  Forall (λ b, lo <= magnitudeOf b ∧ magnitudeOf b <= hi)%Q dataArray →
  (init + lo * Qlength dataArray
   <= reduce (λ sum val, sum + magnitudeOf val) init dataArray)%Q
  ∧ (reduce (λ sum val, sum + magnitudeOf val) init dataArray
     <= init + hi * Qlength dataArray)%Q.
Proof.
  unfold reduce. revert init.
  induction dataArray as [|b rest IH]; intros init Hall.
  - cbn [fold_left]. unfold Qlength. cbn [length]. change (inject_Z (Z.of_nat 0)) with 0%Q.
    split; lra.
  - apply Forall_cons in Hall as [[Hlo Hhi] Hall].
    cbn [fold_left]. destruct (IH (init + magnitudeOf b)%Q Hall) as [IH1 IH2].
    assert (E : (Qlength (b :: rest) == Qlength rest + 1)%Q).
    { unfold Qlength. cbn [length]. rewrite Nat2Z.inj_succ. unfold Z.succ.
      rewrite inject_Z_plus. reflexivity. }
    rewrite E. split; lra.
Qed.

Lemma magnitudeOf_max (b : Byte.byte) : (magnitudeOf b <= 255)%Q.
Proof.
  unfold magnitudeOf. change 255%Q with (inject_Z 255). rewrite <- Zle_Qle.
  pose proof (Byte.to_N_bounded b). lia.
Qed.

(** X20: the volume bar.  For a non-empty spectrum the width computed by
    [updateVolumeMeter] is a whole percentage between 0 and 100; it is 0
    when every bin is 0, and it is 100 as soon as every bin is at least
    128, half of the full scale. *)
Theorem volumeOf_range (dataArray : list Byte.byte) :
  dataArray ≠ [] →
  (0 ≤ volumeOf dataArray ≤ 100)%Z
  ∧ (Forall (λ b, Byte.to_N b = 0%N) dataArray → volumeOf dataArray = 0%Z)
  ∧ (Forall (λ b, (128 ≤ Byte.to_N b)%N) dataArray → volumeOf dataArray = 100%Z).
Proof.
  intros Hne. pose proof (Qlength_pos dataArray Hne) as Hn.
  unfold volumeOf. cbv zeta.
  set (sum := reduce (λ sum val, (sum + magnitudeOf val)%Q) 0%Q dataArray).
  assert (Hscale : ∀ lo, (lo * Qlength dataArray <= sum)%Q →
                         (lo / 128 * 100 + (1 # 2)
                          <= sum / Qlength dataArray / 128 * 100 + (1 # 2))%Q).
  { intros lo Hlo.
    assert (lo <= sum / Qlength dataArray)%Q by (by apply Qle_shift_div_l).
    set (x := (sum / Qlength dataArray)%Q) in *.
    unfold Qdiv. change (/ 128)%Q with (1 # 128)%Q. lra. }
  split; [|split].
  - split; [|lia].
    apply Z.min_glb; [lia|].
    destruct (sum_magnitudes_bounds 0 255 dataArray 0) as [Hlo _].
    { apply Forall_forall. intros b _. split; [apply magnitudeOf_nonneg|apply magnitudeOf_max]. }
    fold sum in Hlo.
    change 0%Z with (Qfloor (0 / 128 * 100 + (1 # 2))).
    apply Qfloor_resp_le, Hscale. lra.
  - intros Hz.
    destruct (sum_magnitudes_bounds 0 0 dataArray 0) as [Hlo Hhi].
    { eapply Forall_impl; [exact Hz|]. intros b Hb. cbn beta in *.
      rewrite (magnitudeOf_zero b Hb). split; lra. }
    fold sum in Hlo, Hhi.
    assert (Hs : (sum == 0)%Q) by lra.
    assert (E : (sum / Qlength dataArray / 128 * 100 + (1 # 2) == 1 # 2)%Q).
    { unfold Qdiv. rewrite Hs. ring. }
    rewrite E. reflexivity.
  - intros Hbig.
    destruct (sum_magnitudes_bounds 128 255 dataArray 0) as [Hlo _].
    { eapply Forall_impl; [exact Hbig|]. intros b Hb. cbn beta.
      split; [|apply magnitudeOf_max].
      unfold magnitudeOf. change 128%Q with (inject_Z 128). rewrite <- Zle_Qle.
      cbn beta in Hb. lia. }
    fold sum in Hlo.
    apply Z.min_l.
    change 100%Z with (Qfloor (128 / 128 * 100 + (1 # 2))).
    apply Qfloor_resp_le, Hscale. lra.
Qed.

(** X20 used on a spectrum of four bins. *)
Lemma volumeOf_example_witness :
  (0 ≤ volumeOf [Byte.x00; Byte.x10; Byte.x20; Byte.x00] ≤ 100)%Z.
Proof.
  apply (volumeOf_range [Byte.x00; Byte.x10; Byte.x20; Byte.x00]). discriminate.
Defined.

(** ** Sampling a voice *)

(** X21: what a stored sample looks like.  For a positive sample rate,
    [collectVoiceSample] with the measurements of [estimatePitch] and
    [calculateSpectralCentroid] either leaves the state as it is or appends
    one sample whose pitch is at least 60 Hz and at most
    [sampleRate / floor (sampleRate / 500)] and whose centroid is positive
    and below half the sample rate.  Silence is never stored: when the
    time-domain data or the spectrum holds zeros only, the state is
    unchanged. *)
Theorem measured_sample_is_voiced (sqrt : Q → Q) (pitchData : list Q)
    (freqData : list Byte.byte) (sampleRate : Q) (st : State) :
  (0 < sampleRate)%Q →
  ∃ st',
    collectVoiceSampleFrom sqrt (Some pitchData) (Some freqData) (Some sampleRate) st
    = Some st'
    ∧ (st' = st
       ∨ ∃ s, st' = set_voiceSampleBuffer (voiceSampleBuffer st ++ [s]) st
              ∧ (60 <= pitch s)%Q
              ∧ (pitch s * inject_Z (Qfloor (sampleRate / 500)) <= sampleRate)%Q
              ∧ (0 < centroid s)%Q
              ∧ (centroid s < sampleRate / 2)%Q)
    ∧ (Forall (λ x, x == 0)%Q pitchData ∨ Forall (λ b, Byte.to_N b = 0%N) freqData →
       st' = st).
Proof.
  intros Hsr.
  destruct (estimatePitch_scanned sqrt pitchData sampleRate Hsr) as (r & Hr & Hcases).
  destruct (calculateSpectralCentroid_bounds freqData sampleRate Hsr) as [_ Hhi].
  unfold collectVoiceSampleFrom. rewrite Hr. cbv zeta.
  set (c := calculateSpectralCentroid (Some freqData) (Some sampleRate)) in *.
  eexists. split; [reflexivity|].
  unfold collectVoiceSample.
  destruct (Qgtb r 0) eqn:Hp; cbn [andb]; [|split; [by left|done]].
  destruct (Qgtb c 0) eqn:Hc; [|split; [by left|done]].
  apply Qgtb_true in Hp, Hc.
  split.
  - right. exists {| pitch := r; centroid := c |}. cbn [pitch centroid].
    split; [done|].
    destruct Hcases as [-> | (period & _ & _ & _ & _ & H60 & Hmax)]; [lra|done].
  - intros [Hsilent|Hsilent]; exfalso.
    + rewrite (estimatePitch_zero_buffer sqrt pitchData sampleRate Hsilent) in Hr.
      injection Hr as <-. lra.
    + assert (Hz : c = 0%Q).
      { apply calculateSpectralCentroid_silent. intros b Hb.
        rewrite Forall_forall in Hsilent. by apply Hsilent. }
      rewrite Hz in Hc. lra.
Qed.

(** X21 used on a square wave with energy in two bins, at 600 Hz. *)
Lemma measured_sample_witness :
  ∃ st',
    collectVoiceSampleFrom sqrtOnSquares (Some squareWave)
      (Some [Byte.x00; Byte.x10; Byte.x20; Byte.x00]) (Some 600%Q) pageLoad
    = Some st'
    ∧ (st' = pageLoad
       ∨ ∃ s, st' = set_voiceSampleBuffer (voiceSampleBuffer pageLoad ++ [s]) pageLoad
              ∧ (60 <= pitch s)%Q
              ∧ (pitch s * inject_Z (Qfloor (600 / 500)) <= 600)%Q
              ∧ (0 < centroid s)%Q
              ∧ (centroid s < 600 / 2)%Q)
    ∧ (Forall (λ x, x == 0)%Q squareWave
       ∨ Forall (λ b, Byte.to_N b = 0%N) [Byte.x00; Byte.x10; Byte.x20; Byte.x00] →
       st' = pageLoad).
Proof.
  apply (measured_sample_is_voiced sqrtOnSquares squareWave
           [Byte.x00; Byte.x10; Byte.x20; Byte.x00] 600 pageLoad).
  reflexivity.
Defined.
